(** * Verification of the Paperless/Ollama summarizer

    A shallow embedding of [src/index.ts], [src/cleanupNotes.ts],
    [src/config/config.ts] and [src/utils/*.ts], followed by theorems about
    the page scanner, the summary writer, the summary generator and the
    cleanup orchestrator. Of the two variants of the summarizer in the
    sources, the one split over [utils] and [config] is the one embedded.

    Conventions of the embedding:
    - a JavaScript string is a [string]: a sequence of code units, here
      restricted to the range 0..255;
    - a JavaScript number is an integer [Z] (the exact fragment of doubles
      below 2^53 in magnitude); [NaN] is [None] where the code can produce it;
    - [undefined] and [null] are [None]; an optional field [f?: T] is an
      [option];
    - the platform (HTTP, the generation service, the file system, the URL
      parser) is a [Runtime] whose operations transform an abstract world;
    - a program is a function from a store to an outcome, a new store and
      the events it emitted, in order. *)

From Stdlib Require Import ZArith Ascii.
From stdpp Require Import base option list strings gmap pretty.

Local Open Scope Z_scope.

(** ** JavaScript primitives *)

Module JS.

(** Truthiness, the coercion behind [!x], [x || y] and [if (x)]. *)
Class Truthy (A : Type) := truthy : A -> bool.

#[export] Instance truthy_string : Truthy string :=
  fun s => match s with EmptyString => false | String _ _ => true end.
#[export] Instance truthy_number : Truthy Z :=
  fun n => negb (n =? 0).
(** Every array is truthy, the empty one too. *)
#[export] Instance truthy_array {A} : Truthy (list A) :=
  fun _ => true.
#[export] Instance truthy_optional {A} `{Truthy A} : Truthy (option A) :=
  fun o => match o with Some a => truthy a | None => false end.

(** [x ?? d]: only [undefined] and [null] are replaced. *)
Definition nullish {A} (x : option A) (d : A) : A :=
  match x with Some a => a | None => d end.

(** [x || d] on an optional value. *)
Definition or_else {A} `{Truthy A} (x : option A) (d : A) : A :=
  match x with
  | Some a => if truthy a then a else d
  | None => d
  end.

(** [s.startsWith(search)] *)
Fixpoint startsWith (s search : string) {struct search} : bool :=
  match search with
  | EmptyString => true
  | String c search' =>
      match s with
      | String d s' => Ascii.eqb c d && startsWith s' search'
      | EmptyString => false
      end
  end.

(** [s.includes(search)]: [search] occurs at some position of [s]. *)
Fixpoint includes (s search : string) : bool :=
  startsWith s search ||
  match s with
  | String _ s' => includes s' search
  | EmptyString => false
  end.

(** [Array.prototype.some] *)
Definition some {A} (f : A -> bool) (l : list A) : bool := existsb f l.

(** [chunks.join('')], the result of repeated [+=]. *)
Definition join (l : list string) : string :=
  fold_right String.append EmptyString l.

(** [Number.prototype.toString] on an integer: the decimal numeral. *)
Definition Number_toString (n : Z) : string := pretty n.

(** The same on a number that may be NaN ([None]). *)
Definition numberText (n : option Z) : string :=
  match n with Some z => Number_toString z | None => "NaN" end.

(** *** [parseInt] *)

Definition code (c : ascii) : N := Ascii.N_of_ascii c.

(** WhiteSpace and LineTerminator code units below 256. *)
Definition isWhiteSpace (c : ascii) : bool :=
  let n := code c in
  ((9 <=? n) && (n <=? 13) || (n =? 32) || (n =? 160))%N.

Fixpoint trimStart (s : string) : string :=
  match s with
  | String c s' => if isWhiteSpace c then trimStart s' else s
  | EmptyString => EmptyString
  end.

(** The value of a code unit as a digit: 0-9, then a-z and A-Z for 10-35. *)
Definition digitValue (c : ascii) : option Z :=
  let n := Z.of_N (code c) in
  if (48 <=? n) && (n <=? 57) then Some (n - 48)
  else if (97 <=? n) && (n <=? 122) then Some (n - 87)
  else if (65 <=? n) && (n <=? 90) then Some (n - 55)
  else None.

(** The longest prefix of radix-[R] digits, read left to right;
    [None] when there is no digit at all. *)
Fixpoint parseDigits (R : Z) (acc : option Z) (s : string) : option Z :=
  match s with
  | String c s' =>
      match digitValue c with
      | Some d =>
          if d <? R then parseDigits R (Some (nullish acc 0 * R + d)) s'
          else acc
      | None => acc
      end
  | EmptyString => acc
  end.

(** A leading [0x] or [0X], stripped. *)
Definition stripHexPrefix (s : string) : option string :=
  match s with
  | String c1 (String c2 r) =>
      if Ascii.eqb c1 "0" && (Ascii.eqb c2 "x" || Ascii.eqb c2 "X") then Some r else None
  | _ => None
  end.

(** An optional sign in front: the sign and the rest. *)
Definition splitSign (s : string) : Z * string :=
  match s with
  | String c r =>
      if Ascii.eqb c "-" then (-1, r)
      else if Ascii.eqb c "+" then (1, r)
      else (1, s)
  | EmptyString => (1, s)
  end.

(** [parseInt(s, radix)]; [radix = None] is the call with one argument.
    [None] is NaN. The result is the mathematical value of the digits:
    it is the result of the code for values below 2^53 in magnitude, which
    a double holds exactly; beyond that the code rounds, and this
    definition does not. White space is the set of the code units below
    256. *)
Definition parseInt (s : string) (radix : option Z) : option Z :=
  let s1 := trimStart s in
  let '(sign, s2) := splitSign s1 in
  let R0 := nullish radix 0 in
  if negb (R0 =? 0) && ((R0 <? 2) || (36 <? R0)) then None
  else
    let strip := (R0 =? 0) || (R0 =? 16) in
    let R1 := if R0 =? 0 then 10 else R0 in
    let '(R, s3) :=
      match (if strip then stripHexPrefix s2 else None) with
      | Some r => (16, r)
      | None => (R1, s2)
      end in
    match parseDigits R None s3 with
    | Some v => Some (sign * v)
    | None => None
    end.

(** [isNaN] on the result of [parseInt]. *)
Definition isNaN (n : option Z) : bool :=
  match n with Some _ => false | None => true end.

(** *** Errors *)

Record Error := mkError { name : string; message : string }.

(** [new Error(msg)] *)
Definition newError (msg : string) : Error :=
  {| name := "Error"; message := msg |}.

End JS.
Export JS.

(** ** JSON text, as produced by [JSON.stringify] *)

Module JSON.

#[warnings="-register-all"]
Inductive Value :=
| Null
| Number (n : Z)
| Str (s : string)
| Object (members : list (string * Value)).

Definition DQUOTE : ascii := ascii_of_N 34.
Definition BACKSLASH : ascii := ascii_of_N 92.

Definition hexDigit (n : N) : ascii :=
  if (n <? 10)%N then ascii_of_N (48 + n) else ascii_of_N (87 + n).

(** [\u00XX] for a code unit below 256, in lower-case hexadecimal. *)
Definition unicodeEscape (n : N) : string :=
  String BACKSLASH
    (String "u" (String "0" (String "0"
      (String (hexDigit (n / 16)) (String (hexDigit (n mod 16)) EmptyString))))).

(** QuoteJSONString, one code unit at a time. *)
Definition quoteChar (c : ascii) : string :=
  let n := code c in
  if (n =? 8)%N then String BACKSLASH "b"
  else if (n =? 9)%N then String BACKSLASH "t"
  else if (n =? 10)%N then String BACKSLASH "n"
  else if (n =? 12)%N then String BACKSLASH "f"
  else if (n =? 13)%N then String BACKSLASH "r"
  else if (n =? 34)%N then String BACKSLASH (String DQUOTE EmptyString)
  else if (n =? 92)%N then String BACKSLASH (String BACKSLASH EmptyString)
  else if (n <? 32)%N then unicodeEscape n
  else String c EmptyString.

Fixpoint quoteChars (s : string) : string :=
  match s with
  | String c s' => quoteChar c +:+ quoteChars s'
  | EmptyString => EmptyString
  end.

Definition quote (s : string) : string :=
  String DQUOTE (quoteChars s +:+ String DQUOTE EmptyString).

(** The members of an object, already serialized, separated by commas. *)
Fixpoint joinMembers (ms : list (string * string)) : string :=
  match ms with
  | [] => EmptyString
  | [(k, v)] => k +:+ ":" +:+ v
  | (k, v) :: rest => k +:+ ":" +:+ v +:+ "," +:+ joinMembers rest
  end.

(** [JSON.stringify(v)] without indentation: members in insertion order,
    no white space. *)
Fixpoint stringify (v : Value) : string :=
  match v with
  | Null => "null"
  | Number n => Number_toString n
  | Str s => quote s
  | Object ms =>
      "{" +:+ joinMembers (map (fun m => (quote m.1, stringify m.2)) ms) +:+ "}"
  end.

(** *** The grammar of RFC 8259, for the texts [stringify] can produce
    and their neighbours: values with optional white space, objects,
    strings with every escape, numbers with fraction and exponent. *)

Definition isDigit (c : ascii) : bool :=
  let n := code c in ((48 <=? n) && (n <=? 57))%N.

Definition isHexDigit (c : ascii) : bool :=
  let n := code c in
  ((48 <=? n) && (n <=? 57) || (97 <=? n) && (n <=? 102) || (65 <=? n) && (n <=? 70))%N.

Definition isUnescaped (c : ascii) : bool :=
  let n := code c in
  ((32 <=? n) && negb (n =? 34) && negb (n =? 92))%N.

Definition isEscapeLetter (c : ascii) : bool :=
  let n := code c in
  ((n =? 34) || (n =? 92) || (n =? 47) || (n =? 98) || (n =? 102)
   || (n =? 110) || (n =? 114) || (n =? 116))%N.

Definition isWs (c : ascii) : bool :=
  let n := code c in ((n =? 32) || (n =? 9) || (n =? 10) || (n =? 13))%N.

Inductive digits : string -> Prop :=
| digits_nil : digits EmptyString
| digits_cons c s : isDigit c = true -> digits s -> digits (String c s).

Inductive ws : string -> Prop :=
| ws_nil : ws EmptyString
| ws_cons c s : isWs c = true -> ws s -> ws (String c s).

(** int = zero / ( digit1-9 *DIGIT ) *)
Inductive int_part : string -> Prop :=
| int_zero : int_part "0"
| int_pos c s :
    isDigit c = true -> c <> "0"%char -> digits s -> int_part (String c s).

Inductive frac_part : string -> Prop :=
| frac_none : frac_part EmptyString
| frac_some c s : isDigit c = true -> digits s -> frac_part (String "." (String c s)).

Inductive exp_sign : string -> Prop :=
| exp_nosign : exp_sign EmptyString
| exp_plus : exp_sign "+"
| exp_minus : exp_sign "-".

Inductive exp_part : string -> Prop :=
| exp_none : exp_part EmptyString
| exp_some e sg c s :
    (e = "e" \/ e = "E")%char -> exp_sign sg -> isDigit c = true -> digits s ->
    exp_part (String e (sg +:+ String c s)).

(** number = [ minus ] int [ frac ] [ exp ] *)
Inductive number : string -> Prop :=
| number_pos i f e : int_part i -> frac_part f -> exp_part e -> number (i +:+ f +:+ e)
| number_neg i f e :
    int_part i -> frac_part f -> exp_part e -> number (String "-" (i +:+ f +:+ e)).

(** The characters between the quotation marks of a string. *)
Inductive chars : string -> Prop :=
| chars_nil : chars EmptyString
| chars_plain c s : isUnescaped c = true -> chars s -> chars (String c s)
| chars_escape c s :
    isEscapeLetter c = true -> chars s -> chars (String BACKSLASH (String c s))
| chars_unicode h1 h2 h3 h4 s :
    isHexDigit h1 = true -> isHexDigit h2 = true ->
    isHexDigit h3 = true -> isHexDigit h4 = true -> chars s ->
    chars (String BACKSLASH (String "u" (String h1 (String h2 (String h3 (String h4 s)))))).

Inductive string_lit : string -> Prop :=
| string_lit_intro s :
    chars s -> string_lit (String DQUOTE (s +:+ String DQUOTE EmptyString)).

Inductive value : string -> Prop :=
| value_null : value "null"
| value_true : value "true"
| value_false : value "false"
| value_number s : number s -> value s
| value_string s : string_lit s -> value s
| value_array_empty w : ws w -> value ("[" +:+ w +:+ "]")
| value_array es : elements es -> value ("[" +:+ es +:+ "]")
| value_object_empty w : ws w -> value ("{" +:+ w +:+ "}")
| value_object ms : members ms -> value ("{" +:+ ms +:+ "}")
with element : string -> Prop :=
| element_intro w1 v w2 : ws w1 -> value v -> ws w2 -> element (w1 +:+ v +:+ w2)
with elements : string -> Prop :=
| elements_one e : element e -> elements e
| elements_more e es : element e -> elements es -> elements (e +:+ "," +:+ es)
with member : string -> Prop :=
| member_intro w1 k w2 e :
    ws w1 -> string_lit k -> ws w2 -> element e -> member (w1 +:+ k +:+ w2 +:+ ":" +:+ e)
with members : string -> Prop :=
| members_one m : member m -> members m
| members_more m ms : member m -> members ms -> members (m +:+ "," +:+ ms).

(** JSON-text = ws value ws *)
Definition text (s : string) : Prop := element s.

(** *** The string a string literal denotes (RFC 8259, section 7), for
    code units below 256 *)

Definition hexValue (c : ascii) : option N :=
  let n := code c in
  if ((48 <=? n) && (n <=? 57))%N then Some (n - 48)%N
  else if ((97 <=? n) && (n <=? 102))%N then Some (n - 87)%N
  else if ((65 <=? n) && (n <=? 70))%N then Some (n - 55)%N
  else None.

(** The character a two-character escape stands for. *)
Definition escaped (c : ascii) : option ascii :=
  let n := code c in
  if (n =? 34)%N then Some DQUOTE
  else if (n =? 92)%N then Some BACKSLASH
  else if (n =? 47)%N then Some (ascii_of_N 47)
  else if (n =? 98)%N then Some (ascii_of_N 8)
  else if (n =? 102)%N then Some (ascii_of_N 12)
  else if (n =? 110)%N then Some (ascii_of_N 10)
  else if (n =? 114)%N then Some (ascii_of_N 13)
  else if (n =? 116)%N then Some (ascii_of_N 9)
  else None.

(** What follows the opening quotation mark, up to and with the closing
    one, which has to be the last character. *)
Fixpoint unquoteChars (s : string) : option string :=
  match s with
  | EmptyString => None
  | String c rest =>
      if Ascii.eqb c DQUOTE then
        match rest with EmptyString => Some EmptyString | _ => None end
      else if Ascii.eqb c BACKSLASH then
        match rest with
        | String e rest' =>
            if Ascii.eqb e "u" then
              match rest' with
              | String h1 (String h2 (String h3 (String h4 r))) =>
                  match hexValue h1, hexValue h2, hexValue h3, hexValue h4 with
                  | Some 0%N, Some 0%N, Some a, Some b =>
                      option_map (String (ascii_of_N (16 * a + b))) (unquoteChars r)
                  | _, _, _, _ => None
                  end
              | _ => None
              end
            else
              match escaped e with
              | Some d => option_map (String d) (unquoteChars rest')
              | None => None
              end
        | EmptyString => None
        end
      else if (code c <? 32)%N then None
      else option_map (String c) (unquoteChars rest)
  end.

Definition unquote (literal : string) : option string :=
  match literal with
  | String c rest => if Ascii.eqb c DQUOTE then unquoteChars rest else None
  | EmptyString => None
  end.

End JSON.

(** ** Data model ([src/interfaces]) *)

Record PaperlessNote := {
  note_id : Z;
  note : option string;
  note_document : option Z;
  note_user : option Z;
}.

Record PaperlessDocument := {
  content : option string;
  created : option string;
  id : option Z;
  title : option string;
  notes : option (list PaperlessNote);
}.

Record PaperlessSearchResult := {
  count : option Z;
  next : option string;
  previous : option string;
  all : option (list Z);
  results : option (list PaperlessDocument);
}.

Record SummarizerConfiguration := {
  CONTEXT_LENGTH : option Z;   (* [None] is NaN *)
  MODEL_NAME : string;
  SUMMARY_MARKER : string;
  SUMMARY_PROMPT : string;
}.

Record EnvConfig := {
  apiKey : string;
  paperlessUrl : string;
  saveTxtSummary : option Z;   (* [None] is NaN *)
  saveTxtPath : option string;
}.

(** [process.env] *)
Abbreviation ProcessEnv := (gmap string string).

(** ** The platform *)

Inductive Method := GET | POST | DELETE.

#[export] Instance Method_eq_dec : EqDecision Method.
Proof. solve_decision. Defined.

(** A [Headers] object: its entries in insertion order. *)
Abbreviation Headers := (list (string * string)).

Record Request := {
  method : Method;
  url : string;
  headers : Headers;
  body : option string;
  signal : bool;   (* an AbortSignal is attached *)
}.

(** What [response.json()] can resolve to, seen through the interfaces the
    callers cast it to. [JOther] is a value of another shape (an object
    without the fields asked for, a number, a string), on which reading a
    field gives [undefined]. The body [null], on which reading a field
    throws a [TypeError], is not represented: the services are taken not to
    answer with it. *)
Inductive JsonBody :=
| JPage (p : PaperlessSearchResult)
| JDocument (d : PaperlessDocument)
| JNotes (l : list PaperlessNote)
| JOther.

Record Response := {
  status : Z;
  statusText : string;
  json : Error + JsonBody;   (* [inl e]: [response.json()] rejects with [e] *)
}.

(** [response.ok] *)
Definition ok (r : Response) : bool := (200 <=? status r) && (status r <=? 299).

Inductive FetchOutcome :=
| Rejected (e : Error)
| Responded (r : Response).

Record GenerateRequest := {
  model : string;
  prompt : string;
  stream : bool;
}.

(** The async iterator [ollama.generate] resolves to: the [response] of
    each part, then either the end of the stream or a rejection. *)
Record Stream := {
  parts : list string;
  failure : option Error;
}.

Class Runtime := {
  World : Type;
  fetch : Request -> World -> FetchOutcome * World;
  ollama_generate : GenerateRequest -> World -> (Error + Stream) * World;
  (** [new URL(s)], [url.searchParams.append(k, v)], [url.href] *)
  URL : Type;
  URL_new : string -> option URL;
  URL_searchParams_append : URL -> string -> string -> URL;
  URL_href : URL -> string;
  (** [node:path] and [node:fs] *)
  path_resolve : string -> string;
  path_join : string -> string -> string;
  fs_existsSync : string -> World -> bool;
  fs_mkdirSync : string -> World -> option Error * World;
  fs_writeFileSync : string -> string -> World -> option Error * World;
  (** [Number(s)] on a string, integer results only *)
  Number_ofString : string -> option Z;
}.

(** ** Events and the program monad *)

(** The texts written to the console, with the values interpolated. *)
Inductive ConsoleMsg :=
| ProcessingDocument (id : Z)
| PostingSummary (id : Z)
| ErrorProcessingDocument (id : Z) (e : Error)
| PageProcessed (found : nat) (next : string)
| FailedToParseJson (e : Error)
| InvalidResultsFormat
| SkippingInvalidDocument (d : PaperlessDocument)
| DeletingNote (noteId : Z) (documentId : option Z)
| ErrorDeletingNote (noteId : Z) (e : Error)
| InvalidNextPageUrl (url : string)
| CleanupPageProcessed (next : option string)
| RequestTimeout
| CheckingForAiNotes (documentId : option Z)
| FailedToFetchNotes (documentId : option Z) (e : Error)
| FoundNotes (n : nat) (documentId : option Z)
| Uncaught (e : Error).

Inductive Event :=
| EvFetch (r : Request)
| EvGenerate (r : GenerateRequest)
| EvMkdir (path : string)
| EvWriteFile (path : string) (data : string)
| EvStdout (s : string)
| EvLog (m : ConsoleMsg)      (* console.log *)
| EvError (m : ConsoleMsg).   (* console.error *)

Inductive Outcome (A : Type) :=
| Return (a : A)
| Throw (e : Error)
| OutOfFuel.
Arguments Return {A} a.
Arguments Throw {A} e.
Arguments OutOfFuel {A}.

Section Monad.
Context `{Runtime}.

(** The store: the world outside, and the one [Headers] object the
    summarizer's [main] allocates and later mutates. *)
Record Store := {
  world : World;
  headersObj : Headers;
}.

Definition M (A : Type) : Type := Store -> Outcome A * Store * list Event.

Definition ret {A} (a : A) : M A := fun s => (Return a, s, []).

Definition bind {A B} (m : M A) (f : A -> M B) : M B :=
  fun s =>
    match m s with
    | (Return a, s1, t1) =>
        let '(r, s2, t2) := f a s1 in (r, s2, t1 ++ t2)
    | (Throw e, s1, t1) => (Throw e, s1, t1)
    | (OutOfFuel, s1, t1) => (OutOfFuel, s1, t1)
    end.

Definition throw {A} (e : Error) : M A := fun s => (Throw e, s, []).

Definition diverge {A} : M A := fun s => (OutOfFuel, s, []).

(** [try { m } catch (error) { handler error }] *)
Definition try_catch {A} (m : M A) (handler : Error -> M A) : M A :=
  fun s =>
    match m s with
    | (Throw e, s1, t1) =>
        let '(r, s2, t2) := handler e s1 in (r, s2, t1 ++ t2)
    | other => other
    end.

Definition emit (e : Event) : M unit := fun s => (Return tt, s, [e]).

Definition console_log (m : ConsoleMsg) : M unit := emit (EvLog m).
Definition console_error (m : ConsoleMsg) : M unit := emit (EvError m).

(** An operation of the platform on the world that may fail. *)
Definition world_op {A} (f : World -> (Error + A) * World) : M A :=
  fun s =>
    let '(r, w) := f (world s) in
    let s' := {| world := w; headersObj := headersObj s |} in
    match r with
    | inr a => (Return a, s', [])
    | inl e => (Throw e, s', [])
    end.

Definition world_read {A} (f : World -> A) : M A :=
  fun s => (Return (f (world s)), s, []).

Definition readHeaders : M Headers := fun s => (Return (headersObj s), s, []).
Definition writeHeaders (h : Headers) : M unit :=
  fun s => (Return tt, {| world := world s; headersObj := h |}, []).

Definition outcome {A} (r : Outcome A * Store * list Event) : Outcome A := r.1.1.
Definition final {A} (r : Outcome A * Store * list Event) : Store := r.1.2.
Definition events {A} (r : Outcome A * Store * list Event) : list Event := r.2.

End Monad.

Declare Scope prog_scope.
Delimit Scope prog_scope with prog.
Notation "'let*' x ':=' m 'in' k" := (bind m (fun x => k))
  (at level 10, x name, m at level 100, k at level 200) : prog_scope.
Notation "m ;; k" := (bind m (fun _ => k))
  (at level 100, k at level 200, right associativity) : prog_scope.

Local Open Scope prog_scope.

Definition LF : string := String (ascii_of_N 10) EmptyString.

(** ** [src/config/config.ts] *)

(** [CONTEXT_LENGTH] is the value of [parseInt] above: the number of the
    code when it is below 2^53 in magnitude. *)

Definition CONFIG (env : ProcessEnv) : SummarizerConfiguration := {|
  CONTEXT_LENGTH := parseInt (nullish (env !! "CONTEXT_LENGTH") "8096") None;
  MODEL_NAME := nullish (env !! "MODEL_NAME") "llama3.2";
  SUMMARY_MARKER := nullish (env !! "SUMMARY_MARKER") "AI_SUMMARY";
  SUMMARY_PROMPT := nullish (env !! "SUMMARY_PROMPT") "Summarize the given text: ";
|}.

(** The object [JSON.stringify(CONFIG)] walks: the four own properties in
    the order of the object literal; a NaN is serialized as [null]. *)
Definition CONFIG_value (c : SummarizerConfiguration) : JSON.Value :=
  JSON.Object
    [ ("CONTEXT_LENGTH",
        match CONTEXT_LENGTH c with Some n => JSON.Number n | None => JSON.Null end);
      ("MODEL_NAME", JSON.Str (MODEL_NAME c));
      ("SUMMARY_MARKER", JSON.Str (SUMMARY_MARKER c));
      ("SUMMARY_PROMPT", JSON.Str (SUMMARY_PROMPT c)) ].

Section Utils.
Context `{Runtime}.

(** ** [src/utils/envUtils.ts] *)

Definition ERR_MISSING_ENV_VARIABLES : string :=
  "The environment variables PAPERLESS_TOKEN and PAPERLESS_URL must be set "
  +:+ "in order to run the program.".

Definition validateEnvironmentVariables (apiKey paperlessUrl : option string) : M unit :=
  if negb (truthy apiKey) || negb (truthy paperlessUrl)
  then throw (newError ERR_MISSING_ENV_VARIABLES)
  else ret tt.

(** [Number(process.env.OUTPUT_TXT) || 0]: [Number(undefined)] is NaN. *)
Definition outputTxtFlag (env : ProcessEnv) : Z :=
  or_else (env !! "OUTPUT_TXT" ≫= Number_ofString) 0.

Definition getEnvironmentVariables (env : ProcessEnv) : M EnvConfig :=
  let apiKey := nullish (env !! "PAPERLESS_TOKEN") "" in
  let paperlessUrl := nullish (env !! "PAPERLESS_URL") "" in
  let saveTxtSummary := outputTxtFlag env in
  let saveTxtPath := nullish (env !! "OUTPUT_PATH") "" in
  validateEnvironmentVariables (Some apiKey) (Some paperlessUrl) ;;
  ret {| apiKey := apiKey; paperlessUrl := paperlessUrl;
         saveTxtSummary := Some saveTxtSummary; saveTxtPath := Some saveTxtPath |}.

(** ** [src/utils/apiUtils.ts] *)

(** [await fetch(url, init)]: the request is issued, then the promise
    settles. *)
Definition http (r : Request) : M Response :=
  emit (EvFetch r) ;;
  world_op (fun w =>
    match fetch r w with
    | (Rejected e, w') => (inl e, w')
    | (Responded x, w') => (inr x, w')
    end).

(** [await response.json()] *)
Definition response_json (r : Response) : M JsonBody :=
  match json r with
  | inl e => throw e
  | inr b => ret b
  end.

(** [new URL(s)] throws a TypeError on an invalid URL. *)
Definition newURL (s : string) : M URL :=
  match URL_new s with
  | Some u => ret u
  | None => throw {| name := "TypeError"; message := "Invalid URL" |}
  end.

Definition initHeaders (apiKey : string) : Headers :=
  [("Authorization", "Token " +:+ apiKey)].

(** [headers.set(name, value)]: the first entry of that name takes the
    value and the others go; a new name is appended. *)
Fixpoint Headers_remove (k : string) (h : Headers) : Headers :=
  match h with
  | [] => []
  | (k', v') :: h' =>
      if String.eqb k k' then Headers_remove k h' else (k', v') :: Headers_remove k h'
  end.

Fixpoint Headers_set (k v : string) (h : Headers) : Headers :=
  match h with
  | [] => [(k, v)]
  | (k', v') :: h' =>
      if String.eqb k k' then (k, v) :: Headers_remove k h'
      else (k', v') :: Headers_set k v h'
  end.

Definition fetchDocument (url : string) (headers : Headers) : M JsonBody :=
  let* response :=
    http {| method := GET; url := url; headers := headers; body := None; signal := false |} in
  if negb (ok response)
  then throw (newError ("Failed to fetch document: " +:+ statusText response))
  else response_json response.

(** [JSON.stringify({note})] *)
Definition noteBody (note : string) : string :=
  JSON.stringify (JSON.Object [("note", JSON.Str note)]).

Definition postComment (baseUrl : string) (documentId : Z) (headers : Headers)
    (note : string) : M JsonBody :=
  let* url :=
    newURL (baseUrl +:+ "/documents/" +:+ Number_toString documentId +:+ "/notes/") in
  let* response :=
    http {| method := POST; url := URL_href url; headers := headers;
            body := Some (noteBody note); signal := false |} in
  if negb (ok response)
  then throw (newError ("Error during note posting-request: " +:+ statusText response))
  else response_json response.

(** [documentId] is a number as JavaScript has it, NaN included. *)
Definition deleteComment (baseUrl : string) (documentId : option Z) (noteId : Z)
    (headers : Headers) : M Z :=
  let* url :=
    newURL (baseUrl +:+ "/documents/" +:+ numberText documentId +:+ "/notes/") in
  let url := URL_searchParams_append url "id" (Number_toString noteId) in
  let* response :=
    http {| method := DELETE; url := URL_href url; headers := headers;
            body := None; signal := false |} in
  if negb (ok response)
  then throw (newError ("Error during note deletion-request: " +:+ statusText response))
  else ret (status response).

(** ** [src/utils/fileUtils.ts] *)

Definition saveSummaryToFile (id : Z) (summary : string) (savePath : option string)
    : M unit :=
  let outPath := path_resolve (or_else savePath "") in
  let* existing := world_read (fs_existsSync outPath) in
  (if negb existing
   then emit (EvMkdir outPath) ;;
        world_op (fun w =>
          match fs_mkdirSync outPath w with
          | (Some e, w') => (inl e, w')
          | (None, w') => (inr tt, w')
          end)
   else ret tt) ;;
  let filePath := path_join outPath (Number_toString id +:+ "_summary.txt") in
  emit (EvWriteFile filePath summary) ;;
  world_op (fun w =>
    match fs_writeFileSync filePath summary w with
    | (Some e, w') => (inl e, w')
    | (None, w') => (inr tt, w')
    end).

(** The interfaces a parsed body is cast to: a field the body does not
    have reads as [undefined]. *)
Definition as_page (b : JsonBody) : PaperlessSearchResult :=
  match b with
  | JPage p => p
  | _ => {| count := None; next := None; previous := None; all := None; results := None |}
  end.

Definition as_document (b : JsonBody) : PaperlessDocument :=
  match b with
  | JDocument d => d
  | _ => {| content := None; created := None; id := None; title := None; notes := None |}
  end.

(** [Array.isArray] on an optional array field and on a parsed body. *)
Definition isArray {A} (o : option (list A)) : bool :=
  match o with Some _ => true | None => false end.

Definition as_notes (b : JsonBody) : option (list PaperlessNote) :=
  match b with
  | JNotes l => Some l
  | _ => None
  end.

End Utils.

(** ** [src/index.ts]: the summarizer *)

Module Index.
Section Index.
Context `{Runtime}.
Variable CONFIG : SummarizerConfiguration.

(** The [for await] loop of [summarizeText]: each part is appended to
    [summarizedText] and, on [display], written to standard output. *)
Fixpoint consume (display : bool) (ps : list string) (failure : option Error)
    (summarizedText : string) : M string :=
  match ps with
  | part :: ps' =>
      let summarizedText := summarizedText +:+ part in
      (if display then emit (EvStdout part) else ret tt) ;;
      consume display ps' failure summarizedText
  | [] =>
      match failure with
      | Some e => throw e
      | None => ret summarizedText
      end
  end.

Definition summarizeText (text : string) (display : bool) : M string :=
  let request :=
    {| model := MODEL_NAME CONFIG;
       prompt := SUMMARY_PROMPT CONFIG +:+ " " +:+ text;
       stream := true |} in
  emit (EvGenerate request) ;;
  let* summary := world_op (ollama_generate request) in
  consume display (parts summary) (failure summary) EmptyString.

(** [note.note?.includes(CONFIG.SUMMARY_MARKER)], coerced by [some]. *)
Definition noteHasMarker (n : PaperlessNote) : bool :=
  match note n with
  | Some text => includes text (SUMMARY_MARKER CONFIG)
  | None => false
  end.

(** The [for (const d of page.results)] loop of [processDocumentPages]. *)
Fixpoint collectUnsummarized (docs : list PaperlessDocument) (unsummarizedIds : list Z)
    : list Z :=
  match docs with
  | d :: docs' =>
      if negb (truthy (id d)) then collectUnsummarized docs' unsummarizedIds
      else
        let notes := notes d in
        if negb (truthy notes) || negb (some noteHasMarker (nullish notes []))
        then collectUnsummarized docs' (unsummarizedIds ++ [nullish (id d) 0])
        else collectUnsummarized docs' unsummarizedIds
  | [] => unsummarizedIds
  end.

(** The [while (hasPages)] loop; [fuel] bounds the number of iterations. *)
Fixpoint scanPages (fuel : nat) (headers : Headers) (nextPage : string)
    (unsummarizedIds : list Z) : M (list Z) :=
  match fuel with
  | O => diverge
  | S fuel' =>
      let* response :=
        http {| method := GET; url := nextPage; headers := headers;
                body := None; signal := false |} in
      if negb (ok response)
      then throw (newError ("Error on search request: " +:+ statusText response))
      else
        let* parsed := response_json response in
        let page := as_page parsed in
        if negb (truthy (results page))
        then scanPages fuel' headers nextPage unsummarizedIds   (* continue *)
        else
          let unsummarizedIds :=
            collectUnsummarized (nullish (results page) []) unsummarizedIds in
          if negb (truthy (next page))
          then ret unsummarizedIds                              (* hasPages = false *)
          else
            let nextPage := nullish (next page) "" in
            console_log (PageProcessed (length unsummarizedIds) nextPage) ;;
            scanPages fuel' headers nextPage unsummarizedIds
  end.

Definition processDocumentPages (fuel : nat) (baseUrl : string) (headers : Headers)
    : M (list Z) :=
  scanPages fuel headers (baseUrl +:+ "/documents/?ordering=-id") [].

(** The template literal posted as the note. *)
Definition summaryNote (summary : string) : string :=
  summary +:+ LF +:+ LF +:+ "Model-Configuration:" +:+
  JSON.stringify (CONFIG_value CONFIG) +:+ LF +:+ SUMMARY_MARKER CONFIG.

(** The body of the [try] block of [main], for one id. *)
Definition summarizeDocument (envConfig : EnvConfig) (id : Z) : M unit :=
  let* headers := readHeaders in
  let* document :=
    fetchDocument
      (paperlessUrl envConfig +:+ "/documents/" +:+ Number_toString id +:+ "/") headers in
  let content := content (as_document document) in
  if negb (truthy content)
  then throw (newError "Malformed document content. Skipping document.")
  else
    let* summary := summarizeText (nullish content "") false in
    let* headers := readHeaders in
    writeHeaders (Headers_set "Content-Type" "application/json" headers) ;;
    console_log (PostingSummary id) ;;
    let* headers := readHeaders in
    postComment (paperlessUrl envConfig) id headers (summaryNote summary) ;;
    if truthy (saveTxtSummary envConfig)
    then saveSummaryToFile id summary (saveTxtPath envConfig)
    else ret tt.

(** The [for (const id of unsummarizedDocumentIds)] loop of [main]. *)
Fixpoint summarizeAll (envConfig : EnvConfig) (ids : list Z) : M unit :=
  match ids with
  | id :: ids' =>
      console_log (ProcessingDocument id) ;;
      try_catch (summarizeDocument envConfig id)
        (fun error => console_error (ErrorProcessingDocument id error)) ;;
      summarizeAll envConfig ids'
  | [] => ret tt
  end.

Definition main (env : ProcessEnv) (fuel : nat) : M unit :=
  let* envConfig := getEnvironmentVariables env in
  writeHeaders (initHeaders (apiKey envConfig)) ;;
  let* headers := readHeaders in
  let* unsummarizedDocumentIds :=
    processDocumentPages fuel (paperlessUrl envConfig) headers in
  summarizeAll envConfig unsummarizedDocumentIds.

(** [main().catch(console.error)] *)
Definition run (env : ProcessEnv) (fuel : nat) : M unit :=
  try_catch (main env fuel) (fun error => console_error (Uncaught error)).

End Index.

(** The program as started: [CONFIG] is read from the environment when
    the module is loaded. *)
Definition program `{Runtime} (env : ProcessEnv) (fuel : nat) : M unit :=
  run (CONFIG env) env fuel.

End Index.

(** ** [src/cleanupNotes.ts]: the cleanup tool *)

Module Cleanup.

(** How one iteration of the [while (nextPage)] loop ends. *)
Inductive Control :=
| Continue (nextPage : option string)   (* next iteration *)
| Break                                 (* [break] *)
| FunctionReturn.                       (* [return] *)

Section Cleanup.
Context `{Runtime}.
Variable CONFIG : SummarizerConfiguration.

(** [typeof note.note === 'string' && note.note.includes(CONFIG.SUMMARY_MARKER)] *)
Definition isSummaryNote (n : PaperlessNote) : bool :=
  match note n with
  | Some text => includes text (SUMMARY_MARKER CONFIG)
  | None => false
  end.

(** [Promise.allSettled(notes.filter(..).map(async note => ..))] of
    [findAndDeleteSummaries]. Each deletion catches its own failure. The
    deletions are taken in the order they are issued, each settled before
    the next: the requests come in the order of the code; the line that
    reports a failed deletion comes right after its request here, where
    the code prints it once the requests of the document are all out. *)
Fixpoint deleteSummaryNotes (baseUrl : string) (headers : Headers) (documentId : option Z)
    (marked : list PaperlessNote) : M unit :=
  match marked with
  | n :: marked' =>
      try_catch
        (console_log (DeletingNote (note_id n) documentId) ;;
         deleteComment baseUrl documentId (note_id n) headers ;;
         ret tt)
        (fun error => console_error (ErrorDeletingNote (note_id n) error)) ;;
      deleteSummaryNotes baseUrl headers documentId marked'
  | [] => ret tt
  end.

(** The [for (const d of page.results)] loop of [findAndDeleteSummaries]. *)
Fixpoint cleanDocuments (baseUrl : string) (headers : Headers)
    (docs : list PaperlessDocument) : M unit :=
  match docs with
  | d :: docs' =>
      let notes := notes d in
      (if negb (truthy (id d)) || negb (truthy notes) || negb (isArray notes)
       then console_error (SkippingInvalidDocument d)
       else
         deleteSummaryNotes baseUrl headers (id d)
           (List.filter isSummaryNote (nullish notes []))) ;;
      cleanDocuments baseUrl headers docs'
  | [] => ret tt
  end.

(** The [try] block of one iteration, for the page at [nextPage]. *)
Definition cleanPage (baseUrl : string) (headers : Headers) (nextPage : string)
    : M Control :=
  let* response :=
    http {| method := GET; url := nextPage; headers := headers;
            body := None; signal := true |} in
  if negb (ok response)
  then throw (newError ("Fehler bei der Suchanfrage: " +:+ statusText response))
  else
    match json response with
    | inl error => console_error (FailedToParseJson error) ;; ret FunctionReturn
    | inr parsed =>
        let page := as_page parsed in
        if negb (truthy (results page)) || negb (isArray (results page))
        then console_error InvalidResultsFormat ;; ret (Continue (Some nextPage))
        else
          cleanDocuments baseUrl headers (nullish (results page) []) ;;
          (* nextPage = page.next?.toString() || null *)
          let nextPage' :=
            match next page with
            | Some s => if truthy s then Some s else None
            | None => None
            end in
          if truthy nextPage' && negb (startsWith (nullish nextPage' "") baseUrl)
          then console_error (InvalidNextPageUrl (nullish nextPage' "")) ;; ret Break
          else console_log (CleanupPageProcessed (next page)) ;; ret (Continue nextPage')
    end.

(** The [while (nextPage)] loop with its [catch]: a timeout is logged and
    the loop goes on with [nextPage] as it was, any other error is thrown
    again. [clearTimeout] has no effect of its own. *)
Fixpoint cleanLoop (fuel : nat) (baseUrl : string) (headers : Headers)
    (nextPage : option string) : M unit :=
  if negb (truthy nextPage) then ret tt
  else
    match fuel with
    | O => diverge
    | S fuel' =>
        let* control :=
          try_catch (cleanPage baseUrl headers (nullish nextPage ""))
            (fun error =>
               if String.eqb (name error) "AbortError"
               then console_error RequestTimeout ;; ret (Continue nextPage)
               else throw error) in
        match control with
        | Continue nextPage => cleanLoop fuel' baseUrl headers nextPage
        | Break => ret tt
        | FunctionReturn => ret tt
        end
    end.

Definition findAndDeleteSummaries (fuel : nat) (baseUrl : string) (headers : Headers)
    : M unit :=
  if negb (truthy (SUMMARY_MARKER CONFIG))
  then throw (newError "SUMMARY_MARKER is undefined")
  else cleanLoop fuel baseUrl headers (Some (baseUrl +:+ "/documents/?ordering=-id")).

(** [note.note?.includes(CONFIG.SUMMARY_MARKER)], coerced by [filter]. *)
Definition noteHasMarker (n : PaperlessNote) : bool :=
  match note n with
  | Some text => includes text (SUMMARY_MARKER CONFIG)
  | None => false
  end.

(** [Promise.allSettled(..)] of [deleteAiNotesAtDocument], read in the
    same way: the requests in the order of the code, each settled before
    the next. *)
Fixpoint deleteAiNotes (paperlessUrl : string) (headers : Headers) (documentId : option Z)
    (marked : list PaperlessNote) : M unit :=
  match marked with
  | n :: marked' =>
      try_catch
        (deleteComment paperlessUrl documentId (note_id n) headers ;; ret tt)
        (fun error => console_error (ErrorDeletingNote (note_id n) error)) ;;
      deleteAiNotes paperlessUrl headers documentId marked'
  | [] => ret tt
  end.

Definition deleteAiNotesAtDocument (paperlessUrl : string) (documentId : option Z)
    (headers : Headers) : M unit :=
  let* url :=
    newURL (paperlessUrl +:+ "/documents/" +:+ numberText documentId +:+ "/notes/") in
  console_log (CheckingForAiNotes documentId) ;;
  let* fetched :=
    try_catch
      (let* b := fetchDocument (URL_href url) headers in ret (Some b))
      (fun error => console_error (FailedToFetchNotes documentId error) ;; ret None) in
  match fetched with
  | None => ret tt                                      (* return *)
  | Some parsed =>
      match as_notes parsed with
      | None =>
          throw (newError ("Unexpected data format for notes at document ID "
                           +:+ numberText documentId))
      | Some notes =>
          console_log (FoundNotes (length notes) documentId) ;;
          deleteAiNotes paperlessUrl headers documentId
            (List.filter noteHasMarker notes)
      end
  end.

Definition ERR_INVALID_COMMAND : string :=
  let q := String (ascii_of_N 34) EmptyString in
  "Invalid command. Use " +:+ q +:+ "all" +:+ q +:+ " or a positive number as document ID.".

(** [main], for the [command] taken from the arguments. The test of the
    [Headers] object after the URL check cannot fail on the object
    [initHeaders] returns and is left out. *)
Definition main (command : string) (env : ProcessEnv) (fuel : nat) : M unit :=
  let* envConfig := getEnvironmentVariables env in
  let headers := initHeaders (apiKey envConfig) in
  (match URL_new (paperlessUrl envConfig) with
   | Some _ => ret tt
   | None => throw (newError ("Invalid Paperless API URL: " +:+ paperlessUrl envConfig))
   end) ;;
  let documentId := parseInt command (Some 10) in
  if negb (String.eqb command "all")
     && (isNaN documentId || (nullish documentId 0 <=? 0))
  then throw (newError ERR_INVALID_COMMAND)
  else
    if String.eqb command "all"
    then findAndDeleteSummaries fuel (paperlessUrl envConfig) headers
    else
      deleteAiNotesAtDocument (paperlessUrl envConfig)
        (parseInt (or_else (Some command) "-999") None) headers.

(** The module body: the arguments are checked when the module is loaded,
    an error there is not caught; then [main().catch(console.error)]. *)
Definition run (args : list string) (env : ProcessEnv) (fuel : nat) : M unit :=
  match args with
  | [arg0] =>
      if negb (String.eqb arg0 "all") && isNaN (parseInt arg0 (Some 10))
      then throw (newError "Usage: node script.js <all|number>")
      else
        let command := arg0 in
        try_catch (main command env fuel) (fun error => console_error (Uncaught error))
  | _ => throw (newError "Usage: node script.js <all|number>")   (* args.length !== 1 *)
  end.

End Cleanup.

Definition program `{Runtime} (args : list string) (env : ProcessEnv) (fuel : nat)
    : M unit :=
  run (CONFIG env) args env fuel.

End Cleanup.

(** ** Notions the specification speaks in *)

Section Specification.
Context `{Runtime}.

(** [m] occurs in [t] as a substring. *)
Definition substring_of (m t : string) : Prop :=
  exists a b, t = a +:+ m +:+ b.

(** Some note of the document has a text that contains the marker. *)
Definition has_summary_note (marker : string) (d : PaperlessDocument) : Prop :=
  exists l n text,
    notes d = Some l /\ In n l /\ note n = Some text /\ substring_of marker text.

(** A document the unsummarized-scan is to return: its id is present and
    it has no notes, or none that contains the marker. *)
Definition unsummarized (marker : string) (d : PaperlessDocument) : Prop :=
  is_Some (id d) /\ ~ has_summary_note marker d.

(** The documents of a sequence of pages, page after page. *)
Definition documentsOf (pages : list PaperlessSearchResult) : list PaperlessDocument :=
  concat (map (fun p => nullish (results p) []) pages).

(** A page request of the crawl. *)
Definition pageRequest (headers : Headers) (withSignal : bool) (url : string) : Request :=
  {| method := GET; url := url; headers := headers; body := None; signal := withSignal |}.

(** From world [w], the listing answers a crawl that starts at [url] with
    the pages [pages], one per request, each linked to the next by a
    non-empty [next]; the last one has none. [w'] is the world after the
    last answer. *)
Inductive serves (headers : Headers) :
    World -> string -> list (string * PaperlessSearchResult) -> World -> Prop :=
| serves_last w url resp parsed w' :
    fetch (pageRequest headers false url) w = (Responded resp, w') ->
    ok resp = true ->
    json resp = inr parsed ->
    truthy (next (as_page parsed)) = false ->
    serves headers w url [(url, as_page parsed)] w'
| serves_next w url resp parsed w1 u rest w' :
    fetch (pageRequest headers false url) w = (Responded resp, w1) ->
    ok resp = true ->
    json resp = inr parsed ->
    next (as_page parsed) = Some u ->
    truthy u = true ->
    serves headers w1 u rest w' ->
    serves headers w url ((url, as_page parsed) :: rest) w'.

(** In world [w], the page request for [url] is answered with a success
    status and the page [p], leaving the world [w']. *)
Definition answers (headers : Headers) (w : World) (url : string)
    (p : PaperlessSearchResult) (w' : World) : Prop :=
  exists resp,
    fetch (pageRequest headers false url) w = (Responded resp, w')
    /\ ok resp = true /\ json resp = inr (JPage p).

(** The arguments the cleanup tool goes on with: the token [all], or a
    string [parseInt] reads, in radix 10, as a positive integer. *)
Definition accepted (a : string) : Prop :=
  a = "all" \/ exists n, parseInt a (Some 10) = Some n /\ 0 < n.

(** A string of decimal digits, at least one, not all of them 0: a
    positive integer written out. *)
Definition isPositiveInteger (a : string) : bool :=
  let cs := String.list_ascii_of_string a in
  forallb JSON.isDigit cs && existsb (fun c => negb (Ascii.eqb c "0")) cs.

Definition isUsageError (e : Error) : Prop :=
  e = newError "Usage: node script.js <all|number>"
  \/ e = newError Cleanup.ERR_INVALID_COMMAND.

(** The environment passes the validation at startup. *)
Definition validEnvironment (env : ProcessEnv) (token url : string) : Prop :=
  env !! "PAPERLESS_TOKEN" = Some token /\ token <> ""
  /\ env !! "PAPERLESS_URL" = Some url /\ url <> ""
  /\ is_Some (URL_new url).

(** Projections of a trace. *)
Definition fetches (t : list Event) : list Request :=
  omap (fun e => match e with EvFetch r => Some r | _ => None end) t.

Definition stdoutWrites (t : list Event) : list string :=
  omap (fun e => match e with EvStdout s => Some s | _ => None end) t.

Definition attempts (t : list Event) : list Z :=
  omap (fun e => match e with EvLog (ProcessingDocument i) => Some i | _ => None end) t.

Definition failures (t : list Event) : list (Z * Error) :=
  omap (fun e =>
          match e with
          | EvError (ErrorProcessingDocument i err) => Some (i, err)
          | _ => None
          end) t.

End Specification.

(** *** The posted note, in the words of the specification *)

Section NoteSpecification.

(** The quotation mark, and a name between two of them. *)
Definition DQ : string := String (ascii_of_N 34) EmptyString.

Definition quoted (name : string) : string := DQ +:+ name +:+ DQ.

(** The backslash that starts an escape inside a literal. *)
Definition BS : string := String (ascii_of_N 92) EmptyString.

(** The serialized configuration: an object with the four settings, in
    this order and without white space, given the texts of their values. *)
Definition configurationText (contextLength model marker prompt : string) : string :=
  "{" +:+ quoted "CONTEXT_LENGTH" +:+ ":" +:+ contextLength
  +:+ "," +:+ quoted "MODEL_NAME" +:+ ":" +:+ model
  +:+ "," +:+ quoted "SUMMARY_MARKER" +:+ ":" +:+ marker
  +:+ "," +:+ quoted "SUMMARY_PROMPT" +:+ ":" +:+ prompt +:+ "}".

(** [config] serializes [cfg]: the context length as its decimal numeral,
    or [null] when it is no number, the other three as string literals
    that denote the setting. *)
Definition serializesConfiguration (cfg : SummarizerConfiguration) (config : string)
    : Prop :=
  exists model marker prompt,
    config
    = configurationText
        match CONTEXT_LENGTH cfg with Some n => Number_toString n | None => "null" end
        model marker prompt
    /\ JSON.unquote model = Some (MODEL_NAME cfg)
    /\ JSON.unquote marker = Some (SUMMARY_MARKER cfg)
    /\ JSON.unquote prompt = Some (SUMMARY_PROMPT cfg)
    /\ JSON.text config.

(** The note: the summary, two newlines, the label with the serialized
    configuration, a newline, the marker. *)
Definition expectedNote (summary config marker : string) : string :=
  summary +:+ LF +:+ LF +:+ "Model-Configuration:" +:+ config +:+ LF +:+ marker.

(** The body of the request: an object with the one member [note], given
    the literal of the note. *)
Definition requestBody (noteLiteral : string) : string :=
  "{" +:+ quoted "note" +:+ ":" +:+ noteLiteral +:+ "}".

(** The request [r] posts the note composed from [summary]. *)
Definition postsNote (cfg : SummarizerConfiguration) (r : Request) (summary : string)
    : Prop :=
  exists config literal,
    serializesConfiguration cfg config
    /\ JSON.unquote literal = Some (expectedNote summary config (SUMMARY_MARKER cfg))
    /\ body r = Some (requestBody literal).

(** An integer that a double holds exactly and that is printed in decimal
    digits, or no number. *)
Definition safeInteger (n : option Z) : Prop :=
  match n with
  | Some z => -9007199254740992 < z < 9007199254740992
  | None => True
  end.

End NoteSpecification.

(** ** A runtime that answers from fixed tables, for concrete runs *)

Module Fixture.

Definition static (server : Request -> FetchOutcome)
    (generator : GenerateRequest -> Error + Stream)
    (writer : string -> option Error) : Runtime := {|
  World := unit;
  fetch r w := (server r, w);
  ollama_generate r w := (generator r, w);
  URL := string;
  URL_new s := if truthy s then Some s else None;
  URL_searchParams_append u k v := u +:+ "?" +:+ k +:+ "=" +:+ v;
  URL_href u := u;
  path_resolve p := p;
  path_join a b := a +:+ "/" +:+ b;
  fs_existsSync _ _ := true;
  fs_mkdirSync _ w := (None, w);
  fs_writeFileSync p _ w := (writer p, w);
  Number_ofString s := parseInt s (Some 10);
|}.

Definition respond (code : Z) (text : string) (b : JsonBody) : FetchOutcome :=
  Responded {| status := code; statusText := text; json := inr b |}.

Definition mkNote (i : Z) (text : option string) : PaperlessNote :=
  {| note_id := i; note := text; note_document := None; note_user := None |}.

Definition mkDoc (i : option Z) (ns : option (list PaperlessNote)) : PaperlessDocument :=
  {| content := None; created := None; id := i; title := None; notes := ns |}.

Definition notFound : FetchOutcome :=
  Responded {| status := 404; statusText := "Not Found"; json := inr JOther |}.

Definition noGenerator (r : GenerateRequest) : Error + Stream :=
  inl (newError "no generator").

Definition store0 `{Runtime} (w : World) : Store := {| world := w; headersObj := [] |}.

Definition defaults : SummarizerConfiguration := CONFIG ∅.

Definition base : string := "http://paperless.local/api".

Definition seed : string := base +:+ "/documents/?ordering=-id".
Definition page2 : string := base +:+ "/documents/?ordering=-id&page=2".
Definition page3 : string := base +:+ "/documents/?ordering=-id&page=3".

(** A listing of three pages. Document 8 carries a summary note among
    others, document 6 a note without text, one entry has no id. *)
Definition docs1 : list PaperlessDocument :=
  [ mkDoc (Some 9) None;
    mkDoc (Some 8) (Some [mkNote 1 (Some "scanned"); mkNote 2 (Some "text AI_SUMMARY {}")]);
    mkDoc None None ].
Definition docs2 : list PaperlessDocument :=
  [ mkDoc (Some 7) (Some []);
    mkDoc (Some 6) (Some [mkNote 3 None; mkNote 4 (Some "AI_SUMMAR")]) ].
Definition docs3 : list PaperlessDocument :=
  [ mkDoc (Some 5) (Some [mkNote 5 (Some "AI_SUMMARY")]);
    mkDoc (Some 4) None ].

Definition mkPage (docs : option (list PaperlessDocument)) (nextUrl : option string)
    : PaperlessSearchResult :=
  {| count := None; next := nextUrl; previous := None; all := None; results := docs |}.

Definition listing (r : Request) : FetchOutcome :=
  if String.eqb (url r) seed then respond 200 "OK" (JPage (mkPage (Some docs1) (Some page2)))
  else if String.eqb (url r) page2
  then respond 200 "OK" (JPage (mkPage (Some docs2) (Some page3)))
  else if String.eqb (url r) page3 then respond 200 "OK" (JPage (mkPage (Some docs3) None))
  else notFound.

(** The single documents: 9 is missing, 7 has no content, 6 an empty
    one; the others have a text. *)
Definition mkContent (i : Z) (text : option string) : Response :=
  {| status := 200; statusText := "OK";
     json := inr (JDocument {| content := text; created := None; id := Some i;
                               title := None; notes := None |}) |}.

Definition documentUrl (i : Z) : string :=
  base +:+ "/documents/" +:+ Number_toString i +:+ "/".

Definition notesUrl (i : Z) : string :=
  base +:+ "/documents/" +:+ Number_toString i +:+ "/notes/".

Definition single (r : Request) : FetchOutcome :=
  let u := url r in
  match method r with
  | GET =>
      if String.eqb u (documentUrl 42) then Responded (mkContent 42 (Some "hello world"))
      else if String.eqb u (documentUrl 7) then Responded (mkContent 7 None)
      else if String.eqb u (documentUrl 6) then Responded (mkContent 6 (Some ""))
      else if String.eqb u (documentUrl 4) then Responded (mkContent 4 (Some "broken"))
      else if String.eqb u (documentUrl 3) then Responded (mkContent 3 (Some "unpostable"))
      else if String.eqb u (documentUrl 2) then Responded (mkContent 2 (Some "unwritable"))
      else if String.eqb u (documentUrl 1) then Responded (mkContent 1 (Some "fine"))
      else listing r
  | POST =>
      if String.eqb u (notesUrl 3)
      then Responded {| status := 500; statusText := "Internal Server Error";
                        json := inr JOther |}
      else respond 201 "Created" JOther
  | DELETE => Responded {| status := 204; statusText := "No Content"; json := inr JOther |}
  end.

(** The generation service fails on the text of document 4 and answers
    everything else in two parts. *)
Definition generator (r : GenerateRequest) : Error + Stream :=
  if includes (prompt r) "broken"
  then inl {| name := "ResponseError"; message := "model runner has stopped" |}
  else inr {| parts := ["Sum"; "mary"]; failure := None |}.

(** The summary of document 2 cannot be written. *)
Definition writer (path : string) : option Error :=
  if String.eqb path "out/2_summary.txt"
  then Some {| name := "Error"; message := "EACCES: permission denied" |}
  else None.

Definition paperless : Runtime := static single generator writer.

Definition start : @Store paperless := @store0 paperless tt.

(** A listing whose first page points outside the service. *)
Definition evil : string := "https://evil.example/api/documents/?page=2".

Definition poisonedListing (r : Request) : FetchOutcome :=
  match method r with
  | GET =>
      if String.eqb (url r) seed
      then respond 200 "OK" (JPage (mkPage (Some docs1) (Some evil)))
      else if String.eqb (url r) evil
      then respond 200 "OK" (JPage (mkPage (Some [mkDoc (Some 666) None]) None))
      else notFound
  | _ => single r
  end.

Definition poisoned : Runtime := static poisonedListing generator writer.

(** A listing whose first page has no [results]. *)
Definition stuckListing (r : Request) : FetchOutcome :=
  if String.eqb (url r) seed
  then respond 200 "OK" (JPage (mkPage None (Some page2)))
  else listing r.

Definition stuck : Runtime := static stuckListing generator writer.

Definition processEnv : ProcessEnv :=
  {[ "PAPERLESS_TOKEN" := "secret"; "PAPERLESS_URL" := base ]}.

Definition environment : EnvConfig :=
  {| apiKey := "secret"; paperlessUrl := base;
     saveTxtSummary := Some 1; saveTxtPath := Some "out" |}.

End Fixture.

(** ** Notions the proofs speak in *)

Section Auxiliary.
Context `{Runtime}.
Variable cfg : SummarizerConfiguration.
Variable envConfig : EnvConfig.

(** Every event of the program satisfies [P]. *)
Definition emits_only {A} (P : Event -> Prop) (m : M A) : Prop :=
  forall s, Forall P (events (m s)).

(** The program does not run out of fuel. *)
Definition halts {A} (m : M A) : Prop :=
  forall s, outcome (m s) <> OutOfFuel.

(** The program returns: it neither throws nor runs out of fuel. *)
Definition returns {A} (m : M A) : Prop :=
  forall s, exists a, outcome (m s) = Return a.

(** The events [t], then the run [r]. *)
Definition after {A} (t : list Event) (r : Outcome A * Store * list Event)
    : Outcome A * Store * list Event :=
  (outcome r, final r, t ++ events r).

Definition generateRequest (text : string) : GenerateRequest :=
  {| model := MODEL_NAME cfg;
     prompt := SUMMARY_PROMPT cfg +:+ " " +:+ text;
     stream := true |}.

(** What [collectUnsummarized] keeps. *)
Definition kept (d : PaperlessDocument) : bool :=
  truthy (id d) &&
  (negb (truthy (notes d)) || negb (some (Index.noteHasMarker cfg) (nullish (notes d) []))).

(** The ids the scan collects over a sequence of pages. *)
Definition keptIds (pages : list PaperlessSearchResult) : list Z :=
  omap (fun d => if kept d then id d else None) (documentsOf pages).

(** The loop body for one id: what the handler adds to the events of the
    [try] block. *)
Definition handled (i : Z) (d : Outcome unit * Store * list Event) : list Event :=
  match outcome d with
  | Throw e => [EvError (ErrorProcessingDocument i e)]
  | _ => []
  end.

(** An event of the [try] block of one document. *)
Definition bodyEvent (e : Event) : Prop :=
  match e with
  | EvLog (ProcessingDocument _) => False
  | EvError (ErrorProcessingDocument _ _) => False
  | _ => True
  end.

(** The requests of the writer. *)
Definition documentRequest (i : Z) (h : Headers) : Request :=
  {| method := GET;
     url := paperlessUrl envConfig +:+ "/documents/" +:+ Number_toString i +:+ "/";
     headers := h; body := None; signal := false |}.

Definition noteRequest (u : string) (h : Headers) (text : string) : Request :=
  {| method := POST; url := u; headers := h; body := Some (noteBody text);
     signal := false |}.

(** The posts of a trace carry a note composed by [summaryNote]. *)
Definition postsSummaryNote (e : Event) : Prop :=
  match e with
  | EvFetch r =>
      method r = POST ->
      exists summary, body r = Some (noteBody (Index.summaryNote cfg summary))
  | _ => True
  end.


(** [page.next?.toString() || null] *)
Definition followUp (p : PaperlessSearchResult) : option string :=
  match next p with
  | Some u => if truthy u then Some u else None
  | None => None
  end.

End Auxiliary.

(** ** Notions for the further properties *)

Section Further.
Context `{Runtime}.
Variable cfg : SummarizerConfiguration.

(** The URL [deleteComment] and [postComment] build for a document. *)
Definition notesEndpoint (baseUrl : string) (documentId : option Z) : string :=
  baseUrl +:+ "/documents/" +:+ numberText documentId +:+ "/notes/".

(** The request [deleteComment] issues for a note, when the URL of the
    document's notes can be built. *)
Definition deletionRequest (baseUrl : string) (headers : Headers)
    (documentId : option Z) (noteId : Z) : option Request :=
  match URL_new (notesEndpoint baseUrl documentId) with
  | Some u =>
      Some {| method := DELETE;
              url := URL_href (URL_searchParams_append u "id" (Number_toString noteId));
              headers := headers; body := None; signal := false |}
  | None => None
  end.

(** The notes of a listed document the all-mode cleanup is after: those
    with the marker, of a document with an id and notes. *)
Definition summaryNotesOf (d : PaperlessDocument) : list PaperlessNote :=
  if truthy (id d) && truthy (notes d)
  then List.filter (Cleanup.isSummaryNote cfg) (nullish (notes d) [])
  else [].

Definition pageDeletions (baseUrl : string) (headers : Headers)
    (docs : list PaperlessDocument) : list Request :=
  flat_map
    (fun d => omap (fun n => deletionRequest baseUrl headers (id d) (note_id n))
                (summaryNotesOf d))
    docs.

(** The request that deletes the note [noteId] at the notes endpoint
    [endpoint] of a document. *)
Definition deletionAt (headers : Headers) (endpoint : URL) (noteId : Z) : Request :=
  {| method := DELETE;
     url := URL_href (URL_searchParams_append endpoint "id" (Number_toString noteId));
     headers := headers; body := None; signal := false |}.

(** The deletions on the documents of a page: one for each summary note,
    document after document, at the endpoint [notesUrl] gives for the
    document. *)
Definition crawlDeletions (notesUrl : option Z -> URL) (headers : Headers)
    (docs : list PaperlessDocument) : list Request :=
  flat_map
    (fun d => map (fun n => deletionAt headers (notesUrl (id d)) (note_id n))
                (summaryNotesOf d))
    docs.

(** The requests of the all-mode crawl over the pages [pages]: each page
    is asked for, then the deletions on it. *)
Definition crawlRequests (notesUrl : option Z -> URL) (headers : Headers)
    (pages : list (string * PaperlessSearchResult)) : list Request :=
  flat_map
    (fun p => pageRequest headers true p.1
              :: crawlDeletions notesUrl headers (nullish (results p.2) []))
    pages.

(** From world [w], the pages [pages] are served one after the other to
    the scan that starts at [url], each with its [results] and a non-empty
    [next]; [url'] is the [next] of the last one and [w'] the world then. *)
Inductive leads (headers : Headers) :
    World -> string -> list (string * PaperlessSearchResult) -> string -> World -> Prop :=
| leads_nil w url : leads headers w url [] url w
| leads_cons w url resp parsed w1 docs u rest url' w' :
    fetch (pageRequest headers false url) w = (Responded resp, w1) ->
    ok resp = true ->
    json resp = inr parsed ->
    results (as_page parsed) = Some docs ->
    next (as_page parsed) = Some u ->
    u <> "" ->
    leads headers w1 u rest url' w' ->
    leads headers w url ((url, as_page parsed) :: rest) url' w'.

(** From store [s], the all-mode crawl that starts at [url] is served the
    pages [pages], each with its [results]; the documents of a page are
    cleaned before the next page is asked for, every [next] but the last
    starts with the base URL, and the last page has none. [s'] is the
    store at the end. *)
Inductive cleans (baseUrl : string) (headers : Headers) :
    Store -> string -> list (string * PaperlessSearchResult) -> Store -> Prop :=
| cleans_last s url resp parsed w1 docs :
    fetch (pageRequest headers true url) (world s) = (Responded resp, w1) ->
    ok resp = true ->
    json resp = inr parsed ->
    results (as_page parsed) = Some docs ->
    followUp (as_page parsed) = None ->
    cleans baseUrl headers s url [(url, as_page parsed)]
      (final (Cleanup.cleanDocuments cfg baseUrl headers docs
                {| world := w1; headersObj := headersObj s |}))
| cleans_next s url resp parsed w1 docs u rest s' :
    fetch (pageRequest headers true url) (world s) = (Responded resp, w1) ->
    ok resp = true ->
    json resp = inr parsed ->
    results (as_page parsed) = Some docs ->
    followUp (as_page parsed) = Some u ->
    startsWith u baseUrl = true ->
    cleans baseUrl headers
      (final (Cleanup.cleanDocuments cfg baseUrl headers docs
                {| world := w1; headersObj := headersObj s |}))
      u rest s' ->
    cleans baseUrl headers s url ((url, as_page parsed) :: rest) s'.

(** A program keeps the property [J] of the [Headers] object and emits
    only events with [P], when started with [J]. *)
Definition keeps {A} (J : Headers -> Prop) (P : Event -> Prop) (m : M A) : Prop :=
  forall s, J (headersObj s) ->
    J (headersObj (final (m s))) /\ Forall P (events (m s)).

(** When the program returns, the [Headers] object has the property [Q]. *)
Definition ensures {A} (Q : Headers -> Prop) (m : M A) : Prop :=
  forall s a, outcome (m s) = Return a -> Q (headersObj (final (m s))).

(** What the summarizer does to the service: it reads, and it posts notes. *)
Definition summarizerEvent (e : Event) : Prop :=
  match e with
  | EvFetch r =>
      (method r = GET /\ body r = None)
      \/ (method r = POST /\ exists text, body r = Some (noteBody text))
  | EvStdout _ => False
  | _ => True
  end.

(** What the cleanup tool does: it reads and it deletes, and it writes to
    the console. *)
Definition cleanupEvent (e : Event) : Prop :=
  match e with
  | EvFetch r => (method r = GET \/ method r = DELETE) /\ body r = None
  | EvLog _ | EvError _ => True
  | _ => False
  end.

(** No file output. *)
Definition noFileOutput (e : Event) : Prop :=
  match e with
  | EvMkdir _ | EvWriteFile _ _ => False
  | _ => True
  end.

(** The request carries the header [entry]. *)
Definition carries (entry : string * string) (e : Event) : Prop :=
  match e with
  | EvFetch r => In entry (headers r)
  | _ => True
  end.

End Further.

Section FurtherWriter.
Context `{Runtime}.
Variable cfg : SummarizerConfiguration.
Variable envConfig : EnvConfig.

(** The directory of the summaries and the file of a document. *)
Definition outputDirectory (savePath : option string) : string :=
  path_resolve (or_else savePath "").

Definition summaryFile (savePath : option string) (i : Z) : string :=
  path_join (outputDirectory savePath) (Number_toString i +:+ "_summary.txt").

(** What [saveSummaryToFile] does in the world [w], in terms of the
    file system: the outcome and the events. The directory is created
    when it is not there; when that fails nothing is written. *)
Definition fileOutput (i : Z) (summary : string) (savePath : option string)
    (w : World) : Outcome unit * list Event :=
  let dir := outputDirectory savePath in
  let file := summaryFile savePath i in
  let written (w : World) : Outcome unit :=
    match fs_writeFileSync file summary w with
    | (Some e, _) => Throw e
    | (None, _) => Return tt
    end in
  if fs_existsSync dir w then (written w, [EvWriteFile file summary])
  else
    match fs_mkdirSync dir w with
    | (Some e, _) => (Throw e, [EvMkdir dir])
    | (None, w') => (written w', [EvMkdir dir; EvWriteFile file summary])
    end.

End FurtherWriter.

(** ** More tables to run against *)

Module Bench.

Definition notes7 : list PaperlessNote :=
  [ Fixture.mkNote 1 (Some "AI_SUMMARY blah"); Fixture.mkNote 2 (Some "unrelated") ].

(** The notes of single documents: 7 has two, 5 answers with something
    that is no array, 3 cannot be deleted from; a second page of the
    listing that is out of order. *)
Definition service (r : Request) : FetchOutcome :=
  let u := url r in
  match method r with
  | GET =>
      if String.eqb u (Fixture.notesUrl 7) then Fixture.respond 200 "OK" (JNotes notes7)
      else if String.eqb u (Fixture.notesUrl 5) then Fixture.respond 200 "OK" JOther
      else if String.eqb u Fixture.seed
      then Fixture.respond 200 "OK"
             (JPage (Fixture.mkPage (Some Fixture.docs1) (Some Fixture.page2)))
      else if String.eqb u Fixture.page2
      then Responded {| status := 502; statusText := "Bad Gateway"; json := inr JOther |}
      else Fixture.notFound
  | POST => Fixture.respond 201 "Created" JOther
  | DELETE =>
      if String.eqb u (Fixture.notesUrl 3 +:+ "?id=1")
      then Responded {| status := 403; statusText := "Forbidden"; json := inr JOther |}
      else Responded {| status := 204; statusText := "No Content"; json := inr JOther |}
  end.

Definition desk : Runtime := Fixture.static service Fixture.generator Fixture.writer.

Definition start : @Store desk := @Fixture.store0 desk tt.

(** A listing that does not answer in time, and one whose body cannot be
    parsed. *)
Definition abortError : Error :=
  {| name := "AbortError"; message := "The operation was aborted." |}.

Definition slowService (r : Request) : FetchOutcome := Rejected abortError.

Definition slow : Runtime := Fixture.static slowService Fixture.generator Fixture.writer.

Definition syntaxError : Error :=
  {| name := "SyntaxError"; message := "Unexpected token < in JSON" |}.

Definition garbledService (r : Request) : FetchOutcome :=
  Responded {| status := 200; statusText := "OK"; json := inl syntaxError |}.

Definition garbled : Runtime :=
  Fixture.static garbledService Fixture.generator Fixture.writer.

(** A generation that breaks off after two parts. *)
Definition brokenStream (r : GenerateRequest) : Error + Stream :=
  inr {| parts := ["Sum"; "ma"];
         failure := Some {| name := "Error"; message := "socket hang up" |} |}.

Definition flaky : Runtime := Fixture.static Fixture.single brokenStream Fixture.writer.



(** A listing of one page with one document, which carries a note of the
    form the summarizer posts. *)
Definition postedNote : PaperlessNote :=
  Fixture.mkNote 2 (Some (expectedNote "Summary" "{}" "AI_SUMMARY")).

Definition summarized : PaperlessDocument :=
  Fixture.mkDoc (Some 8) (Some [Fixture.mkNote 1 (Some "scanned"); postedNote]).

Definition lonelyListing (r : Request) : FetchOutcome :=
  match method r with
  | GET =>
      if String.eqb (url r) Fixture.seed
      then Fixture.respond 200 "OK" (JPage (Fixture.mkPage (Some [summarized]) None))
      else Fixture.notFound
  | _ => Fixture.single r
  end.

Definition lonely : Runtime :=
  Fixture.static lonelyListing Fixture.generator Fixture.writer.

(** A platform whose [URL] constructor wants a scheme. *)
Definition strict : Runtime := {|
  World := unit;
  fetch r w := (service r, w);
  ollama_generate r w := (Fixture.generator r, w);
  URL := string;
  URL_new s := if startsWith s "http" then Some s else None;
  URL_searchParams_append u k v := u +:+ "?" +:+ k +:+ "=" +:+ v;
  URL_href u := u;
  path_resolve p := p;
  path_join a b := a +:+ "/" +:+ b;
  fs_existsSync _ _ := true;
  fs_mkdirSync _ w := (None, w);
  fs_writeFileSync p _ w := (Fixture.writer p, w);
  Number_ofString s := parseInt s (Some 10);
|}.

End Bench.

(** * Proofs *)

(** ** Strings *)

Lemma append_nil_l (s : string) : "" +:+ s = s.
Proof. reflexivity. Qed.

Lemma append_cons (c : ascii) (s t : string) : String c s +:+ t = String c (s +:+ t).
Proof. reflexivity. Qed.

Lemma append_nil_r (s : string) : s +:+ "" = s.
Proof.
  induction s as [|c s IH]; [reflexivity|]. now rewrite append_cons, IH.
Qed.

Lemma append_assoc (a b c : string) : (a +:+ b) +:+ c = a +:+ (b +:+ c).
Proof.
  induction a as [|x a IH]; [reflexivity|]. now rewrite !append_cons, IH.
Qed.

Lemma append_eq_nil (a b : string) : a +:+ b = "" -> a = "" /\ b = "".
Proof. destruct a; [auto | rewrite append_cons; discriminate]. Qed.

Lemma startsWith_spec (s p : string) :
  startsWith s p = true <-> exists t, s = p +:+ t.
Proof.
  revert s; induction p as [|c p IH]; intros s; simpl.
  - split; [intros _; now exists s | reflexivity].
  - destruct s as [|d s].
    + split; [discriminate | intros [t Ht]; discriminate].
    + rewrite andb_true_iff, Ascii.eqb_eq, IH. split.
      * intros [-> [t ->]]. now exists t.
      * intros [t Ht]. rewrite append_cons in Ht. injection Ht as -> ->. eauto.
Qed.

Lemma startsWith_app (p t : string) : startsWith (p +:+ t) p = true.
Proof. apply startsWith_spec. eauto. Qed.

(** [includes] is the substring test. *)
Lemma includes_spec (s m : string) :
  includes s m = true <-> substring_of m s.
Proof.
  unfold substring_of. induction s as [|c s IH]; simpl.
  - rewrite orb_false_r, startsWith_spec. split.
    + intros [t Ht]. exists "", t. exact Ht.
    + intros (a & b & Hab). symmetry in Hab.
      apply append_eq_nil in Hab as [-> Hmb].
      apply append_eq_nil in Hmb as [-> ->]. now exists "".
  - rewrite orb_true_iff, startsWith_spec, IH. split.
    + intros [[t Ht] | (a & b & Hab)].
      * exists "", t. exact Ht.
      * exists (String c a), b. rewrite append_cons. now rewrite Hab.
    + intros (a & b & Hab). destruct a as [|x a].
      * left. eauto.
      * right. rewrite append_cons in Hab. injection Hab as -> ->. eauto.
Qed.

Lemma truthy_Some {A} `{Truthy A} (a : A) : truthy (Some a) = truthy a.
Proof. reflexivity. Qed.

Lemma truthy_None {A} `{Truthy A} : truthy (@None A) = false.
Proof. reflexivity. Qed.

Lemma truthy_array_eq {A} (o : option (list A)) : truthy o = isArray o.
Proof. now destruct o. Qed.

Lemma join_app (l1 l2 : list string) : join (l1 ++ l2) = join l1 +:+ join l2.
Proof.
  induction l1 as [|x l1 IH]; simpl; [reflexivity|].
  now rewrite IH, append_assoc.
Qed.

(** ** Running programs *)

Section Running.
Context `{Runtime}.

Lemma bind_return {A B} (m : M A) (f : A -> M B) s a s1 t1 :
  m s = (Return a, s1, t1) ->
  bind m f s = (outcome (f a s1), final (f a s1), t1 ++ events (f a s1)).
Proof.
  intros Hm. unfold bind, outcome, final, events. rewrite Hm.
  now destruct (f a s1) as [[r s2] t2].
Qed.

Lemma bind_ret {A B} (a : A) (f : A -> M B) s : bind (ret a) f s = f a s.
Proof. unfold bind, ret. now destruct (f a s) as [[? ?] ?]. Qed.

Lemma bind_throw {A B} (m : M A) (f : A -> M B) s e s1 t1 :
  m s = (Throw e, s1, t1) -> bind m f s = (Throw e, s1, t1).
Proof. intros Hm. unfold bind. now rewrite Hm. Qed.

Lemma bind_out_of_fuel {A B} (m : M A) (f : A -> M B) s s1 t1 :
  m s = (OutOfFuel, s1, t1) -> bind m f s = (OutOfFuel, s1, t1).
Proof. intros Hm. unfold bind. now rewrite Hm. Qed.

Lemma run_eta {A} (r : Outcome A * Store * list Event) :
  r = (outcome r, final r, events r).
Proof. now destruct r as [[? ?] ?]. Qed.

(** A page request that is answered. *)
Lemma http_responded r s resp w' :
  fetch r (world s) = (Responded resp, w') ->
  http r s = (Return resp, {| world := w'; headersObj := headersObj s |}, [EvFetch r]).
Proof.
  intros Hf. unfold http, bind, emit, world_op. simpl. now rewrite Hf.
Qed.

Lemma http_rejected r s e w' :
  fetch r (world s) = (Rejected e, w') ->
  http r s = (Throw e, {| world := w'; headersObj := headersObj s |}, [EvFetch r]).
Proof.
  intros Hf. unfold http, bind, emit, world_op. simpl. now rewrite Hf.
Qed.

(** Whatever the platform answers, [http] emits the request and nothing
    else, and never runs out of fuel. *)
Lemma http_cases r s :
  (exists resp s', http r s = (Return resp, s', [EvFetch r])) \/
  (exists e s', http r s = (Throw e, s', [EvFetch r])).
Proof.
  destruct (fetch r (world s)) as [[e|resp] w'] eqn:Hf.
  - right. eexists _, _. exact (http_rejected _ _ _ _ Hf).
  - left. eexists _, _. exact (http_responded _ _ _ _ Hf).
Qed.

End Running.

(** ** The summary generator *)

Section Generator.
Context `{Runtime}.
Variable cfg : SummarizerConfiguration.

Lemma consume_complete display ps acc s :
  Index.consume display ps None acc s
  = (Return (acc +:+ join ps), s, if display then map EvStdout ps else []).
Proof.
  revert acc; induction ps as [|p ps IH]; intros acc; simpl.
  - now rewrite append_nil_r; destruct display.
  - unfold bind at 1. destruct display; simpl.
    all: rewrite IH, append_assoc; reflexivity.
Qed.

Lemma stdoutWrites_map ps : stdoutWrites (map EvStdout ps) = ps.
Proof. induction ps as [|p ps IH]; simpl; [reflexivity | now rewrite IH]. Qed.

Lemma summarizeText_complete text display s chunks w' :
  ollama_generate (generateRequest cfg text) (world s)
    = (inr {| parts := chunks; failure := None |}, w') ->
  Index.summarizeText cfg text display s
  = (Return (join chunks), {| world := w'; headersObj := headersObj s |},
     EvGenerate (generateRequest cfg text) :: (if display then map EvStdout chunks else [])).
Proof.
  intros Hg. unfold Index.summarizeText. fold (generateRequest cfg text).
  unfold bind at 1, emit. unfold bind at 1, world_op. simpl.
  rewrite Hg. simpl. rewrite consume_complete. reflexivity.
Qed.

End Generator.

(** ** The page scanner *)

Section Scanner.
Context `{Runtime}.
Variable cfg : SummarizerConfiguration.

Lemma bind_after {A B} (m : M A) (f : A -> M B) s a s1 t1 :
  m s = (Return a, s1, t1) -> bind m f s = after t1 (f a s1).
Proof. apply bind_return. Qed.

Lemma collectUnsummarized_spec docs acc :
  Index.collectUnsummarized cfg docs acc
  = acc ++ omap (fun d => if kept cfg d then id d else None) docs.
Proof.
  revert acc; induction docs as [|d docs IH]; intros acc; simpl.
  - now rewrite app_nil_r.
  - unfold kept at 1. destruct (id d) as [i|] eqn:Hid.
    + rewrite !truthy_Some. destruct (truthy i) eqn:Hi; simpl; [|apply IH].
      destruct (negb (truthy (notes d)) || _); simpl; [|apply IH].
      now rewrite IH, <- app_assoc.
    + rewrite !truthy_None. apply IH.
Qed.

(** One iteration of the scan on an answered request. *)
Lemma scanPages_step fuel headers url acc s resp parsed w1 :
  fetch (pageRequest headers false url) (world s) = (Responded resp, w1) ->
  ok resp = true ->
  json resp = inr parsed ->
  let s1 := {| world := w1; headersObj := headersObj s |} in
  let page := as_page parsed in
  let acc' := Index.collectUnsummarized cfg (nullish (results page) []) acc in
  Index.scanPages cfg (S fuel) headers url acc s
  = if negb (truthy (results page))
    then after [EvFetch (pageRequest headers false url)]
           (Index.scanPages cfg fuel headers url acc s1)
    else if negb (truthy (next page))
    then (Return acc', s1, [EvFetch (pageRequest headers false url)])
    else after [EvFetch (pageRequest headers false url);
                EvLog (PageProcessed (length acc') (nullish (next page) ""))]
           (Index.scanPages cfg fuel headers (nullish (next page) "") acc' s1).
Proof.
  intros Hf Hok Hj s1 page acc'. simpl.
  rewrite (bind_after _ _ _ _ _ _ (http_responded _ _ _ _ Hf)).
  rewrite Hok. simpl. unfold response_json. rewrite Hj.
  unfold bind at 1, ret at 1. fold s1 page.
  destruct (truthy (results page)); simpl.
  - fold acc'. destruct (truthy (next page)); simpl.
    + unfold bind at 1, console_log, emit.
      unfold after, outcome, final, events.
      now destruct (Index.scanPages _ _ _ _ _ _) as [[? ?] ?].
    + reflexivity.
  - unfold after, outcome, final, events.
    now destruct (Index.scanPages _ _ _ _ _ _) as [[? ?] ?].
Qed.

Lemma fetches_app t1 t2 : fetches (t1 ++ t2) = fetches t1 ++ fetches t2.
Proof. apply omap_app. Qed.

Lemma keptIds_cons p pages :
  keptIds cfg (p :: pages)
  = omap (fun d => if kept cfg d then id d else None) (nullish (results p) [])
    ++ keptIds cfg pages.
Proof. unfold keptIds, documentsOf. simpl. apply omap_app. Qed.

(** The scan over a served sequence of well-formed pages returns, and
    requests exactly the pages of the sequence. *)
Lemma scanPages_serves headers pages :
  forall url fuel acc s w',
    serves headers (world s) url pages w' ->
    Forall (fun up => isArray (results up.2) = true) pages ->
    (length pages <= fuel)%nat ->
    let r := Index.scanPages cfg fuel headers url acc s in
    outcome r = Return (acc ++ keptIds cfg pages.*2)
    /\ final r = {| world := w'; headersObj := headersObj s |}
    /\ fetches (events r) = map (pageRequest headers false) pages.*1.
Proof.
  induction pages as [|[u p] pages IH]; intros url fuel acc s w' Hs Hres Hfuel;
    [inversion Hs|].
  destruct fuel as [|fuel]; [simpl in Hfuel; lia|].
  apply Forall_cons in Hres as [Hp Hres]. simpl in Hp.
  assert (Htr : truthy (results p) = true).
  { destruct (results p); [reflexivity | discriminate]. }
  inversion Hs as [w url0 resp parsed w0 Hf Hok Hj Hn
                  |w url0 resp parsed w1 u' rest w0 Hf Hok Hj Hn Hu Hrest]; subst.
  - cbv zeta. rewrite (scanPages_step _ _ _ _ _ _ _ _ Hf Hok Hj).
    rewrite Htr, Hn. simpl. rewrite collectUnsummarized_spec.
    unfold keptIds, documentsOf. simpl. rewrite app_nil_r. auto.
  - cbv zeta. rewrite (scanPages_step _ _ _ _ _ _ _ _ Hf Hok Hj).
    rewrite Htr, Hn, truthy_Some, Hu. simpl.
    specialize (IH u' fuel
      (Index.collectUnsummarized cfg (nullish (results (as_page parsed)) []) acc)
      {| world := w1; headersObj := headersObj s |} w' Hrest Hres).
    simpl in Hfuel. specialize (IH ltac:(lia)).
    cbv zeta in IH. destruct IH as (Ho & Hfin & Hfe).
    unfold after. simpl. split; [|split].
    + rewrite Ho, collectUnsummarized_spec, keptIds_cons, app_assoc. reflexivity.
    + rewrite Hfin. reflexivity.
    + rewrite Hfe. reflexivity.
Qed.

End Scanner.

(** ** The classification the specification asks for is the one the scan
    computes *)

#[export] Instance substring_of_dec (m t : string) : Decision (substring_of m t).
Proof.
  destruct (includes t m) eqn:Hi.
  - left. now apply includes_spec.
  - right. intros Hs. apply includes_spec in Hs. congruence.
Defined.

Section Classification.
Context `{Runtime}.
Variable cfg : SummarizerConfiguration.

Lemma noteHasMarker_spec n :
  Index.noteHasMarker cfg n = true
  <-> exists text, note n = Some text /\ substring_of (SUMMARY_MARKER cfg) text.
Proof.
  unfold Index.noteHasMarker. destruct (note n) as [text|].
  - rewrite includes_spec. split; [eauto|]. now intros (t & [= <-] & Ht).
  - split; [discriminate | now intros (t & Ht & _)].
Qed.

Lemma some_noteHasMarker_spec d :
  some (Index.noteHasMarker cfg) (nullish (notes d) []) = true
  <-> has_summary_note (SUMMARY_MARKER cfg) d.
Proof.
  unfold some, has_summary_note. rewrite existsb_exists. split.
  - intros (n & Hin & Hn). apply noteHasMarker_spec in Hn as (text & Ht & Hs).
    destruct (notes d) as [l|]; [|destruct Hin]. exists l, n, text. auto.
  - intros (l & n & text & Hl & Hin & Ht & Hs). rewrite Hl. exists n. split; [exact Hin|].
    apply noteHasMarker_spec. eauto.
Qed.

#[export] Instance has_summary_note_dec d :
  Decision (has_summary_note (SUMMARY_MARKER cfg) d).
Proof.
  destruct (some (Index.noteHasMarker cfg) (nullish (notes d) [])) eqn:Hs.
  - left. now apply some_noteHasMarker_spec.
  - right. intros Hn. apply some_noteHasMarker_spec in Hn. congruence.
Defined.

#[export] Instance unsummarized_dec d : Decision (unsummarized (SUMMARY_MARKER cfg) d).
Proof. unfold unsummarized. apply _. Defined.

Lemma kept_spec d :
  id d <> Some 0 -> kept cfg d = true <-> unsummarized (SUMMARY_MARKER cfg) d.
Proof.
  intros Hid. unfold kept, unsummarized.
  rewrite andb_true_iff, orb_true_iff, !negb_true_iff.
  assert (Hid' : truthy (id d) = true <-> is_Some (id d)).
  { destruct (id d) as [i|]; simpl.
    - rewrite truthy_Some. unfold truthy, truthy_number.
      rewrite negb_true_iff, Z.eqb_neq. split; [eauto | intros _ ->; now apply Hid].
    - rewrite truthy_None. split; [discriminate | intros [? ?]; discriminate]. }
  rewrite Hid', <- some_noteHasMarker_spec.
  split; intros [Hi Hn]; split; try exact Hi.
  - destruct Hn as [Hn | Hn]; [|congruence].
    destruct (notes d); [discriminate|]. simpl. discriminate.
  - right. now apply not_true_is_false.
Qed.

Lemma keptIds_spec pages :
  Forall (fun d => id d <> Some 0) (documentsOf pages) ->
  keptIds cfg pages
  = omap id (filter (unsummarized (SUMMARY_MARKER cfg)) (documentsOf pages)).
Proof.
  unfold keptIds. induction (documentsOf pages) as [|d docs IH]; intros Hids;
    [reflexivity|].
  apply Forall_cons in Hids as [Hd Hids]. rewrite filter_cons. simpl.
  destruct (decide (unsummarized (SUMMARY_MARKER cfg) d)) as [Hu | Hu].
  - rewrite (proj2 (kept_spec d Hd) Hu). simpl.
    destruct (id d); [f_equal|]; exact (IH Hids).
  - destruct (kept cfg d) eqn:Hk; [apply (kept_spec d Hd) in Hk; contradiction|].
    exact (IH Hids).
Qed.

End Classification.

(** C1. For every finite sequence of listing pages served to the crawl,
    each with its [results] and with document ids that are not 0, the
    unsummarized-scan [processDocumentPages] returns exactly the ids, in
    crawl order, of the documents that have an id and no note whose text
    contains the marker as a substring. A document with a note that
    contains the marker is not among the documents returned, and neither is
    a document without an id. *)
Theorem scan_returns_unsummarized_ids `{Runtime} (cfg : SummarizerConfiguration)
    (baseUrl : string) (headers : Headers) (s : Store)
    (pages : list (string * PaperlessSearchResult)) (w' : World) (fuel : nat) :
  serves headers (world s) (baseUrl +:+ "/documents/?ordering=-id") pages w' ->
  Forall (fun p => is_Some (results p)) pages.*2 ->
  Forall (fun d => id d <> Some 0) (documentsOf pages.*2) ->
  (length pages <= fuel)%nat ->
  let marker := SUMMARY_MARKER cfg in
  let returned := filter (unsummarized marker) (documentsOf pages.*2) in
  outcome (Index.processDocumentPages cfg fuel baseUrl headers s) = Return (omap id returned)
  /\ (forall d, has_summary_note marker d -> d ∉ returned)
  /\ (forall d, id d = None -> d ∉ returned)
  /\ (forall d, d ∈ documentsOf pages.*2 -> is_Some (id d) ->
        (notes d = None \/ ~ has_summary_note marker d) -> d ∈ returned).
Proof.
  intros Hs Hres Hids Hfuel marker returned.
  assert (Hres' : Forall (fun up : string * PaperlessSearchResult =>
                            isArray (results up.2) = true) pages).
  { apply Forall_forall. intros [u p] Hin. simpl.
    rewrite Forall_forall in Hres. destruct (Hres p) as [l Hl].
    - apply list_elem_of_fmap. now exists (u, p).
    - now rewrite Hl. }
  destruct (scanPages_serves cfg headers pages _ fuel [] s w' Hs Hres' Hfuel)
    as (Ho & _ & _).
  split; [|split; [|split]].
  - unfold Index.processDocumentPages. rewrite Ho. simpl.
    now rewrite keptIds_spec.
  - intros d Hn Hin. apply list_elem_of_filter in Hin as [[_ Hu] _]. contradiction.
  - intros d Hn Hin. apply list_elem_of_filter in Hin as [[[i Hi] _] _]. congruence.
  - intros d Hin Hi Hn. apply list_elem_of_filter. split; [|exact Hin].
    split; [exact Hi|]. destruct Hn as [Hn | Hn]; [|exact Hn].
    intros (l & n & text & Hl & _). congruence.
Qed.

Lemma scan_returns_unsummarized_ids_witness :
  outcome (@Index.processDocumentPages Fixture.paperless Fixture.defaults 3
             Fixture.base [] Fixture.start)
  = Return [9; 7; 6; 4].
Proof.
  pose proof (@scan_returns_unsummarized_ids Fixture.paperless Fixture.defaults
                Fixture.base [] Fixture.start
                [ (Fixture.seed, Fixture.mkPage (Some Fixture.docs1) (Some Fixture.page2));
                  (Fixture.page2, Fixture.mkPage (Some Fixture.docs2) (Some Fixture.page3));
                  (Fixture.page3, Fixture.mkPage (Some Fixture.docs3) None) ]
                tt 3%nat) as Hscan.
  destruct Hscan as [Ho _].
  - eapply (@serves_next Fixture.paperless) with (parsed := JPage _); try reflexivity.
    eapply (@serves_next Fixture.paperless) with (parsed := JPage _); try reflexivity.
    eapply (@serves_last Fixture.paperless) with (parsed := JPage _); reflexivity.
  - repeat constructor; eexists; reflexivity.
  - repeat constructor; discriminate.
  - simpl; lia.
  - rewrite Ho. vm_compute. reflexivity.
Defined.

(** C5. Given three well-formed pages P1, P2, P3 linked by their [next]
    fields, of which only P3 has none, the unsummarized-scan issues exactly
    three page requests, for P1, P2 and P3 in that order, and returns the
    ids of the qualifying documents of P1, then those of P2, then those of
    P3, each in the order of the page's [results]. *)
Theorem scan_three_pages `{Runtime} (cfg : SummarizerConfiguration) (baseUrl : string)
    (headers : Headers) (s : Store) (p1 p2 p3 : PaperlessSearchResult)
    (u2 u3 : string) (w1 w2 w3 : World) (fuel : nat) :
  let u1 := baseUrl +:+ "/documents/?ordering=-id" in
  answers headers (world s) u1 p1 w1 -> next p1 = Some u2 -> u2 <> "" ->
  answers headers w1 u2 p2 w2 -> next p2 = Some u3 -> u3 <> "" ->
  answers headers w2 u3 p3 w3 -> next p3 = None ->
  Forall (fun p => is_Some (results p)) [p1; p2; p3] ->
  Forall (fun d => id d <> Some 0) (documentsOf [p1; p2; p3]) ->
  (3 <= fuel)%nat ->
  let r := Index.processDocumentPages cfg fuel baseUrl headers s in
  let qualifying p :=
    omap id (filter (unsummarized (SUMMARY_MARKER cfg)) (nullish (results p) [])) in
  fetches (events r)
    = [pageRequest headers false u1; pageRequest headers false u2;
       pageRequest headers false u3]
  /\ outcome r = Return (qualifying p1 ++ qualifying p2 ++ qualifying p3).
Proof.
  intros u1 (r1 & Hf1 & Hok1 & Hj1) Hn1 Hu2 (r2 & Hf2 & Hok2 & Hj2) Hn2 Hu3
    (r3 & Hf3 & Hok3 & Hj3) Hn3 Hres Hids Hfuel r qualifying.
  assert (Ht : forall u : string, u <> "" -> truthy u = true).
  { intros [|c u] Hu; [contradiction | reflexivity]. }
  assert (Hs : serves headers (world s) u1 [(u1, p1); (u2, p2); (u3, p3)] w3).
  { eapply serves_next with (parsed := JPage p1); eauto.
    eapply serves_next with (parsed := JPage p2); eauto.
    eapply serves_last with (parsed := JPage p3); eauto.
    simpl. now rewrite Hn3. }
  assert (Hres' : Forall (fun up : string * PaperlessSearchResult =>
                            isArray (results up.2) = true)
                         [(u1, p1); (u2, p2); (u3, p3)]).
  { apply Forall_forall. intros [u p] Hin. simpl.
    rewrite Forall_forall in Hres. destruct (Hres p) as [l Hl].
    - apply (list_elem_of_fmap_2 snd) in Hin. exact Hin.
    - now rewrite Hl. }
  destruct (scanPages_serves cfg headers _ u1 fuel [] s w3 Hs Hres' Hfuel)
    as (Ho & _ & Hfe).
  split; [exact Hfe|].
  subst r. unfold Index.processDocumentPages. fold u1. rewrite Ho. simpl.
  rewrite keptIds_spec by exact Hids.
  unfold documentsOf, qualifying. simpl.
  now rewrite app_nil_r, !filter_app, !omap_app.
Qed.

Lemma scan_three_pages_witness :
  let r := @Index.processDocumentPages Fixture.paperless Fixture.defaults 3
             Fixture.base [] Fixture.start in
  map url (fetches (events r)) = [Fixture.seed; Fixture.page2; Fixture.page3]
  /\ outcome r = Return ([9] ++ [7; 6] ++ [4]).
Proof.
  pose proof (@scan_three_pages Fixture.paperless Fixture.defaults Fixture.base []
                Fixture.start
                (Fixture.mkPage (Some Fixture.docs1) (Some Fixture.page2))
                (Fixture.mkPage (Some Fixture.docs2) (Some Fixture.page3))
                (Fixture.mkPage (Some Fixture.docs3) None)
                Fixture.page2 Fixture.page3 tt tt tt 3%nat) as Hscan.
  destruct Hscan as [Hfe Ho].
  - eexists; repeat split; reflexivity.
  - reflexivity.
  - discriminate.
  - eexists; repeat split; reflexivity.
  - reflexivity.
  - discriminate.
  - eexists; repeat split; reflexivity.
  - reflexivity.
  - repeat constructor; eexists; reflexivity.
  - repeat constructor; discriminate.
  - lia.
  - intros r. subst r. rewrite Hfe, Ho. split; vm_compute; reflexivity.
Defined.

(** C8. For every finite sequence of chunks the generation stream yields,
    [summarizeText] returns their concatenation in arrival order, for
    [display = true] and for [display = false] alike, and leaves the same
    store. With [display] each chunk is also written to standard output, in
    order; without it nothing is written. *)
Theorem summarizeText_concatenates_chunks `{Runtime} (cfg : SummarizerConfiguration)
    (text : string) (s : Store) (chunks : list string) (w' : World) :
  ollama_generate (generateRequest cfg text) (world s)
    = (inr {| parts := chunks; failure := None |}, w') ->
  let shown := Index.summarizeText cfg text true s in
  let silent := Index.summarizeText cfg text false s in
  outcome shown = Return (join chunks)
  /\ outcome silent = Return (join chunks)
  /\ final shown = final silent
  /\ events shown = events silent ++ map EvStdout chunks
  /\ stdoutWrites (events shown) = chunks
  /\ stdoutWrites (events silent) = [].
Proof.
  intros Hg shown silent. subst shown silent.
  rewrite !(summarizeText_complete cfg text _ s chunks w' Hg).
  repeat split. apply (stdoutWrites_map chunks).
Qed.

Lemma summarizeText_concatenates_chunks_witness :
  let gen := fun _ : GenerateRequest =>
               inr {| parts := ["ab"; "ab"; ""; "c"]; failure := None |} in
  let R := Fixture.static Fixture.listing gen Fixture.writer in
  outcome (@Index.summarizeText R Fixture.defaults "hello" true (@Fixture.store0 R tt))
  = Return "ababc".
Proof.
  intros gen R.
  destruct (@summarizeText_concatenates_chunks R Fixture.defaults "hello"
              (@Fixture.store0 R tt) ["ab"; "ab"; ""; "c"] tt eq_refl) as [Ho _].
  exact Ho.
Defined.

(** ** Properties of programs, built up along their structure *)

Section ProgramLogic.
Context `{Runtime}.

Lemma returns_halts {A} (m : M A) : returns m -> halts m.
Proof. intros Hm s. destruct (Hm s) as [a Ha]. rewrite Ha. discriminate. Qed.

Section Events.
Variable P : Event -> Prop.

Lemma emits_ret {A} (a : A) : emits_only P (ret a).
Proof. intros s. constructor. Qed.

Lemma emits_throw {A} e : emits_only P (@throw _ A e).
Proof. intros s. constructor. Qed.

Lemma emits_diverge {A} : emits_only P (@diverge _ A).
Proof. intros s. constructor. Qed.

Lemma emits_emit e : P e -> emits_only P (emit e).
Proof. intros He s. repeat constructor. exact He. Qed.

Lemma emits_world_op {A} (f : World -> (Error + A) * World) :
  emits_only P (world_op f).
Proof.
  intros s. unfold world_op, events.
  destruct (f (world s)) as [[e|a] w]; constructor.
Qed.

Lemma emits_world_read {A} (f : World -> A) : emits_only P (world_read f).
Proof. intros s. constructor. Qed.

Lemma emits_readHeaders : emits_only P readHeaders.
Proof. intros s. constructor. Qed.

Lemma emits_writeHeaders h : emits_only P (writeHeaders h).
Proof. intros s. constructor. Qed.

Lemma emits_bind {A B} (m : M A) (f : A -> M B) :
  emits_only P m -> (forall a, emits_only P (f a)) -> emits_only P (bind m f).
Proof.
  intros Hm Hf s. specialize (Hm s). unfold bind, events in *.
  destruct (m s) as [[[a| e |] s1] t1]; simpl in *; try exact Hm.
  specialize (Hf a s1). unfold events in Hf.
  destruct (f a s1) as [[r s2] t2]. simpl in *. now apply Forall_app.
Qed.

Lemma emits_try_catch {A} (m : M A) (h : Error -> M A) :
  emits_only P m -> (forall e, emits_only P (h e)) -> emits_only P (try_catch m h).
Proof.
  intros Hm Hh s. specialize (Hm s). unfold try_catch, events in *.
  destruct (m s) as [[[a| e |] s1] t1]; simpl in *; try exact Hm.
  specialize (Hh e s1). unfold events in Hh.
  destruct (h e s1) as [[r s2] t2]. simpl in *. now apply Forall_app.
Qed.

End Events.

Lemma halts_ret {A} (a : A) : halts (ret a).
Proof. intros s. discriminate. Qed.

Lemma halts_throw {A} e : halts (@throw _ A e).
Proof. intros s. discriminate. Qed.

Lemma halts_emit e : halts (emit e).
Proof. intros s. discriminate. Qed.

Lemma halts_world_op {A} (f : World -> (Error + A) * World) : halts (world_op f).
Proof.
  intros s. unfold world_op, outcome.
  destruct (f (world s)) as [[e|a] w]; discriminate.
Qed.

Lemma halts_world_read {A} (f : World -> A) : halts (world_read f).
Proof. intros s. discriminate. Qed.

Lemma halts_readHeaders : halts readHeaders.
Proof. intros s. discriminate. Qed.

Lemma halts_writeHeaders h : halts (writeHeaders h).
Proof. intros s. discriminate. Qed.

Lemma halts_bind {A B} (m : M A) (f : A -> M B) :
  halts m -> (forall a, halts (f a)) -> halts (bind m f).
Proof.
  intros Hm Hf s. specialize (Hm s). unfold bind, outcome in *.
  destruct (m s) as [[[a| e |] s1] t1]; simpl in *; try discriminate; try contradiction.
  specialize (Hf a s1). unfold outcome in Hf.
  destruct (f a s1) as [[r s2] t2]. exact Hf.
Qed.

Lemma halts_try_catch {A} (m : M A) (h : Error -> M A) :
  halts m -> (forall e, halts (h e)) -> halts (try_catch m h).
Proof.
  intros Hm Hh s. specialize (Hm s). unfold try_catch, outcome in *.
  destruct (m s) as [[[a| e |] s1] t1]; simpl in *; try discriminate; try contradiction.
  specialize (Hh e s1). unfold outcome in Hh.
  destruct (h e s1) as [[r s2] t2]. exact Hh.
Qed.

Lemma returns_ret {A} (a : A) : returns (ret a).
Proof. intros s. now exists a. Qed.

Lemma returns_emit e : returns (emit e).
Proof. intros s. now exists tt. Qed.

Lemma returns_bind {A B} (m : M A) (f : A -> M B) :
  returns m -> (forall a, returns (f a)) -> returns (bind m f).
Proof.
  intros Hm Hf s. destruct (Hm s) as [a Ha]. unfold bind, outcome in *.
  destruct (m s) as [[r s1] t1]. simpl in Ha. subst r.
  destruct (Hf a s1) as [b Hb]. unfold outcome in Hb.
  destruct (f a s1) as [[r s2] t2]. now exists b.
Qed.

(** A [try] whose handler returns cannot fail. *)
Lemma returns_try_catch {A} (m : M A) (h : Error -> M A) :
  halts m -> (forall e, returns (h e)) -> returns (try_catch m h).
Proof.
  intros Hm Hh s. specialize (Hm s). unfold try_catch, outcome in *.
  destruct (m s) as [[[a| e |] s1] t1]; simpl in *; try contradiction.
  - now exists a.
  - destruct (Hh e s1) as [b Hb]. unfold outcome in Hb.
    destruct (h e s1) as [[r s2] t2]. now exists b.
Qed.

Lemma halts_http r : halts (http r).
Proof. apply halts_bind; [apply halts_emit | intros _; apply halts_world_op]. Qed.

Lemma emits_http P r : P (EvFetch r) -> emits_only P (http r).
Proof.
  intros Hr. apply emits_bind; [now apply emits_emit | intros _; apply emits_world_op].
Qed.

Lemma halts_response_json r : halts (response_json r).
Proof. unfold response_json. destruct (json r); [apply halts_throw | apply halts_ret]. Qed.

Lemma emits_response_json P r : emits_only P (response_json r).
Proof. unfold response_json. destruct (json r); [apply emits_throw | apply emits_ret]. Qed.

Lemma halts_newURL u : halts (newURL u).
Proof. unfold newURL. destruct (URL_new u); [apply halts_ret | apply halts_throw]. Qed.

Lemma emits_newURL P u : emits_only P (newURL u).
Proof. unfold newURL. destruct (URL_new u); [apply emits_ret | apply emits_throw]. Qed.

End ProgramLogic.

Create HintDb prog.

#[export] Hint Resolve halts_ret halts_throw halts_emit halts_world_op halts_world_read
  halts_readHeaders halts_writeHeaders halts_http halts_response_json halts_newURL
  returns_ret returns_emit : prog.
#[export] Hint Resolve emits_ret emits_throw emits_diverge emits_world_op emits_world_read
  emits_readHeaders emits_writeHeaders emits_response_json emits_newURL : prog.

(** Walks down the structure of a program, one combinator at a time. *)
Ltac prog_step :=
  match goal with
  | |- halts (bind _ _) => apply halts_bind; [|intros ?]
  | |- halts (try_catch _ _) => apply halts_try_catch; [|intros ?]
  | |- returns (bind _ _) => apply returns_bind; [|intros ?]
  | |- returns (try_catch _ _) => apply returns_try_catch; [|intros ?]
  | |- emits_only _ (bind _ _) => apply emits_bind; [|intros ?]
  | |- emits_only _ (try_catch _ _) => apply emits_try_catch; [|intros ?]
  | |- emits_only _ (emit _) => apply emits_emit
  | |- emits_only _ (console_log _) => apply emits_emit
  | |- emits_only _ (console_error _) => apply emits_emit
  | |- emits_only _ (http _) => apply emits_http
  | |- halts (console_log _) => apply halts_emit
  | |- halts (console_error _) => apply halts_emit
  | |- returns (console_log _) => apply returns_emit
  | |- returns (console_error _) => apply returns_emit
  | |- _ (if ?b then _ else _) => destruct b
  | |- _ (match ?x with _ => _ end) => destruct x
  | |- _ => solve [auto with prog]
  end.

Ltac prog := repeat prog_step.

(** ** The summary writer *)

Section Writer.
Context `{Runtime}.
Variable cfg : SummarizerConfiguration.
Variable envConfig : EnvConfig.

Lemma halts_consume display ps failure acc :
  halts (Index.consume display ps failure acc).
Proof. revert acc; induction ps as [|p ps IH]; intros acc; simpl; prog. Qed.

Lemma emits_consume P display ps failure acc :
  (forall s, P (EvStdout s)) ->
  emits_only P (Index.consume display ps failure acc).
Proof.
  intros HP. revert acc; induction ps as [|p ps IH]; intros acc; simpl; prog.
Qed.

Lemma halts_summarizeText text display : halts (Index.summarizeText cfg text display).
Proof. unfold Index.summarizeText. prog. apply halts_consume. Qed.

Lemma halts_fetchDocument u h : halts (fetchDocument u h).
Proof. unfold fetchDocument. prog. Qed.

Lemma halts_postComment b i h n : halts (postComment b i h n).
Proof. unfold postComment. prog. Qed.

Lemma halts_deleteComment b i n h : halts (deleteComment b i n h).
Proof. unfold deleteComment. prog. Qed.

Lemma halts_saveSummaryToFile i summary p : halts (saveSummaryToFile i summary p).
Proof. unfold saveSummaryToFile. prog. Qed.

Lemma halts_summarizeDocument i : halts (Index.summarizeDocument cfg envConfig i).
Proof.
  unfold Index.summarizeDocument. prog;
    auto using halts_fetchDocument, halts_summarizeText, halts_postComment,
      halts_saveSummaryToFile.
Qed.

(** The events of one document's [try] block: requests, the generation,
    the file output and the posting message, according to [P]. *)
Lemma emits_summarizeDocument (P : Event -> Prop) i :
  (forall r, method r <> POST -> P (EvFetch r)) ->
  (forall u h summary,
      P (EvFetch {| method := POST; url := u; headers := h;
                    body := Some (noteBody (Index.summaryNote cfg summary));
                    signal := false |})) ->
  (forall r, P (EvGenerate r)) ->
  (forall p, P (EvMkdir p)) ->
  (forall p d, P (EvWriteFile p d)) ->
  (forall s, P (EvStdout s)) ->
  P (EvLog (PostingSummary i)) ->
  emits_only P (Index.summarizeDocument cfg envConfig i).
Proof.
  intros Hget Hpost Hgen Hmk Hwr Hout Hlog.
  unfold Index.summarizeDocument, fetchDocument, Index.summarizeText, postComment,
    saveSummaryToFile.
  prog; auto using emits_consume; try (apply Hget; discriminate).
Qed.

Lemma summarizeAll_cons i ids s :
  let d := Index.summarizeDocument cfg envConfig i s in
  Index.summarizeAll cfg envConfig (i :: ids) s
  = after ([EvLog (ProcessingDocument i)] ++ events d ++ handled i d)
      (Index.summarizeAll cfg envConfig ids (final d)).
Proof.
  intros d. simpl. unfold bind at 1, console_log, emit.
  unfold bind at 1, try_catch, handled, after.
  pose proof (halts_summarizeDocument i s) as Hh. fold d in Hh |- *.
  unfold outcome, final, events in *.
  destruct d as [[[[]| e |] s1] t1]; simpl in *; try contradiction.
  - destruct (Index.summarizeAll _ _ _ _) as [[r s2] t2]. simpl.
    now rewrite app_nil_r.
  - unfold console_error, emit.
    destruct (Index.summarizeAll _ _ _ _) as [[r s2] t2]. reflexivity.
Qed.

Lemma summarizeAll_returns ids s :
  outcome (Index.summarizeAll cfg envConfig ids s) = Return tt.
Proof.
  revert s; induction ids as [|i ids IH]; intros s; [reflexivity|].
  rewrite summarizeAll_cons. apply IH.
Qed.

Lemma summarizeAll_app before rest s :
  let b := Index.summarizeAll cfg envConfig before s in
  Index.summarizeAll cfg envConfig (before ++ rest) s
  = after (events b) (Index.summarizeAll cfg envConfig rest (final b)).
Proof.
  revert s; induction before as [|i before IH]; intros s b.
  - simpl. unfold after. simpl. apply run_eta.
  - subst b. rewrite <- app_comm_cons, !summarizeAll_cons. cbv zeta.
    rewrite IH. unfold after. simpl. now rewrite !app_assoc.
Qed.

Lemma attempts_body t : Forall bodyEvent t -> attempts t = [] /\ failures t = [].
Proof.
  induction 1 as [|e t He _ [IH1 IH2]]; [split; reflexivity|].
  split; destruct e as [| | | | | [] | []]; simpl in He; try contradiction;
    try exact IH1; exact IH2.
Qed.

Lemma summarizeDocument_body i s :
  Forall bodyEvent (events (Index.summarizeDocument cfg envConfig i s)).
Proof. apply emits_summarizeDocument; simpl; auto. Qed.

Lemma attempts_app t1 t2 : attempts (t1 ++ t2) = attempts t1 ++ attempts t2.
Proof. apply omap_app. Qed.

Lemma failures_app t1 t2 : failures (t1 ++ t2) = failures t1 ++ failures t2.
Proof. apply omap_app. Qed.

Lemma summarizeAll_attempts ids s :
  attempts (events (Index.summarizeAll cfg envConfig ids s)) = ids.
Proof.
  revert s; induction ids as [|i ids IH]; intros s; [reflexivity|].
  rewrite summarizeAll_cons. cbv zeta. unfold after. simpl events.
  change (attempts (EvLog (ProcessingDocument i) :: ?t)) with (i :: attempts t).
  rewrite attempts_app, IH, attempts_app.
  destruct (attempts_body _ (summarizeDocument_body i s)) as [-> _].
  unfold handled. now destruct (outcome _).
Qed.

End Writer.

(** ** [JSON.stringify] produces JSON *)

Section JsonText.

Lemma pretty_N_char_digit x : JSON.isDigit (pretty_N_char x) = true.
Proof.
  destruct x as [|p]; [reflexivity|].
  do 4 (try destruct p as [p|p|]); reflexivity.
Qed.

Lemma pretty_N_char_nonzero x : (0 < x < 10)%N -> pretty_N_char x <> "0"%char.
Proof.
  intros Hx Hc. assert (x = 0%N); [|lia].
  apply pretty_N_char_inj; [lia | lia | exact Hc].
Qed.

(** The numeral of a positive number: a digit other than 0, then digits. *)
Lemma pretty_N_go_numeral x :
  forall s, JSON.digits s -> (0 < x)%N ->
  exists c t, pretty_N_go x s = String c t
              /\ JSON.isDigit c = true /\ c <> "0"%char /\ JSON.digits t.
Proof.
  induction (N.lt_wf_0 x) as [x _ IH]. intros s Hs Hx.
  rewrite pretty_N_go_step by exact Hx.
  destruct (N.eq_dec (x `div` 10)%N 0%N) as [Hq | Hq].
  - rewrite Hq, pretty_N_go_0. eexists _, _. split; [reflexivity|].
    split; [apply pretty_N_char_digit|]. split; [|exact Hs].
    apply pretty_N_char_nonzero. apply N.div_small_iff in Hq; [|lia].
    rewrite N.mod_small by exact Hq. lia.
  - apply IH.
    + apply N.div_lt; lia.
    + constructor; [apply pretty_N_char_digit | exact Hs].
    + now apply N.neq_0_lt_0.
Qed.

Lemma pretty_positive_int p : JSON.int_part (pretty (Npos p)).
Proof.
  unfold pretty, pretty_N. destruct (decide (N.pos p = 0%N)) as [Hp|_]; [lia|].
  destruct (pretty_N_go_numeral (N.pos p) "" JSON.digits_nil ltac:(lia))
    as (c & t & -> & Hc & Hz & Ht).
  now constructor.
Qed.

Lemma Number_toString_number n : JSON.number (Number_toString n).
Proof.
  unfold Number_toString, pretty, pretty_Z. destruct n as [|p|p].
  - apply (JSON.number_pos "0" "" ""); constructor.
  - rewrite <- (append_nil_r (pretty p)).
    apply (JSON.number_pos _ "" ""); [apply pretty_positive_int | constructor..].
  - rewrite <- (append_nil_r (pretty p)).
    apply (JSON.number_neg _ "" ""); [apply pretty_positive_int | constructor..].
Qed.

Lemma code_ascii_of_N n : (n < 256)%N -> code (ascii_of_N n) = n.
Proof. apply N_ascii_embedding. Qed.

Lemma hexDigit_hex n : (n < 16)%N -> JSON.isHexDigit (JSON.hexDigit n) = true.
Proof.
  intros Hn. unfold JSON.hexDigit, JSON.isHexDigit.
  destruct (n <? 10)%N eqn:H10.
  - apply N.ltb_lt in H10. rewrite code_ascii_of_N by lia.
    apply orb_true_iff; left. apply orb_true_iff; left.
    apply andb_true_iff; split; apply N.leb_le; lia.
  - apply N.ltb_ge in H10. rewrite code_ascii_of_N by lia.
    apply orb_true_iff; left. apply orb_true_iff; right.
    apply andb_true_iff; split; apply N.leb_le; lia.
Qed.

(** A quoted code unit, in front of string characters, is string
    characters. *)
Lemma quoteChar_chars c rest :
  JSON.chars rest -> JSON.chars (JSON.quoteChar c +:+ rest).
Proof.
  intros Hr. unfold JSON.quoteChar.
  destruct (code c =? 8)%N; [now apply JSON.chars_escape|].
  destruct (code c =? 9)%N; [now apply JSON.chars_escape|].
  destruct (code c =? 10)%N; [now apply JSON.chars_escape|].
  destruct (code c =? 12)%N; [now apply JSON.chars_escape|].
  destruct (code c =? 13)%N; [now apply JSON.chars_escape|].
  destruct (code c =? 34)%N eqn:Hquote; [now apply JSON.chars_escape|].
  destruct (code c =? 92)%N eqn:Hbackslash; [now apply JSON.chars_escape|].
  destruct (code c <? 32)%N eqn:Hlt.
  - apply N.ltb_lt in Hlt. unfold JSON.unicodeEscape. rewrite !append_cons.
    apply JSON.chars_unicode; try reflexivity; try exact Hr.
    + apply hexDigit_hex. apply N.Div0.div_lt_upper_bound. lia.
    + apply hexDigit_hex. apply N.mod_lt. lia.
  - apply N.ltb_ge in Hlt. apply JSON.chars_plain; [|exact Hr].
    unfold JSON.isUnescaped. rewrite Hquote, Hbackslash.
    rewrite (proj2 (N.leb_le _ _) Hlt). reflexivity.
Qed.

Lemma quoteChars_chars s : JSON.chars (JSON.quoteChars s).
Proof.
  induction s as [|c s IH]; simpl; [constructor | now apply quoteChar_chars].
Qed.

Lemma quote_string_lit s : JSON.string_lit (JSON.quote s).
Proof. constructor. apply quoteChars_chars. Qed.

(** Induction on values, with the members of an object. *)
Lemma Value_induction (P : JSON.Value -> Prop) :
  P JSON.Null ->
  (forall n, P (JSON.Number n)) ->
  (forall s, P (JSON.Str s)) ->
  (forall ms, Forall (fun m => P m.2) ms -> P (JSON.Object ms)) ->
  forall v, P v.
Proof.
  intros Hnull Hnum Hstr Hobj.
  fix IH 1. intros [| n | s | ms]; [exact Hnull | apply Hnum | apply Hstr |].
  apply Hobj. induction ms as [|[k x] ms IHms]; constructor; [apply IH | exact IHms].
Qed.

Lemma value_element v : JSON.value v -> JSON.element v.
Proof.
  intros Hv. rewrite <- (append_nil_r v).
  apply (JSON.element_intro "" v ""); [constructor | exact Hv | constructor].
Qed.

Lemma member_of k v : JSON.value v -> JSON.member (JSON.quote k +:+ ":" +:+ v).
Proof.
  intros Hv.
  apply (JSON.member_intro "" (JSON.quote k) "" v);
    [constructor | apply quote_string_lit | constructor | now apply value_element].
Qed.

Lemma joinMembers_members (ms : list (string * string)) :
  ms <> [] ->
  Forall (fun m => JSON.string_lit m.1 /\ JSON.value m.2) ms ->
  JSON.members (JSON.joinMembers ms).
Proof.
  induction ms as [|[k v] ms IH]; intros Hne Hms; [contradiction|].
  apply Forall_cons in Hms as [[Hk Hv] Hms]. simpl in Hk, Hv.
  assert (Hm : JSON.member (k +:+ ":" +:+ v)).
  { apply (JSON.member_intro "" k "" v);
      [constructor | exact Hk | constructor | now apply value_element]. }
  destruct ms as [|m ms]; [now apply JSON.members_one|].
  change (JSON.joinMembers ((k, v) :: m :: ms))
    with (k +:+ ":" +:+ v +:+ "," +:+ JSON.joinMembers (m :: ms)).
  replace (k +:+ ":" +:+ v +:+ "," +:+ JSON.joinMembers (m :: ms))
    with ((k +:+ ":" +:+ v) +:+ "," +:+ JSON.joinMembers (m :: ms))
    by now rewrite !append_assoc.
  apply JSON.members_more; [exact Hm | apply IH; [discriminate | exact Hms]].
Qed.

Theorem stringify_value v : JSON.value (JSON.stringify v).
Proof.
  induction v as [| n | s | ms IH] using Value_induction.
  - constructor.
  - apply JSON.value_number, Number_toString_number.
  - apply JSON.value_string, quote_string_lit.
  - cbn [JSON.stringify].
    destruct ms as [|m ms]; [apply (JSON.value_object_empty ""); constructor|].
    apply JSON.value_object, joinMembers_members; [discriminate|].
    apply Forall_fmap. eapply Forall_impl; [exact IH|].
    intros [k x] Hx. split; [apply quote_string_lit | exact Hx].
Qed.

(** [quote] writes a literal of the string: reading it back gives the
    string. *)
Lemma unquoteChars_quoteChar c rest :
  JSON.unquoteChars (JSON.quoteChar c +:+ rest)
  = option_map (String c) (JSON.unquoteChars rest).
Proof.
  destruct c as [[] [] [] [] [] [] [] []]; reflexivity.
Qed.

Lemma unquoteChars_quoteChars s :
  JSON.unquoteChars (JSON.quoteChars s +:+ String JSON.DQUOTE EmptyString) = Some s.
Proof.
  induction s as [|c s IH]; [reflexivity|].
  simpl JSON.quoteChars. rewrite append_assoc, unquoteChars_quoteChar, IH. reflexivity.
Qed.

Lemma unquote_quote s : JSON.unquote (JSON.quote s) = Some s.
Proof. apply unquoteChars_quoteChars. Qed.

End JsonText.

(** ** The note the writer posts *)

Section Note.
Context `{Runtime}.
Variable cfg : SummarizerConfiguration.
Variable envConfig : EnvConfig.

Lemma summarizeAll_posts ids :
  emits_only (postsSummaryNote cfg) (Index.summarizeAll cfg envConfig ids).
Proof.
  induction ids as [|i ids IH]; simpl; prog; simpl; auto.
  apply emits_summarizeDocument; simpl; eauto. intros r Hr Hp. contradiction.
Qed.

Lemma events_after {A} t (r : Outcome A * Store * list Event) :
  events (after t r) = t ++ events r.
Proof. reflexivity. Qed.

Lemma fetchDocument_answered u h s resp parsed w1 :
  fetch {| method := GET; url := u; headers := h; body := None; signal := false |}
    (world s) = (Responded resp, w1) ->
  ok resp = true ->
  json resp = inr parsed ->
  fetchDocument u h s
  = (Return parsed, {| world := w1; headersObj := headersObj s |},
     [EvFetch {| method := GET; url := u; headers := h; body := None;
                 signal := false |}]).
Proof.
  intros Hf Hok Hj. unfold fetchDocument.
  rewrite (bind_after _ _ _ _ _ _ (http_responded _ _ _ _ Hf)).
  rewrite Hok. simpl. unfold response_json. rewrite Hj. reflexivity.
Qed.

(** Once the URL of the notes is built, [postComment] issues its request
    first, whatever comes of it. *)
Lemma postComment_first {B} (k : JsonBody -> M B) baseUrl i h text s u :
  URL_new (baseUrl +:+ "/documents/" +:+ Number_toString i +:+ "/notes/") = Some u ->
  exists rest,
    events (bind (postComment baseUrl i h text) k s)
    = EvFetch (noteRequest (URL_href u) h text) :: rest.
Proof.
  intros Hu. unfold postComment, newURL. rewrite Hu.
  unfold bind at 1. rewrite bind_ret.
  fold (noteRequest (URL_href u) h text).
  set (r := noteRequest (URL_href u) h text).
  destruct (http_cases r s) as [(resp & s' & Hr) | (e & s' & Hr)].
  - rewrite (bind_after _ _ _ _ _ _ Hr). unfold after, outcome, final, events.
    destruct (if negb (ok resp) then _ else _) as [[[a| e |] s2] t2]; simpl.
    + destruct (k a s2) as [[? ?] ?]. simpl. eauto.
    + eauto.
    + eauto.
  - rewrite (bind_throw _ _ _ _ _ _ Hr). simpl. eauto.
Qed.

(** One document on the way to its note: fetched with a text, summarized
    by a stream that completes. *)
Lemma summarizeDocument_posts i s resp parsed w1 text chunks w2 u :
  fetch (documentRequest envConfig i (headersObj s)) (world s) = (Responded resp, w1) ->
  ok resp = true ->
  json resp = inr parsed ->
  content (as_document parsed) = Some text ->
  text <> "" ->
  ollama_generate (generateRequest cfg text) w1
    = (inr {| parts := chunks; failure := None |}, w2) ->
  URL_new (paperlessUrl envConfig +:+ "/documents/" +:+ Number_toString i +:+ "/notes/")
    = Some u ->
  exists rest,
    events (Index.summarizeDocument cfg envConfig i s)
    = [ EvFetch (documentRequest envConfig i (headersObj s));
        EvGenerate (generateRequest cfg text);
        EvLog (PostingSummary i);
        EvFetch (noteRequest (URL_href u)
                   (Headers_set "Content-Type" "application/json" (headersObj s))
                   (Index.summaryNote cfg (join chunks))) ] ++ rest.
Proof.
  intros Hf Hok Hj Hc Ht Hg Hu. unfold Index.summarizeDocument.
  rewrite (bind_after _ _ s (headersObj s) s []) by reflexivity.
  rewrite (bind_after _ _ _ _ _ _ (fetchDocument_answered _ _ _ _ _ _ Hf Hok Hj)).
  rewrite Hc. rewrite truthy_Some.
  assert (Htt : truthy text = true) by (destruct text; [contradiction | reflexivity]).
  rewrite Htt. change (negb true) with false. cbv iota.
  set (s1 := {| world := w1; headersObj := headersObj s |}).
  assert (Hg' : ollama_generate (generateRequest cfg (nullish (Some text) ""))
                  (world s1) = (inr {| parts := chunks; failure := None |}, w2))
    by exact Hg.
  rewrite (bind_after _ _ _ _ _ _ (summarizeText_complete cfg _ false s1 chunks w2 Hg')).
  set (s2 := {| world := w2; headersObj := headersObj s1 |}).
  rewrite (bind_after _ _ s2 (headersObj s2) s2 []) by reflexivity.
  set (h' := Headers_set "Content-Type" "application/json" (headersObj s2)).
  rewrite (bind_after _ _ s2 tt {| world := world s2; headersObj := h' |} [])
    by reflexivity.
  set (s3 := {| world := world s2; headersObj := h' |}).
  rewrite (bind_after _ _ s3 tt s3 [EvLog (PostingSummary i)]) by reflexivity.
  rewrite (bind_after _ _ s3 h' s3 []) by reflexivity.
  rewrite !events_after.
  destruct (postComment_first
              (fun _ => if truthy (saveTxtSummary envConfig)
                        then saveSummaryToFile i (join chunks) (saveTxtPath envConfig)
                        else ret tt)
              (paperlessUrl envConfig) i h' (Index.summaryNote cfg (join chunks)) s3 u Hu)
    as [rest Hrest].
  rewrite Hrest. exists rest. reflexivity.
Qed.

(** The parts of the note. *)
Lemma summaryNote_parts summary :
  Index.summaryNote cfg summary
  = summary +:+ LF +:+ LF +:+ "Model-Configuration:"
    +:+ JSON.stringify (CONFIG_value cfg) +:+ LF +:+ SUMMARY_MARKER cfg.
Proof. reflexivity. Qed.

(** The two serializations, spelled out. *)
Lemma noteBody_spelled note : noteBody note = requestBody (JSON.quote note).
Proof.
  unfold noteBody, requestBody. simpl JSON.stringify.
  rewrite !append_assoc. reflexivity.
Qed.

Lemma CONFIG_value_spelled :
  serializesConfiguration cfg (JSON.stringify (CONFIG_value cfg)).
Proof.
  exists (JSON.quote (MODEL_NAME cfg)), (JSON.quote (SUMMARY_MARKER cfg)),
    (JSON.quote (SUMMARY_PROMPT cfg)).
  split; [|rewrite !unquote_quote; do 3 (split; [reflexivity|]);
           apply value_element, stringify_value].
  unfold configurationText. simpl JSON.stringify.
  destruct (CONTEXT_LENGTH cfg); simpl JSON.stringify;
    rewrite !append_assoc; reflexivity.
Qed.

Lemma summaryNote_posted r summary :
  body r = Some (noteBody (Index.summaryNote cfg summary)) ->
  postsNote cfg r summary.
Proof.
  intros Hb. exists (JSON.stringify (CONFIG_value cfg)),
    (JSON.quote (Index.summaryNote cfg summary)).
  split; [apply CONFIG_value_spelled|]. split; [apply unquote_quote|].
  now rewrite Hb, noteBody_spelled.
Qed.

End Note.

(** C2. Every note the main loop posts is composed from a summary: the
    body of the request is an object whose one member [note] is a string
    literal, and the string it denotes is exactly the summary, two newlines,
    the label [Model-Configuration:], the serialized configuration, a
    newline and the marker. The serialized configuration is an object with
    the four settings in order, the context length as a numeral (or [null]),
    the others as literals of their values, and it is a JSON text. For a
    document fetched with a text and summarized by a stream that completes,
    the summary is the generated one, the concatenation of the chunks, and
    the note is the fourth effect of the block. So a posted note ends with
    the marker on a line of its own and contains the label followed by a
    JSON text, and with the chunks [Sum] and [mary] it starts with
    [Summary], two newlines and the label. The context length is taken to
    be a number a double holds exactly. *)
Theorem posted_note_composition `{Runtime} (cfg : SummarizerConfiguration)
    (envConfig : EnvConfig) :
  safeInteger (CONTEXT_LENGTH cfg) ->
  (forall ids s r,
      EvFetch r ∈ events (Index.summarizeAll cfg envConfig ids s) ->
      method r = POST ->
      exists summary, postsNote cfg r summary)
  /\ (forall i s resp parsed w1 text chunks w2 u,
        fetch (documentRequest envConfig i (headersObj s)) (world s) = (Responded resp, w1) ->
        ok resp = true ->
        json resp = inr parsed ->
        content (as_document parsed) = Some text ->
        text <> "" ->
        ollama_generate (generateRequest cfg text) w1
          = (inr {| parts := chunks; failure := None |}, w2) ->
        URL_new (paperlessUrl envConfig +:+ "/documents/" +:+ Number_toString i
                 +:+ "/notes/") = Some u ->
        exists r rest,
          events (Index.summarizeDocument cfg envConfig i s)
          = [ EvFetch (documentRequest envConfig i (headersObj s));
              EvGenerate (generateRequest cfg text);
              EvLog (PostingSummary i);
              EvFetch r ] ++ rest
          /\ method r = POST
          /\ url r = URL_href u
          /\ headers r = Headers_set "Content-Type" "application/json" (headersObj s)
          /\ postsNote cfg r (join chunks))
  /\ (forall r summary,
        postsNote cfg r summary ->
        exists literal note,
          body r = Some (requestBody literal)
          /\ JSON.unquote literal = Some note
          /\ (exists front, note = front +:+ LF +:+ SUMMARY_MARKER cfg)
          /\ (exists config rest,
                note = summary +:+ LF +:+ LF +:+ "Model-Configuration:" +:+ config +:+ rest
                /\ JSON.text config)
          /\ (summary = join ["Sum"; "mary"] ->
              startsWith note ("Summary" +:+ LF +:+ LF +:+ "Model-Configuration:") = true)).
Proof.
  intros _. split; [|split].
  - intros ids s r Hin Hpost.
    pose proof (summarizeAll_posts cfg envConfig ids s) as Hall.
    rewrite Forall_forall in Hall. destruct (Hall _ Hin Hpost) as [summary Hb].
    exists summary. now apply summaryNote_posted.
  - intros i s resp parsed w1 text chunks w2 u Hf Hok Hj Hc Ht Hg Hu.
    destruct (summarizeDocument_posts cfg envConfig i s resp parsed w1 text chunks w2 u
                Hf Hok Hj Hc Ht Hg Hu) as [rest Hev].
    eexists _, rest. split; [exact Hev|]. do 3 (split; [reflexivity|]).
    now apply summaryNote_posted.
  - intros r summary (config & literal & (model & marker & prompt & _ & _ & _ & _ & Htext)
                        & Hlit & Hbody).
    exists literal, (expectedNote summary config (SUMMARY_MARKER cfg)).
    split; [exact Hbody|]. split; [exact Hlit|]. split; [|split].
    + exists (summary +:+ LF +:+ LF +:+ "Model-Configuration:" +:+ config).
      unfold expectedNote. now rewrite !append_assoc.
    + exists config, (LF +:+ SUMMARY_MARKER cfg). split; [reflexivity | exact Htext].
    + intros ->. apply startsWith_spec.
      exists (config +:+ LF +:+ SUMMARY_MARKER cfg). reflexivity.
Qed.

Lemma posted_note_composition_witness :
  let t := events (@Index.summarizeDocument Fixture.paperless Fixture.defaults
                     Fixture.environment 42 Fixture.start) in
  let q := BS +:+ DQ in
  let nl := BS +:+ "n" in
  (exists r rest,
      t = [ EvFetch (documentRequest Fixture.environment 42 []);
            EvGenerate (generateRequest Fixture.defaults "hello world");
            EvLog (PostingSummary 42);
            EvFetch r ] ++ rest
      /\ method r = POST
      /\ url r = Fixture.notesUrl 42
      /\ postsNote Fixture.defaults r "Summary")
  /\ map body (filter (fun r => method r = POST) (fetches t))
     = [ Some ("{" +:+ DQ +:+ "note" +:+ DQ +:+ ":" +:+ DQ
               +:+ "Summary" +:+ nl +:+ nl +:+ "Model-Configuration:{"
               +:+ q +:+ "CONTEXT_LENGTH" +:+ q +:+ ":8096,"
               +:+ q +:+ "MODEL_NAME" +:+ q +:+ ":" +:+ q +:+ "llama3.2" +:+ q +:+ ","
               +:+ q +:+ "SUMMARY_MARKER" +:+ q +:+ ":" +:+ q +:+ "AI_SUMMARY" +:+ q +:+ ","
               +:+ q +:+ "SUMMARY_PROMPT" +:+ q +:+ ":" +:+ q
               +:+ "Summarize the given text: " +:+ q +:+ "}"
               +:+ nl +:+ "AI_SUMMARY" +:+ DQ +:+ "}") ].
Proof.
  intros t q nl.
  destruct (@posted_note_composition Fixture.paperless Fixture.defaults
              Fixture.environment) as (_ & Hdoc & _); [vm_compute; split; reflexivity|].
  split; [|vm_compute; reflexivity].
  destruct (Hdoc 42 Fixture.start (Fixture.mkContent 42 (Some "hello world"))
              (JDocument {| content := Some "hello world"; created := None; id := Some 42;
                            title := None; notes := None |})
              tt "hello world" ["Sum"; "mary"] tt (Fixture.notesUrl 42))
    as (r & rest & Hev & Hm & Hu & _ & Hn); try reflexivity; [discriminate|].
  exists r, rest. split; [exact Hev|]. split; [exact Hm|]. split; [exact Hu | exact Hn].
Defined.

(** C6. In the summarization loop, for every list of ids, an exception
    raised while one id is processed, at whatever step, is caught and logged
    with that id, and the loop goes on with the next id from the store the
    failed document left: the loop itself always returns, and every id is
    attempted, in order. A document whose content is absent or empty fails
    with an exception of its own, after its fetch and before any generation,
    and is handled like every other failure. *)
Theorem summarizeAll_isolates_failures `{Runtime} (cfg : SummarizerConfiguration)
    (envConfig : EnvConfig) (before : list Z) (i : Z) (rest : list Z) (s : Store) :
  let r := Index.summarizeAll cfg envConfig (before ++ i :: rest) s in
  let b := Index.summarizeAll cfg envConfig before s in
  let d := Index.summarizeDocument cfg envConfig i (final b) in
  let c := Index.summarizeAll cfg envConfig rest (final d) in
  outcome r = Return tt
  /\ attempts (events r) = before ++ i :: rest
  /\ events r
     = events b ++ [EvLog (ProcessingDocument i)] ++ events d
       ++ match outcome d with
          | Throw e => [EvError (ErrorProcessingDocument i e)]
          | _ => []
          end
       ++ events c
  /\ final r = final c
  /\ outcome d <> OutOfFuel
  /\ (forall resp parsed w1,
        fetch (documentRequest envConfig i (headersObj (final b))) (world (final b))
          = (Responded resp, w1) ->
        ok resp = true ->
        json resp = inr parsed ->
        truthy (content (as_document parsed)) = false ->
        outcome d = Throw (newError "Malformed document content. Skipping document.")
        /\ events d = [EvFetch (documentRequest envConfig i (headersObj (final b)))]).
Proof.
  intros r b d c. subst r.
  split; [apply summarizeAll_returns|].
  split; [apply summarizeAll_attempts|].
  rewrite summarizeAll_app. fold b. rewrite summarizeAll_cons. fold d c.
  split; [|split; [reflexivity|split; [apply halts_summarizeDocument|]]].
  - unfold after, handled. simpl. now rewrite <- !app_assoc.
  - intros resp parsed w1 Hf Hok Hj Hc. subst d. unfold Index.summarizeDocument.
    rewrite (bind_after _ _ (final b) (headersObj (final b)) (final b) []) by reflexivity.
    rewrite (bind_after _ _ _ _ _ _ (fetchDocument_answered _ _ _ _ _ _ Hf Hok Hj)).
    rewrite Hc. split; reflexivity.
Qed.

Lemma summarizeAll_isolates_failures_witness :
  let r := @Index.summarizeAll Fixture.paperless Fixture.defaults Fixture.environment
             [9; 7; 6; 4; 3; 2; 1] Fixture.start in
  outcome r = Return tt
  /\ attempts (events r) = [9; 7; 6; 4; 3; 2; 1]
  /\ (failures (events r)).*1 = [9; 7; 6; 4; 3; 2]
  /\ stdoutWrites (events r) = [].
Proof.
  destruct (@summarizeAll_isolates_failures Fixture.paperless Fixture.defaults
              Fixture.environment [9; 7; 6] 4 [3; 2; 1] Fixture.start)
    as (Ho & Ha & _).
  split; [exact Ho|]. split; [exact Ha|]. split; vm_compute; reflexivity.
Defined.

(** ** The cleanup crawl *)

Section CleanupCrawl.
Context `{Runtime}.
Variable cfg : SummarizerConfiguration.

Lemma returns_deleteSummaryNotes baseUrl headers documentId marked :
  returns (Cleanup.deleteSummaryNotes baseUrl headers documentId marked).
Proof.
  induction marked as [|n marked IH]; simpl; prog.
  apply halts_deleteComment.
Qed.

(** The deletions of a page never fail as a whole. *)
Lemma returns_cleanDocuments baseUrl headers docs :
  returns (Cleanup.cleanDocuments cfg baseUrl headers docs).
Proof.
  induction docs as [|d docs IH]; simpl; prog.
  apply returns_deleteSummaryNotes.
Qed.




Lemma cleanDocuments_run baseUrl headers docs s :
  Cleanup.cleanDocuments cfg baseUrl headers docs s
  = (Return tt, final (Cleanup.cleanDocuments cfg baseUrl headers docs s),
     events (Cleanup.cleanDocuments cfg baseUrl headers docs s)).
Proof.
  destruct (returns_cleanDocuments baseUrl headers docs s) as [[] Ha].
  rewrite <- Ha. apply run_eta.
Qed.

(** The [try] block on an answered page that has its [results]. *)
Lemma cleanPage_results baseUrl headers pageUrl s resp parsed w1 docs :
  fetch (pageRequest headers true pageUrl) (world s) = (Responded resp, w1) ->
  ok resp = true ->
  json resp = inr parsed ->
  results (as_page parsed) = Some docs ->
  let page := as_page parsed in
  let del := Cleanup.cleanDocuments cfg baseUrl headers docs
               {| world := w1; headersObj := headersObj s |} in
  Cleanup.cleanPage cfg baseUrl headers pageUrl s
  = if truthy (followUp page) && negb (startsWith (nullish (followUp page) "") baseUrl)
    then (Return Cleanup.Break, final del,
          [EvFetch (pageRequest headers true pageUrl)] ++ events del
          ++ [EvError (InvalidNextPageUrl (nullish (followUp page) ""))])
    else (Return (Cleanup.Continue (followUp page)), final del,
          [EvFetch (pageRequest headers true pageUrl)] ++ events del
          ++ [EvLog (CleanupPageProcessed (next page))]).
Proof.
  intros Hf Hok Hj Hres page del. subst page. unfold Cleanup.cleanPage.
  rewrite (bind_after _ _ _ _ _ _ (http_responded _ _ _ _ Hf)).
  rewrite Hok, Hj, Hres. change (negb true) with false. cbv iota.
  change (negb (truthy (Some docs)) || negb (isArray (Some docs))) with false.
  cbv iota. change (nullish (Some docs) []) with docs.
  fold (followUp (as_page parsed)).
  rewrite (bind_after _ _ _ _ _ _ (cleanDocuments_run baseUrl headers docs _)).
  fold del. unfold after.
  destruct (truthy (followUp (as_page parsed)) && negb (startsWith _ baseUrl));
    reflexivity.
Qed.

(** The [try] block on an answered page without [results]: the page is
    reported and [nextPage] stays what it was. *)
Lemma cleanPage_no_results baseUrl headers pageUrl s resp parsed w1 :
  fetch (pageRequest headers true pageUrl) (world s) = (Responded resp, w1) ->
  ok resp = true ->
  json resp = inr parsed ->
  results (as_page parsed) = None ->
  Cleanup.cleanPage cfg baseUrl headers pageUrl s
  = (Return (Cleanup.Continue (Some pageUrl)),
     {| world := w1; headersObj := headersObj s |},
     [EvFetch (pageRequest headers true pageUrl); EvError InvalidResultsFormat]).
Proof.
  intros Hf Hok Hj Hres. unfold Cleanup.cleanPage.
  rewrite (bind_after _ _ _ _ _ _ (http_responded _ _ _ _ Hf)).
  rewrite Hok, Hj, Hres. reflexivity.
Qed.

(** One iteration of the loop whose [try] block returns. *)
Lemma cleanLoop_step fuel baseUrl headers pageUrl s control s1 t1 :
  pageUrl <> "" ->
  Cleanup.cleanPage cfg baseUrl headers pageUrl s = (Return control, s1, t1) ->
  Cleanup.cleanLoop cfg (S fuel) baseUrl headers (Some pageUrl) s
  = match control with
    | Cleanup.Continue nextPage =>
        after t1 (Cleanup.cleanLoop cfg fuel baseUrl headers nextPage s1)
    | _ => (Return tt, s1, t1)
    end.
Proof.
  intros Hu Hp. simpl. rewrite truthy_Some.
  assert (Ht : truthy pageUrl = true) by (destruct pageUrl; [contradiction | reflexivity]).
  rewrite Ht. change (negb true) with false. cbv iota.
  assert (Htry : try_catch (Cleanup.cleanPage cfg baseUrl headers pageUrl)
                   (fun error =>
                      if String.eqb (name error) "AbortError"
                      then bind (console_error RequestTimeout)
                             (fun _ => ret (Cleanup.Continue (Some pageUrl)))
                      else throw error) s
                 = (Return control, s1, t1)).
  { unfold try_catch. simpl nullish in Hp. now rewrite Hp. }
  simpl nullish. rewrite (bind_after _ _ _ _ _ _ Htry).
  destruct control; unfold after; simpl; try now rewrite app_nil_r.
  reflexivity.
Qed.

End CleanupCrawl.




(** C4, as the code has it. The summarization scan follows the [next] of a
    page whatever it is: given a first page with its [results] and a
    non-empty [next], the second request of the scan goes to that URL, with
    the same headers, and nothing compares it with the base URL. *)
Theorem scan_follows_next_unchecked `{Runtime} (cfg : SummarizerConfiguration)
    (fuel : nat) (baseUrl : string) (headers : Headers) (s : Store)
    (resp : Response) (parsed : JsonBody) (w1 : World)
    (docs : list PaperlessDocument) (u : string) :
  let seed := baseUrl +:+ "/documents/?ordering=-id" in
  fetch (pageRequest headers false seed) (world s) = (Responded resp, w1) ->
  ok resp = true ->
  json resp = inr parsed ->
  results (as_page parsed) = Some docs ->
  next (as_page parsed) = Some u ->
  u <> "" ->
  exists found rest,
    events (Index.processDocumentPages cfg (S (S fuel)) baseUrl headers s)
    = [EvFetch (pageRequest headers false seed); EvLog (PageProcessed found u);
       EvFetch (pageRequest headers false u)] ++ rest.
Proof.
  intros seed Hf Hok Hj Hres Hn Hu. unfold Index.processDocumentPages. fold seed.
  rewrite (scanPages_step cfg _ _ _ _ _ _ _ _ Hf Hok Hj).
  rewrite Hres, Hn. rewrite !truthy_Some.
  assert (Ht : truthy u = true) by (destruct u; [contradiction | reflexivity]).
  rewrite Ht. change (truthy docs) with true. simpl negb. cbv iota.
  simpl nullish. rewrite events_after.
  set (acc := Index.collectUnsummarized cfg docs []).
  set (s1 := {| world := w1; headersObj := headersObj s |}).
  exists (length acc).
  change (Index.scanPages cfg (S fuel) headers u acc s1)
    with (bind (http (pageRequest headers false u))
            (fun response =>
               if negb (ok response)
               then throw (newError ("Error on search request: " +:+ statusText response))
               else
                 bind (response_json response) (fun parsed =>
                   let page := as_page parsed in
                   if negb (truthy (results page))
                   then Index.scanPages cfg fuel headers u acc
                   else
                     let ids := Index.collectUnsummarized cfg (nullish (results page) []) acc in
                     if negb (truthy (next page)) then ret ids
                     else
                       let nextPage := nullish (next page) "" in
                       bind (console_log (PageProcessed (length ids) nextPage))
                         (fun _ => Index.scanPages cfg fuel headers nextPage ids))) s1).
  destruct (http_cases (pageRequest headers false u) s1)
    as [(resp' & s' & Hr) | (e & s' & Hr)].
  - rewrite (bind_after _ _ _ _ _ _ Hr), events_after. simpl. eauto.
  - rewrite (bind_throw _ _ _ _ _ _ Hr). simpl. eauto.
Qed.

Lemma scan_follows_next_unchecked_witness :
  let h := initHeaders "secret" in
  let r := @Index.processDocumentPages Fixture.poisoned Fixture.defaults 2 Fixture.base h
             (@Fixture.store0 Fixture.poisoned tt) in
  startsWith Fixture.evil Fixture.base = false
  /\ (exists found rest,
        events r
        = [EvFetch (pageRequest h false Fixture.seed);
           EvLog (PageProcessed found Fixture.evil);
           EvFetch (pageRequest h false Fixture.evil)] ++ rest)
  /\ outcome r = Return [9; 666].
Proof.
  intros h r. split; [reflexivity|]. split; [|vm_compute; reflexivity].
  apply (@scan_follows_next_unchecked Fixture.poisoned Fixture.defaults 0 Fixture.base h
           (@Fixture.store0 Fixture.poisoned tt)
           {| status := 200; statusText := "OK";
              json := inr (JPage (Fixture.mkPage (Some Fixture.docs1)
                                    (Some Fixture.evil))) |}
           (JPage (Fixture.mkPage (Some Fixture.docs1) (Some Fixture.evil)))
           tt Fixture.docs1 Fixture.evil); try reflexivity.
  discriminate.
Defined.

(** C9, as the code has it. A listing page without [results] is not left
    behind: as long as the request for it is answered that way, both crawls
    request the same URL again and again, the scan without a message, the
    cleanup with one per round, and neither reaches another page nor
    returns, whatever the fuel. *)
Theorem crawl_stays_on_page_without_results `{Runtime} (cfg : SummarizerConfiguration)
    (baseUrl : string) (headers : Headers) (pageUrl : string) :
  pageUrl <> "" ->
  (forall withSignal w,
      exists resp parsed w',
        fetch (pageRequest headers withSignal pageUrl) w = (Responded resp, w')
        /\ ok resp = true /\ json resp = inr parsed
        /\ results (as_page parsed) = None) ->
  forall fuel acc s,
    let scan := Index.scanPages cfg fuel headers pageUrl acc s in
    let clean := Cleanup.cleanLoop cfg fuel baseUrl headers (Some pageUrl) s in
    outcome scan = OutOfFuel
    /\ events scan = repeat (EvFetch (pageRequest headers false pageUrl)) fuel
    /\ outcome clean = OutOfFuel
    /\ events clean
       = concat (repeat [EvFetch (pageRequest headers true pageUrl);
                         EvError InvalidResultsFormat] fuel).
Proof.
  intros Hu Hstuck fuel acc. induction fuel as [|fuel IH]; intros s scan clean.
  - subst scan clean. simpl. destruct pageUrl; [contradiction|]. repeat split.
  - destruct (Hstuck false (world s)) as (resp & parsed & w1 & Hf & Hok & Hj & Hres).
    destruct (Hstuck true (world s)) as (resp' & parsed' & w1' & Hf' & Hok' & Hj' & Hres').
    subst scan clean.
    rewrite (scanPages_step cfg _ _ _ _ _ _ _ _ Hf Hok Hj), Hres.
    rewrite (cleanLoop_step cfg fuel baseUrl headers pageUrl s _ _ _ Hu
               (cleanPage_no_results cfg baseUrl headers pageUrl s resp' parsed' w1'
                  Hf' Hok' Hj' Hres')).
    rewrite truthy_None. simpl negb. cbv iota.
    destruct (IH {| world := w1; headersObj := headersObj s |}) as (Ho & He & _).
    destruct (IH {| world := w1'; headersObj := headersObj s |}) as (_ & _ & Ho' & He').
    unfold after. simpl. rewrite Ho, He, Ho', He'. repeat split.
Qed.

Lemma crawl_stays_on_page_without_results_witness :
  let scan := @Index.processDocumentPages Fixture.stuck Fixture.defaults 3 Fixture.base []
                (@Fixture.store0 Fixture.stuck tt) in
  let clean := @Cleanup.findAndDeleteSummaries Fixture.stuck Fixture.defaults 3
                 Fixture.base [] (@Fixture.store0 Fixture.stuck tt) in
  outcome scan = OutOfFuel
  /\ map url (fetches (events scan)) = [Fixture.seed; Fixture.seed; Fixture.seed]
  /\ outcome clean = OutOfFuel
  /\ map url (fetches (events clean)) = [Fixture.seed; Fixture.seed; Fixture.seed].
Proof.
  intros scan clean.
  destruct (@crawl_stays_on_page_without_results Fixture.stuck Fixture.defaults
              Fixture.base [] Fixture.seed ltac:(discriminate)) with
    (fuel := 3%nat) (acc := @nil Z) (s := @Fixture.store0 Fixture.stuck tt)
    as (Ho & He & Ho' & He').
  - intros withSignal w. eexists _, _, _. repeat split; reflexivity.
  - split; [exact Ho|]. split; [subst scan; unfold Index.processDocumentPages;
      change (Fixture.base +:+ "/documents/?ordering=-id") with Fixture.seed;
      rewrite He; reflexivity|].
    split; [exact Ho'|]. subst clean. unfold Cleanup.findAndDeleteSummaries.
    change (negb (truthy (SUMMARY_MARKER Fixture.defaults))) with false. cbv iota.
    change (Fixture.base +:+ "/documents/?ordering=-id") with Fixture.seed.
    rewrite He'. reflexivity.
Defined.

(** ** The entry point of the cleanup tool *)

Section Entry.
Context `{Runtime}.

Lemma truthy_nonempty (u : string) : u <> "" -> truthy u = true.
Proof. destruct u; [contradiction | reflexivity]. Qed.

Lemma getEnvironmentVariables_valid env token url s :
  env !! "PAPERLESS_TOKEN" = Some token -> token <> "" ->
  env !! "PAPERLESS_URL" = Some url -> url <> "" ->
  getEnvironmentVariables env s
  = (Return {| apiKey := token; paperlessUrl := url;
               saveTxtSummary := Some (outputTxtFlag env);
               saveTxtPath := Some (nullish (env !! "OUTPUT_PATH") "") |}, s, []).
Proof.
  intros Ht Htn Hu Hun. unfold getEnvironmentVariables, validateEnvironmentVariables.
  rewrite Ht, Hu. simpl nullish. rewrite !truthy_Some, !truthy_nonempty by assumption.
  reflexivity.
Qed.

(** Reading the environment has no effect; it returns or throws. *)
Lemma getEnvironmentVariables_cases env s :
  (exists c, getEnvironmentVariables env s = (Return c, s, []))
  \/ (exists e, getEnvironmentVariables env s = (Throw e, s, [])).
Proof.
  unfold getEnvironmentVariables, validateEnvironmentVariables.
  destruct (negb _ || negb _); [right | left]; eexists; reflexivity.
Qed.

(** With an empty marker the all-mode crawl throws at once. *)
Lemma findAndDeleteSummaries_empty_marker cfg fuel baseUrl headers s :
  SUMMARY_MARKER cfg = "" ->
  Cleanup.findAndDeleteSummaries cfg fuel baseUrl headers s
  = (Throw (newError "SUMMARY_MARKER is undefined"), s, []).
Proof. intros Hm. unfold Cleanup.findAndDeleteSummaries. now rewrite Hm. Qed.

(** [main] up to the choice of the mode, in a valid environment. *)
Lemma main_valid cfg command env fuel s token url :
  validEnvironment env token url ->
  Cleanup.main cfg command env fuel s
  = let documentId := parseInt command (Some 10) in
    if negb (String.eqb command "all") && (isNaN documentId || (nullish documentId 0 <=? 0))
    then (Throw (newError Cleanup.ERR_INVALID_COMMAND), s, [])
    else if String.eqb command "all"
    then Cleanup.findAndDeleteSummaries cfg fuel url (initHeaders token) s
    else Cleanup.deleteAiNotesAtDocument cfg url
           (parseInt (or_else (Some command) "-999") None) (initHeaders token) s.
Proof.
  intros (Ht & Htn & Hu & Hun & [x Hx]). unfold Cleanup.main.
  rewrite (bind_after _ _ _ _ _ _ (getEnvironmentVariables_valid env token url s
                                     Ht Htn Hu Hun)).
  simpl paperlessUrl. simpl apiKey. rewrite Hx.
  rewrite bind_ret. cbv zeta.
  destruct (negb (String.eqb command "all") && _).
  - reflexivity.
  - unfold after. simpl.
    destruct (String.eqb command "all"); symmetry; apply run_eta.
Qed.

(** Whatever the environment, a command that is neither [all] nor read as
    a positive number makes [main] throw with no event. *)
Lemma main_rejects cfg command env fuel s n :
  command <> "all" ->
  parseInt command (Some 10) = Some n -> n <= 0 ->
  exists e,
    Cleanup.main cfg command env fuel s = (Throw e, s, [])
    /\ (forall token url, validEnvironment env token url ->
          e = newError Cleanup.ERR_INVALID_COMMAND).
Proof.
  intros Hc Hp Hn. unfold Cleanup.main.
  assert (Hall : String.eqb command "all" = false) by now apply String.eqb_neq.
  destruct (getEnvironmentVariables_cases env s) as [[c Hg] | [e Hg]].
  - rewrite (bind_after _ _ _ _ _ _ Hg).
    destruct (URL_new (paperlessUrl c)) as [x|] eqn:Hx.
    + rewrite bind_ret. rewrite Hp, Hall. simpl.
      rewrite (proj2 (Z.leb_le n 0) Hn). simpl.
      exists (newError Cleanup.ERR_INVALID_COMMAND). split; reflexivity || auto.
    + eexists. split; [reflexivity|].
      intros token url (Ht & Htn & Hu & Hun & [y Hy]).
      rewrite (getEnvironmentVariables_valid env token url s Ht Htn Hu Hun) in Hg.
      injection Hg as <-. simpl in Hx. congruence.
  - rewrite (bind_throw _ _ _ _ _ _ Hg). exists e. split; [reflexivity|].
    intros token url (Ht & Htn & Hu & Hun & _).
    rewrite (getEnvironmentVariables_valid env token url s Ht Htn Hu Hun) in Hg.
    discriminate.
Qed.

(** A hexadecimal prefix reads as 0 in radix 10. *)
Lemma parseDigits_hex_prefix s r :
  stripHexPrefix s = Some r -> parseDigits 10 None s = Some 0.
Proof.
  destruct s as [|c1 [|c2 r']]; simpl; try discriminate.
  destruct (Ascii.eqb c1 "0") eqn:H1; simpl; [|discriminate].
  apply Ascii.eqb_eq in H1. subst c1.
  destruct (Ascii.eqb c2 "x" || Ascii.eqb c2 "X") eqn:H2; [|discriminate].
  intros _. apply orb_true_iff in H2 as [H2 | H2]; apply Ascii.eqb_eq in H2;
    subst c2; reflexivity.
Qed.

(** A positive number read in radix 10 is read the same without a radix. *)
Lemma parseInt_radix a n :
  parseInt a (Some 10) = Some n -> n <> 0 -> parseInt a None = Some n.
Proof.
  unfold parseInt. destruct (splitSign (trimStart a)) as [sign s2].
  simpl. destruct (stripHexPrefix s2) as [r|] eqn:Hs; [|auto].
  rewrite (parseDigits_hex_prefix s2 r Hs). intros [= <-]. lia.
Qed.

End Entry.

(** C7, as the code has it. The cleanup entry point goes on with exactly one
    argument that is the token [all] or that [parseInt] reads, in radix 10,
    as a positive integer (white space in front, a sign and anything after
    the digits are let through). For every other argument value or arity it
    fails before any event, so before any network call: with an error
    thrown by the module or, from [main], reported by its [catch]; in a
    valid environment that error is a usage error. An accepted argument
    starts the mode it names. *)
Theorem cleanup_argument_validation `{Runtime} (env : ProcessEnv) (fuel : nat)
    (s : Store) :
  (forall args,
      (forall a, args = [a] -> ~ accepted a) ->
      exists e,
        (Cleanup.program args env fuel s = (Throw e, s, [])
         \/ Cleanup.program args env fuel s = (Return tt, s, [EvError (Uncaught e)]))
        /\ (forall token url, validEnvironment env token url -> isUsageError e))
  /\ (forall a token url,
        accepted a ->
        validEnvironment env token url ->
        Cleanup.program [a] env fuel s
        = try_catch
            (if String.eqb a "all"
             then Cleanup.findAndDeleteSummaries (CONFIG env) fuel url (initHeaders token)
             else Cleanup.deleteAiNotesAtDocument (CONFIG env) url
                    (parseInt a (Some 10)) (initHeaders token))
            (fun error => console_error (Uncaught error)) s).
Proof.
  split.
  - intros args Hrej. unfold Cleanup.program, Cleanup.run.
    destruct args as [|a [|b args]].
    + eexists. split; [left; reflexivity | intros; left; reflexivity].
    + assert (Hall : a <> "all") by (intros ->; apply (Hrej "all"); [|left]; reflexivity).
      apply String.eqb_neq in Hall as Hall'. rewrite Hall'.
      destruct (parseInt a (Some 10)) as [n|] eqn:Hp; cbn [negb andb isNaN].
      * assert (Hn : n <= 0).
        { destruct (Z_le_gt_dec n 0) as [Hle | Hgt]; [exact Hle|].
          exfalso. apply (Hrej a eq_refl). right. exists n. split; [exact Hp | lia]. }
        destruct (main_rejects (CONFIG env) a env fuel s n Hall Hp Hn) as (e & He & Hv).
        exists e. split.
        -- right. unfold try_catch. rewrite He. reflexivity.
        -- intros token url Henv. right. eauto.
      * eexists. split; [left; reflexivity | intros; left; reflexivity].
    + eexists. split; [left; reflexivity | intros; left; reflexivity].
  - intros a token url Hacc Henv. unfold Cleanup.program, Cleanup.run.
    assert (Hgo : negb (String.eqb a "all") && isNaN (parseInt a (Some 10)) = false).
    { destruct Hacc as [-> | (n & Hp & _)]; [reflexivity|].
      rewrite Hp. apply andb_false_r. }
    rewrite Hgo. unfold try_catch.
    rewrite (main_valid (CONFIG env) a env fuel s token url Henv). cbv zeta.
    destruct Hacc as [-> | (n & Hp & Hn)]; [reflexivity|].
    rewrite Hp. cbn [isNaN nullish orb].
    rewrite (proj2 (Z.leb_gt n 0) Hn), andb_false_r.
    destruct (String.eqb a "all"); [reflexivity|].
    assert (Ha : or_else (Some a) "-999" = a).
    { unfold or_else. destruct a; [discriminate Hp | reflexivity]. }
    rewrite Ha, (parseInt_radix a n Hp) by lia. reflexivity.
Qed.

Lemma cleanup_argument_validation_witness :
  exists e,
    isUsageError e
    /\ (@Cleanup.program Fixture.paperless ["-5"] Fixture.processEnv 1 Fixture.start
        = (Return tt, Fixture.start, [EvError (Uncaught e)])).
Proof.
  destruct (@cleanup_argument_validation Fixture.paperless Fixture.processEnv 1
              Fixture.start) as [Hrej _].
  destruct (Hrej ["-5"]) as (e & Hrun & Husage).
  - intros a [= <-] [Hall | (n & Hp & Hn)]; [discriminate|].
    vm_compute in Hp. injection Hp as <-. lia.
  - exists e. split.
    + apply (Husage "secret" Fixture.base). repeat split; try discriminate.
      eexists; reflexivity.
    + destruct Hrun as [Hrun | Hrun]; [|exact Hrun].
      vm_compute in Hrun. discriminate Hrun.
Defined.

(** C7 does not hold as stated: the argument [12abc] is neither [all] nor a
    positive integer, and the cleanup tool goes on with it: it asks the
    service for the notes of document 12. *)
Lemma cleanup_accepts_trailing_text :
  "12abc" <> "all"
  /\ isPositiveInteger "12abc" = false
  /\ map (fun q => (method q, url q))
       (fetches (events (@Cleanup.program Fixture.paperless ["12abc"]
                           Fixture.processEnv 1 Fixture.start)))
     = [(GET, Fixture.notesUrl 12)].
Proof. split; [discriminate|]. split; vm_compute; reflexivity. Qed.

(** C10. When [SUMMARY_MARKER] is set to the empty string, the defaulting
    keeps it empty; startup and the validation of the environment succeed,
    and the all-mode cleanup throws before any request: the run of
    [findAndDeleteSummaries] has no event, and neither has the whole tool
    but for the report of that error. *)
Theorem cleanup_empty_marker_throws `{Runtime} (env : ProcessEnv) (fuel : nat)
    (s : Store) (token url : string) :
  env !! "SUMMARY_MARKER" = Some "" ->
  validEnvironment env token url ->
  SUMMARY_MARKER (CONFIG env) = ""
  /\ (exists envConfig, getEnvironmentVariables env s = (Return envConfig, s, []))
  /\ (forall baseUrl headers,
        Cleanup.findAndDeleteSummaries (CONFIG env) fuel baseUrl headers s
        = (Throw (newError "SUMMARY_MARKER is undefined"), s, []))
  /\ Cleanup.program ["all"] env fuel s
     = (Return tt, s, [EvError (Uncaught (newError "SUMMARY_MARKER is undefined"))]).
Proof.
  intros Hm Henv.
  assert (Hcfg : SUMMARY_MARKER (CONFIG env) = "") by (simpl; now rewrite Hm).
  split; [exact Hcfg|]. split; [|split].
  - destruct Henv as (Ht & Htn & Hu & Hun & _). eexists.
    apply (getEnvironmentVariables_valid env token url s Ht Htn Hu Hun).
  - intros baseUrl headers. now apply findAndDeleteSummaries_empty_marker.
  - unfold Cleanup.program, Cleanup.run.
    change (negb (String.eqb "all" "all") && isNaN (parseInt "all" (Some 10))) with false.
    cbv iota. unfold try_catch. rewrite (main_valid (CONFIG env) "all" env fuel s token url Henv).
    simpl. rewrite (findAndDeleteSummaries_empty_marker _ _ _ _ _ Hcfg). reflexivity.
Qed.

Lemma cleanup_empty_marker_throws_witness :
  let env : ProcessEnv :=
    {[ "PAPERLESS_TOKEN" := "secret"; "PAPERLESS_URL" := Fixture.base;
       "SUMMARY_MARKER" := "" ]} in
  @Cleanup.program Fixture.paperless ["all"] env 5 Fixture.start
  = (Return tt, Fixture.start,
     [EvError (Uncaught (newError "SUMMARY_MARKER is undefined"))]).
Proof.
  intros env.
  destruct (@cleanup_empty_marker_throws Fixture.paperless env 5 Fixture.start
              "secret" Fixture.base) as (_ & _ & _ & Hrun).
  - reflexivity.
  - repeat split; try discriminate. eexists; reflexivity.
  - exact Hrun.
Defined.

(** * Further properties of the code *)

(** ** What the two tools never do *)

Section Never.
Context `{Runtime}.
Variable cfg : SummarizerConfiguration.

Lemma emits_scanPages (P : Event -> Prop) fuel headers url acc :
  (forall u, P (EvFetch (pageRequest headers false u))) ->
  (forall n u, P (EvLog (PageProcessed n u))) ->
  emits_only P (Index.scanPages cfg fuel headers url acc).
Proof.
  intros Hget Hlog. revert url acc.
  induction fuel as [|fuel IH]; intros url acc; simpl; prog.
  apply (Hget url).
Qed.

Lemma emits_summarizeAll (P : Event -> Prop) envConfig ids :
  (forall i, emits_only P (Index.summarizeDocument cfg envConfig i)) ->
  (forall i, P (EvLog (ProcessingDocument i))) ->
  (forall i e, P (EvError (ErrorProcessingDocument i e))) ->
  emits_only P (Index.summarizeAll cfg envConfig ids).
Proof.
  intros Hdoc Hlog Herr. induction ids as [|i ids IH]; simpl; prog.
Qed.

Lemma emits_getEnvironmentVariables (P : Event -> Prop) env :
  emits_only P (getEnvironmentVariables env).
Proof. unfold getEnvironmentVariables, validateEnvironmentVariables. prog. Qed.

Lemma emits_main (P : Event -> Prop) env fuel :
  (forall h u, P (EvFetch (pageRequest h false u))) ->
  (forall n u, P (EvLog (PageProcessed n u))) ->
  (forall c i, emits_only P (Index.summarizeDocument cfg c i)) ->
  (forall i, P (EvLog (ProcessingDocument i))) ->
  (forall i e, P (EvError (ErrorProcessingDocument i e))) ->
  emits_only P (Index.main cfg env fuel).
Proof.
  intros Hget Hlog Hdoc Hproc Herr. unfold Index.main, Index.processDocumentPages.
  prog.
  - apply emits_getEnvironmentVariables.
  - apply emits_scanPages; auto.
  - apply emits_summarizeAll; auto.
Qed.

(** Without [display] the stream is consumed in silence. *)
Lemma emits_consume_silent (P : Event -> Prop) ps failure acc :
  emits_only P (Index.consume false ps failure acc).
Proof. revert acc; induction ps as [|p ps IH]; intros acc; simpl; prog. Qed.

Lemma summarizerEvent_document c i :
  emits_only summarizerEvent (Index.summarizeDocument cfg c i).
Proof.
  unfold Index.summarizeDocument, fetchDocument, Index.summarizeText, postComment,
    saveSummaryToFile.
  prog; simpl; auto using emits_consume_silent; eauto.
Qed.

Lemma cleanupEvent_deleteComment baseUrl documentId noteId headers :
  emits_only cleanupEvent (deleteComment baseUrl documentId noteId headers).
Proof. unfold deleteComment. prog. simpl. auto. Qed.

Lemma cleanupEvent_cleanDocuments baseUrl headers docs :
  emits_only cleanupEvent (Cleanup.cleanDocuments cfg baseUrl headers docs).
Proof.
  induction docs as [|d docs IH]; simpl; prog; simpl; auto.
  induction (List.filter _ _) as [|n marked IHm]; simpl; prog; simpl; auto.
  apply cleanupEvent_deleteComment.
Qed.

Lemma cleanupEvent_cleanLoop fuel baseUrl headers nextPage :
  emits_only cleanupEvent (Cleanup.cleanLoop cfg fuel baseUrl headers nextPage).
Proof.
  revert nextPage. induction fuel as [|fuel IH]; intros nextPage; simpl; prog;
    simpl; auto.
  unfold Cleanup.cleanPage. prog; simpl; auto.
  apply cleanupEvent_cleanDocuments.
Qed.

Lemma cleanupEvent_single paperlessUrl documentId headers :
  emits_only cleanupEvent (Cleanup.deleteAiNotesAtDocument cfg paperlessUrl documentId headers).
Proof.
  unfold Cleanup.deleteAiNotesAtDocument, fetchDocument. prog; simpl; auto.
  induction (List.filter _ _) as [|n marked IHm]; simpl; prog; simpl; auto.
  apply cleanupEvent_deleteComment.
Qed.

End Never.

(** X1. Whatever the environment, the service and the model answer, the
    summarizer only reads from the document service and posts notes to it:
    each of its requests is a GET without a body or a POST whose body is
    [JSON.stringify({note})]; it never deletes. It never calls
    [process.stdout.write] either: the parts of a summary are not echoed
    while they stream in, so what the summarizer prints are the lines of
    [console.log] and [console.error] and nothing else. *)
Theorem summarizer_reads_and_posts_only `{Runtime} (env : ProcessEnv) (fuel : nat)
    (s : Store) :
  Forall summarizerEvent (events (Index.program env fuel s)).
Proof.
  unfold Index.program, Index.run. revert s.
  change (emits_only summarizerEvent
            (try_catch (Index.main (CONFIG env) env fuel)
               (fun error => console_error (Uncaught error)))).
  prog; simpl; auto.
  apply emits_main; simpl; auto using summarizerEvent_document.
Qed.

(** X2. Whatever its arguments, the environment and the service answer, the
    cleanup tool only reads and deletes: each of its requests is a GET or a
    DELETE without a body; it never posts, never calls the generation
    service, never creates a directory or writes a file, and never calls
    [process.stdout.write]: what it prints are the lines of [console.log]
    and [console.error] and nothing else. *)
Theorem cleanup_reads_and_deletes_only `{Runtime} (args : list string) (env : ProcessEnv)
    (fuel : nat) (s : Store) :
  Forall cleanupEvent (events (Cleanup.program args env fuel s)).
Proof.
  unfold Cleanup.program, Cleanup.run. revert s.
  change (emits_only cleanupEvent
            match args with
            | [arg0] =>
                if negb (String.eqb arg0 "all") && isNaN (parseInt arg0 (Some 10))
                then throw (newError "Usage: node script.js <all|number>")
                else try_catch (Cleanup.main (CONFIG env) arg0 env fuel)
                       (fun error => console_error (Uncaught error))
            | _ => throw (newError "Usage: node script.js <all|number>")
            end).
  prog; simpl; auto.
  unfold Cleanup.main, Cleanup.findAndDeleteSummaries. prog; simpl; auto.
  - apply emits_getEnvironmentVariables.
  - apply cleanupEvent_cleanLoop.
  - apply cleanupEvent_single.
Qed.

(** ** The headers of the requests *)

Section HeadersInvariant.
Context `{Runtime}.
Variable J : Headers -> Prop.
Variable P : Event -> Prop.

Lemma keeps_ret {A} (a : A) : keeps J P (ret a).
Proof. intros s Hs. split; [exact Hs | constructor]. Qed.

Lemma keeps_throw {A} e : keeps J P (@throw _ A e).
Proof. intros s Hs. split; [exact Hs | constructor]. Qed.

Lemma keeps_diverge {A} : keeps J P (@diverge _ A).
Proof. intros s Hs. split; [exact Hs | constructor]. Qed.

Lemma keeps_emit e : P e -> keeps J P (emit e).
Proof. intros He s Hs. split; [exact Hs | repeat constructor; exact He]. Qed.

Lemma keeps_world_op {A} (f : World -> (Error + A) * World) : keeps J P (world_op f).
Proof.
  intros s Hs. unfold world_op, final, events.
  destruct (f (world s)) as [[e|a] w]; split; simpl; auto.
Qed.

Lemma keeps_world_read {A} (f : World -> A) : keeps J P (world_read f).
Proof. intros s Hs. split; [exact Hs | constructor]. Qed.

Lemma keeps_writeHeaders h : J h -> keeps J P (writeHeaders h).
Proof. intros Hh s Hs. split; [exact Hh | constructor]. Qed.

Lemma keeps_bind {A B} (m : M A) (f : A -> M B) :
  keeps J P m -> (forall a, keeps J P (f a)) -> keeps J P (bind m f).
Proof.
  intros Hm Hf s Hs. destruct (Hm s Hs) as [Hj Hp].
  unfold bind, final, events in *.
  destruct (m s) as [[[a| e |] s1] t1]; simpl in *; auto.
  destruct (Hf a s1 Hj) as [Hj' Hp']. unfold final, events in *.
  destruct (f a s1) as [[r s2] t2]. simpl in *. split; [exact Hj'|].
  now apply Forall_app.
Qed.

Lemma keeps_try_catch {A} (m : M A) (h : Error -> M A) :
  keeps J P m -> (forall e, keeps J P (h e)) -> keeps J P (try_catch m h).
Proof.
  intros Hm Hh s Hs. destruct (Hm s Hs) as [Hj Hp].
  unfold try_catch, final, events in *.
  destruct (m s) as [[[a| e |] s1] t1]; simpl in *; auto.
  destruct (Hh e s1 Hj) as [Hj' Hp']. unfold final, events in *.
  destruct (h e s1) as [[r s2] t2]. simpl in *. split; [exact Hj'|].
  now apply Forall_app.
Qed.

(** What is read from the object has the property the object has. *)
Lemma keeps_readHeaders {B} (f : Headers -> M B) :
  (forall h, J h -> keeps J P (f h)) -> keeps J P (bind readHeaders f).
Proof.
  intros Hf s Hs. unfold bind, readHeaders.
  destruct (Hf (headersObj s) Hs s Hs) as [Hj Hp]. unfold final, events in *.
  destruct (f (headersObj s) s) as [[r s2] t2]. simpl in *. auto.
Qed.

Lemma keeps_http r : P (EvFetch r) -> keeps J P (http r).
Proof.
  intros Hr. apply keeps_bind; [now apply keeps_emit | intros _; apply keeps_world_op].
Qed.

Lemma keeps_response_json r : keeps J P (response_json r).
Proof. unfold response_json. destruct (json r); [apply keeps_throw | apply keeps_ret]. Qed.

Lemma keeps_newURL u : keeps J P (newURL u).
Proof. unfold newURL. destruct (URL_new u); [apply keeps_ret | apply keeps_throw]. Qed.

End HeadersInvariant.

#[export] Hint Resolve keeps_ret keeps_throw keeps_diverge keeps_world_op keeps_world_read
  keeps_response_json keeps_newURL : prog.

Ltac keeps_step :=
  match goal with
  | |- keeps _ _ (bind readHeaders _) => apply keeps_readHeaders; intros ? ?
  | |- keeps _ _ (bind _ _) => apply keeps_bind; [|intros ?]
  | |- keeps _ _ (try_catch _ _) => apply keeps_try_catch; [|intros ?]
  | |- keeps _ _ (emit _) => apply keeps_emit
  | |- keeps _ _ (console_log _) => apply keeps_emit
  | |- keeps _ _ (console_error _) => apply keeps_emit
  | |- keeps _ _ (http _) => apply keeps_http
  | |- keeps _ _ (writeHeaders _) => apply keeps_writeHeaders
  | |- keeps _ _ (if ?b then _ else _) => destruct b
  | |- keeps _ _ (match ?x with _ => _ end) => destruct x
  | |- _ => solve [auto with prog]
  end.

Section Authorization.
Context `{Runtime}.
Variable cfg : SummarizerConfiguration.
Variable entry : string * string.

(** [headers.set] for another name leaves an entry where it is. *)
Lemma Headers_remove_other k h :
  k <> entry.1 -> In entry h -> In entry (Headers_remove k h).
Proof.
  intros Hk. induction h as [|[k' v'] h IH]; simpl; [auto|].
  intros [He | Hin].
  - subst entry. simpl in Hk. apply String.eqb_neq in Hk. rewrite Hk. now left.
  - destruct (String.eqb k k'); [auto | right; auto].
Qed.

Lemma Headers_set_other k v h :
  k <> entry.1 -> In entry h -> In entry (Headers_set k v h).
Proof.
  intros Hk. induction h as [|[k' v'] h IH]; simpl; [contradiction|].
  intros [He | Hin].
  - subst entry. simpl in Hk. apply String.eqb_neq in Hk. rewrite Hk. now left.
  - destruct (String.eqb k k'); right; [now apply Headers_remove_other | auto].
Qed.

Hypothesis entry_stays :
  forall h, In entry h -> In entry (Headers_set "Content-Type" "application/json" h).

Lemma keeps_consume_silent (J : Headers -> Prop) (P : Event -> Prop) ps failure acc :
  keeps J P (Index.consume false ps failure acc).
Proof.
  revert acc; induction ps as [|p ps IH]; intros acc; simpl; repeat keeps_step.
Qed.

Lemma keeps_summarizeDocument envConfig i :
  keeps (In entry) (carries entry) (Index.summarizeDocument cfg envConfig i).
Proof.
  unfold Index.summarizeDocument, fetchDocument, Index.summarizeText, postComment,
    saveSummaryToFile.
  repeat keeps_step; simpl; auto using keeps_consume_silent.
Qed.

Lemma keeps_summarizeAll envConfig ids :
  keeps (In entry) (carries entry) (Index.summarizeAll cfg envConfig ids).
Proof.
  induction ids as [|i ids IH]; simpl; repeat keeps_step; simpl; auto.
  apply keeps_summarizeDocument.
Qed.

Lemma keeps_scanPages fuel headers url acc :
  In entry headers ->
  keeps (In entry) (carries entry) (Index.scanPages cfg fuel headers url acc).
Proof.
  intros Hh. revert url acc.
  induction fuel as [|fuel IH]; intros url acc; simpl; repeat keeps_step; simpl; auto.
Qed.

Lemma carries_deleteComment baseUrl documentId noteId headers :
  In entry headers ->
  emits_only (carries entry) (deleteComment baseUrl documentId noteId headers).
Proof. intros Hh. unfold deleteComment. prog; try exact Hh. Qed.

Lemma carries_cleanDocuments baseUrl headers docs :
  In entry headers ->
  emits_only (carries entry) (Cleanup.cleanDocuments cfg baseUrl headers docs).
Proof.
  intros Hh. induction docs as [|d docs IH]; simpl; prog; simpl; auto.
  induction (List.filter _ _) as [|n marked IHm]; simpl; prog; simpl; auto.
  now apply carries_deleteComment.
Qed.

Lemma carries_cleanLoop fuel baseUrl headers nextPage :
  In entry headers ->
  emits_only (carries entry) (Cleanup.cleanLoop cfg fuel baseUrl headers nextPage).
Proof.
  intros Hh. revert nextPage.
  induction fuel as [|fuel IH]; intros nextPage; simpl; prog; simpl; auto.
  unfold Cleanup.cleanPage. prog; simpl; auto.
  now apply carries_cleanDocuments.
Qed.

Lemma carries_single paperlessUrl documentId headers :
  In entry headers ->
  emits_only (carries entry)
    (Cleanup.deleteAiNotesAtDocument cfg paperlessUrl documentId headers).
Proof.
  intros Hh. unfold Cleanup.deleteAiNotesAtDocument, fetchDocument. prog; simpl; auto.
  induction (List.filter _ _) as [|n marked IHm]; simpl; prog; simpl; auto.
  now apply carries_deleteComment.
Qed.

Lemma Headers_set_in k v h : In (k, v) (Headers_set k v h).
Proof.
  induction h as [|[k' v'] h IH]; simpl; [now left|].
  destruct (String.eqb k k'); [now left | now right].
Qed.

End Authorization.

Section Ensures.
Context `{Runtime}.
Variable Q : Headers -> Prop.

Lemma ensures_throw {A} e : ensures Q (@throw _ A e).
Proof. intros s a Ho. discriminate. Qed.

Lemma ensures_writeHeaders h : Q h -> ensures Q (writeHeaders h).
Proof. intros Hq s a _. exact Hq. Qed.

Lemma ensures_bind_inner {A B} (m : M A) (f : A -> M B) :
  (forall a, ensures Q (f a)) -> ensures Q (bind m f).
Proof.
  intros Hf s b. unfold bind, outcome, final.
  destruct (m s) as [[[a| e |] s1] t1] eqn:Hm; simpl; try discriminate.
  specialize (Hf a s1 b). unfold outcome, final in Hf.
  destruct (f a s1) as [[o s2] t2]. exact Hf.
Qed.

Lemma ensures_bind_outer {A B} (m : M A) (f : A -> M B) :
  ensures Q m -> (forall a, keeps Q (fun _ => True) (f a)) -> ensures Q (bind m f).
Proof.
  intros Hm Hf s b. specialize (Hm s). unfold bind, outcome, final in *.
  destruct (m s) as [[[a| e |] s1] t1]; simpl in *; try discriminate.
  destruct (Hf a s1 (Hm a eq_refl)) as [Hk _]. unfold final in Hk.
  destruct (f a s1) as [[o s2] t2]. intros _. exact Hk.
Qed.

End Ensures.

Section Startup.
Context `{Runtime}.

(** What [getEnvironmentVariables] returns, when it returns. *)
Lemma getEnvironmentVariables_returned env s c :
  outcome (getEnvironmentVariables env s) = Return c ->
  c = {| apiKey := nullish (env !! "PAPERLESS_TOKEN") "";
         paperlessUrl := nullish (env !! "PAPERLESS_URL") "";
         saveTxtSummary := Some (outputTxtFlag env);
         saveTxtPath := Some (nullish (env !! "OUTPUT_PATH") "") |}
  /\ nullish (env !! "PAPERLESS_TOKEN") "" <> ""
  /\ nullish (env !! "PAPERLESS_URL") "" <> "".
Proof.
  unfold getEnvironmentVariables, validateEnvironmentVariables.
  rewrite !truthy_Some.
  destruct (nullish (env !! "PAPERLESS_TOKEN") "") as [|c1 t] eqn:Ht; simpl;
    [discriminate|].
  destruct (nullish (env !! "PAPERLESS_URL") "") as [|c2 u] eqn:Hu; simpl;
    [discriminate|].
  intros [= <-]. repeat split; discriminate.
Qed.

(** A step without events that leaves the store alone. *)
Lemma bind_quiet {A B} (m : M A) (f : A -> M B) s a :
  m s = (Return a, s, []) -> bind m f s = f a s.
Proof. intros Hm. unfold bind. rewrite Hm. now destruct (f a s) as [[? ?] ?]. Qed.

(** [main] of the summarizer after its startup. *)
Lemma index_main_started cfg env fuel s :
  let token := nullish (env !! "PAPERLESS_TOKEN") "" in
  let url := nullish (env !! "PAPERLESS_URL") "" in
  let c := {| apiKey := token; paperlessUrl := url;
              saveTxtSummary := Some (outputTxtFlag env);
              saveTxtPath := Some (nullish (env !! "OUTPUT_PATH") "") |} in
  let s0 := {| world := world s; headersObj := initHeaders token |} in
  (token <> "" /\ url <> ""
   /\ Index.main cfg env fuel s
      = bind (Index.processDocumentPages cfg fuel url (initHeaders token))
          (Index.summarizeAll cfg c) s0)
  \/ ((token = "" \/ url = "")
      /\ Index.main cfg env fuel s = (Throw (newError ERR_MISSING_ENV_VARIABLES), s, [])).
Proof.
  intros token url c s0. unfold Index.main.
  destruct (getEnvironmentVariables_cases env s) as [[c' Hc] | [e He]].
  - left. assert (Ho : outcome (getEnvironmentVariables env s) = Return c')
      by now rewrite Hc.
    apply getEnvironmentVariables_returned in Ho as (-> & Ht & Hu).
    split; [exact Ht|]. split; [exact Hu|].
    rewrite (bind_quiet _ _ _ _ Hc). simpl apiKey. simpl paperlessUrl.
    fold token url c. unfold bind at 1, writeHeaders. fold s0.
    unfold bind at 1, readHeaders. simpl headersObj.
    now destruct (bind _ _ s0) as [[? ?] ?].
  - right. rewrite (bind_throw _ _ _ _ _ _ He).
    revert He. unfold getEnvironmentVariables, validateEnvironmentVariables.
    rewrite !truthy_Some. fold token url.
    destruct token; [intros [= <-]; auto|]. destruct url; [intros [= <-]; auto|].
    discriminate.
Qed.

End Startup.

(** X3. Every request the summarizer issues carries the header
    [Authorization: Token <PAPERLESS_TOKEN>], the requests made after
    [headers.set('Content-Type', ..)] has changed the shared [Headers] object
    included. *)
Theorem summarizer_requests_are_authorized `{Runtime} (env : ProcessEnv) (fuel : nat)
    (s : Store) :
  Forall (carries ("Authorization", "Token " +:+ nullish (env !! "PAPERLESS_TOKEN") ""))
    (events (Index.program env fuel s)).
Proof.
  set (entry := ("Authorization", "Token " +:+ nullish (env !! "PAPERLESS_TOKEN") "")).
  unfold Index.program, Index.run, try_catch.
  destruct (index_main_started (CONFIG env) env fuel s)
    as [(_ & _ & ->) | (_ & ->)]; [|repeat constructor].
  set (c := {| apiKey := _ |}).
  set (s0 := {| world := world s; headersObj := initHeaders _ |}).
  assert (Hrest : keeps (In entry) (carries entry)
            (bind (Index.processDocumentPages (CONFIG env) fuel
                     (nullish (env !! "PAPERLESS_URL") "")
                     (initHeaders (nullish (env !! "PAPERLESS_TOKEN") "")))
               (Index.summarizeAll (CONFIG env) c))).
  { repeat keeps_step; [apply keeps_scanPages; now left | apply keeps_summarizeAll].
    intros h Hh. apply Headers_set_other; [discriminate | exact Hh]. }
  destruct (Hrest s0) as [_ Hev]; [now left|].
  unfold events in *.
  destruct (bind _ _ s0) as [[[?|?|] ?] t]; simpl in *; auto.
  apply Forall_app. split; [exact Hev | repeat constructor].
Qed.

(** X4. Every request the cleanup tool issues, page requests and deletions
    alike, carries the header [Authorization: Token <PAPERLESS_TOKEN>]. *)
Theorem cleanup_requests_are_authorized `{Runtime} (args : list string) (env : ProcessEnv)
    (fuel : nat) (s : Store) :
  Forall (carries ("Authorization", "Token " +:+ nullish (env !! "PAPERLESS_TOKEN") ""))
    (events (Cleanup.program args env fuel s)).
Proof.
  set (entry := ("Authorization", "Token " +:+ nullish (env !! "PAPERLESS_TOKEN") "")).
  unfold Cleanup.program, Cleanup.run.
  destruct args as [|arg0 [|arg1 args]]; try (simpl; constructor).
  destruct (negb _ && _); [simpl; constructor|].
  unfold try_catch, Cleanup.main.
  destruct (getEnvironmentVariables_cases env s) as [[c Hc] | [e He]].
  - assert (Ho : outcome (getEnvironmentVariables env s) = Return c) by now rewrite Hc.
    apply getEnvironmentVariables_returned in Ho as (-> & _ & _).
    rewrite (bind_quiet _ _ _ _ Hc). simpl apiKey. simpl paperlessUrl.
    assert (Hh : In entry (initHeaders (nullish (env !! "PAPERLESS_TOKEN") "")))
      by now left.
    match goal with
    | |- Forall _ (events (let (_, _) := ?m s in _)) =>
        assert (Hrest : emits_only (carries entry) m)
    end.
    { unfold Cleanup.findAndDeleteSummaries. prog; simpl; auto.
      - now apply carries_cleanLoop.
      - now apply carries_single. }
    specialize (Hrest s). unfold events in *.
    destruct (bind _ _ s) as [[[?|?|] ?] t]; simpl in *; auto.
    apply Forall_app. split; [exact Hrest | repeat constructor].
  - rewrite (bind_throw _ _ _ _ _ _ He). simpl. repeat constructor.
Qed.

(** ** Runs, taken apart *)

Section Effects.
Context `{Runtime}.
Variable cfg : SummarizerConfiguration.
Variable envConfig : EnvConfig.

Lemma events_bind {A B} (m : M A) (f : A -> M B) s :
  events (bind m f s)
  = events (m s)
    ++ match outcome (m s) with
       | Return a => events (f a (final (m s)))
       | _ => []
       end.
Proof.
  unfold bind, events, outcome, final.
  destruct (m s) as [[[a| e |] s1] t1]; simpl; try now rewrite app_nil_r.
  now destruct (f a s1) as [[? ?] ?].
Qed.

Lemma outcome_bind {A B} (m : M A) (f : A -> M B) s :
  outcome (bind m f s)
  = match outcome (m s) with
    | Return a => outcome (f a (final (m s)))
    | Throw e => Throw e
    | OutOfFuel => OutOfFuel
    end.
Proof.
  unfold bind, outcome, final.
  destruct (m s) as [[[a| e |] s1] t1]; simpl; try reflexivity.
  now destruct (f a s1) as [[? ?] ?].
Qed.

Lemma outcome_run {A} (o : Outcome A) (s : Store) t : outcome (o, s, t) = o.
Proof. reflexivity. Qed.

Lemma final_run {A} (o : Outcome A) (s : Store) t : final (o, s, t) = s.
Proof. reflexivity. Qed.

Lemma events_run {A} (o : Outcome A) (s : Store) t : events (o, s, t) = t.
Proof. reflexivity. Qed.

(** A request is one event, whatever comes back. *)
Lemma http_events r s : events (http r s) = [EvFetch r].
Proof.
  destruct (http_cases r s) as [(resp & s' & ->) | (e & s' & ->)]; reflexivity.
Qed.

(** [saveSummaryToFile], in terms of the file system. *)
Lemma saveSummaryToFile_output i summary savePath s :
  let r := saveSummaryToFile i summary savePath s in
  outcome r = (fileOutput i summary savePath (world s)).1
  /\ events r = (fileOutput i summary savePath (world s)).2
  /\ headersObj (final r) = headersObj s.
Proof.
  intros r. subst r. unfold fileOutput, summaryFile, outputDirectory.
  unfold saveSummaryToFile, bind, world_read, emit, world_op, ret, events, outcome, final.
  simpl.
  destruct (fs_existsSync _ _); simpl.
  - now destruct (fs_writeFileSync _ _ _) as [[?|] ?].
  - destruct (fs_mkdirSync _ _) as [[e|] w']; simpl; [auto|].
    now destruct (fs_writeFileSync _ _ _) as [[?|] ?].
Qed.

End Effects.

(** ** The effects of one document, in order *)

Section Document.
Context `{Runtime}.
Variable cfg : SummarizerConfiguration.
Variable envConfig : EnvConfig.

Lemma bind_silent {A B} (m : M A) (f : A -> M B) s a s1 :
  m s = (Return a, s1, []) -> bind m f s = f a s1.
Proof. intros Hm. unfold bind. rewrite Hm. now destruct (f a s1) as [[? ?] ?]. Qed.

(** A post that the service accepts. *)
Lemma postComment_answered baseUrl i h text s u resp posted w1 :
  URL_new (baseUrl +:+ "/documents/" +:+ Number_toString i +:+ "/notes/") = Some u ->
  fetch (noteRequest (URL_href u) h text) (world s) = (Responded resp, w1) ->
  ok resp = true ->
  json resp = inr posted ->
  postComment baseUrl i h text s
  = (Return posted, {| world := w1; headersObj := headersObj s |},
     [EvFetch (noteRequest (URL_href u) h text)]).
Proof.
  intros Hu Hf Hok Hj. unfold postComment, newURL. rewrite Hu, bind_ret.
  fold (noteRequest (URL_href u) h text).
  rewrite (bind_after _ _ _ _ _ _ (http_responded _ _ _ _ Hf)).
  rewrite Hok. simpl. unfold response_json. rewrite Hj. reflexivity.
Qed.

End Document.

(** X5. The [try] block for one document, when the document is served with
    a text, the generation completes and the post is accepted. Its effects
    come in this order: the request for the document, the generation
    request for the text of that document, the log line, the post, to the
    notes of the document and with the [Content-Type] header set, of the
    note composed from the generated summary, and, when [OUTPUT_TXT] asks
    for it, the file output: the file [<id>_summary.txt] in the output
    directory, holding the generated summary and nothing else, after the
    directory has been created when it was not there. The block returns
    when there is no file to write or the writing succeeds, and throws the
    error of the file system otherwise. *)
Theorem document_effects_in_order `{Runtime} (cfg : SummarizerConfiguration)
    (envConfig : EnvConfig) (i : Z) (s : Store) (resp : Response) (parsed : JsonBody)
    (w1 : World) (text : string) (chunks : list string) (w2 : World) (u : URL)
    (resp' : Response) (posted : JsonBody) (w3 : World) :
  fetch (documentRequest envConfig i (headersObj s)) (world s) = (Responded resp, w1) ->
  ok resp = true ->
  json resp = inr parsed ->
  content (as_document parsed) = Some text ->
  text <> "" ->
  ollama_generate (generateRequest cfg text) w1
    = (inr {| parts := chunks; failure := None |}, w2) ->
  URL_new (paperlessUrl envConfig +:+ "/documents/" +:+ Number_toString i +:+ "/notes/")
    = Some u ->
  let h' := Headers_set "Content-Type" "application/json" (headersObj s) in
  let post := noteRequest (URL_href u) h' (Index.summaryNote cfg (join chunks)) in
  fetch post w2 = (Responded resp', w3) ->
  ok resp' = true ->
  json resp' = inr posted ->
  let d := Index.summarizeDocument cfg envConfig i s in
  let files :=
    if truthy (saveTxtSummary envConfig)
    then fileOutput i (join chunks) (saveTxtPath envConfig) w3
    else (Return tt, []) in
  postsNote cfg post (join chunks)
  /\ outcome d = files.1
  /\ events d
     = [ EvFetch (documentRequest envConfig i (headersObj s));
         EvGenerate (generateRequest cfg text);
         EvLog (PostingSummary i);
         EvFetch post ] ++ files.2
  /\ headersObj (final d) = h'.
Proof.
  intros Hf Hok Hj Hc Ht Hg Hu h' post Hp Hok' Hj' d files.
  split; [now apply summaryNote_posted|].
  subst d. unfold Index.summarizeDocument.
  rewrite (bind_quiet _ _ s (headersObj s)) by reflexivity.
  rewrite (bind_after _ _ _ _ _ _ (fetchDocument_answered _ _ _ _ _ _ Hf Hok Hj)).
  rewrite Hc, truthy_Some, (truthy_nonempty _ Ht). change (negb true) with false.
  cbv iota. simpl nullish.
  rewrite (bind_after _ _ _ _ _ _
             (summarizeText_complete cfg text false
                {| world := w1; headersObj := headersObj s |} chunks w2 Hg)).
  set (s2 := {| world := w2; headersObj := headersObj s |}).
  rewrite (bind_quiet _ _ s2 (headersObj s)) by reflexivity.
  fold h'. set (s3 := {| world := w2; headersObj := h' |}).
  rewrite (bind_silent _ _ s2 tt s3) by reflexivity.
  rewrite (bind_after _ _ s3 tt s3 [EvLog (PostingSummary i)]) by reflexivity.
  rewrite (bind_quiet _ _ s3 h') by reflexivity.
  rewrite (bind_after _ _ _ _ _ _
             (postComment_answered (paperlessUrl envConfig) i h'
                (Index.summaryNote cfg (join chunks)) s3 u resp' posted w3 Hu Hp Hok' Hj')).
  fold post. unfold after. rewrite !outcome_run, !events_run, !final_run.
  subst files. destruct (truthy (saveTxtSummary envConfig)).
  - destruct (saveSummaryToFile_output i (join chunks) (saveTxtPath envConfig)
                {| world := w3; headersObj := headersObj s3 |}) as (Ho & He & Hh).
    cbv zeta in Ho, He, Hh. simpl world in Ho, He. rewrite Ho, He, Hh.
    repeat split; reflexivity.
  - repeat split; reflexivity.
Qed.

Lemma document_effects_in_order_witness :
  let d := @Index.summarizeDocument Fixture.paperless Fixture.defaults Fixture.environment
             42 Fixture.start in
  let h' := [("Content-Type", "application/json")] in
  let post := noteRequest (Fixture.notesUrl 42) h'
                (Index.summaryNote Fixture.defaults "Summary") in
  postsNote Fixture.defaults post "Summary"
  /\ outcome d = Return tt
  /\ events d
     = [ EvFetch (@documentRequest Fixture.environment 42 []);
         EvGenerate (generateRequest Fixture.defaults "hello world");
         EvLog (PostingSummary 42);
         EvFetch post;
         EvWriteFile "out/42_summary.txt" "Summary" ]
  /\ headersObj (final d) = h'.
Proof.
  intros d h' post.
  exact (@document_effects_in_order Fixture.paperless Fixture.defaults Fixture.environment
           42 Fixture.start (Fixture.mkContent 42 (Some "hello world"))
           (JDocument {| content := Some "hello world"; created := None; id := Some 42;
                         title := None; notes := None |})
           tt "hello world" ["Sum"; "mary"] tt (Fixture.notesUrl 42)
           {| status := 201; statusText := "Created"; json := inr JOther |} JOther tt
           eq_refl eq_refl eq_refl eq_refl ltac:(discriminate) eq_refl eq_refl
           eq_refl eq_refl eq_refl).
Defined.

(** ** Start-up and the file output *)

Section Start.
Context `{Runtime}.

Lemma getEnvironmentVariables_missing env s :
  nullish (env !! "PAPERLESS_TOKEN") "" = "" \/ nullish (env !! "PAPERLESS_URL") "" = "" ->
  getEnvironmentVariables env s = (Throw (newError ERR_MISSING_ENV_VARIABLES), s, []).
Proof.
  intros Hm. unfold getEnvironmentVariables, validateEnvironmentVariables.
  rewrite !truthy_Some.
  destruct Hm as [-> | ->]; [reflexivity|].
  now destruct (truthy (nullish _ _)).
Qed.

Lemma getEnvironmentVariables_present env s :
  nullish (env !! "PAPERLESS_TOKEN") "" <> "" ->
  nullish (env !! "PAPERLESS_URL") "" <> "" ->
  getEnvironmentVariables env s
  = (Return {| apiKey := nullish (env !! "PAPERLESS_TOKEN") "";
               paperlessUrl := nullish (env !! "PAPERLESS_URL") "";
               saveTxtSummary := Some (outputTxtFlag env);
               saveTxtPath := Some (nullish (env !! "OUTPUT_PATH") "") |}, s, []).
Proof.
  intros Ht Hu. unfold getEnvironmentVariables, validateEnvironmentVariables.
  rewrite !truthy_Some, (truthy_nonempty _ Ht), (truthy_nonempty _ Hu). reflexivity.
Qed.

(** Without [OUTPUT_TXT] the [try] block writes no file. *)
Lemma noFileOutput_document cfg c i :
  truthy (saveTxtSummary c) = false ->
  emits_only noFileOutput (Index.summarizeDocument cfg c i).
Proof.
  intros Hc.
  unfold Index.summarizeDocument, fetchDocument, Index.summarizeText, postComment.
  rewrite Hc. prog; simpl; auto using emits_consume_silent.
Qed.

End Start.

(** X6. When [PAPERLESS_TOKEN] or [PAPERLESS_URL] is not set, or is set to
    the empty string, neither tool issues a request or touches anything.
    The summarizer reports the error of [validateEnvironmentVariables] on
    the console and ends; so does the cleanup tool, and it does so before
    it looks at the service URL or at the sign of its argument, unless the
    argument is no number at all, which the module rejects first. *)
Theorem missing_environment_stops_both_tools `{Runtime} (env : ProcessEnv) (fuel : nat)
    (s : Store) :
  nullish (env !! "PAPERLESS_TOKEN") "" = "" \/ nullish (env !! "PAPERLESS_URL") "" = "" ->
  let report := [EvError (Uncaught (newError ERR_MISSING_ENV_VARIABLES))] in
  Index.program env fuel s = (Return tt, s, report)
  /\ forall arg,
       Cleanup.program [arg] env fuel s
       = if negb (String.eqb arg "all") && isNaN (parseInt arg (Some 10))
         then (Throw (newError "Usage: node script.js <all|number>"), s, [])
         else (Return tt, s, report).
Proof.
  intros Hm report. split.
  - unfold Index.program, Index.run, Index.main, try_catch.
    rewrite (bind_throw _ _ _ _ _ _ (getEnvironmentVariables_missing env s Hm)).
    reflexivity.
  - intros arg. unfold Cleanup.program, Cleanup.run.
    destruct (negb (String.eqb arg "all") && isNaN (parseInt arg (Some 10)));
      [reflexivity|].
    unfold Cleanup.main, try_catch.
    rewrite (bind_throw _ _ _ _ _ _ (getEnvironmentVariables_missing env s Hm)).
    reflexivity.
Qed.

Lemma missing_environment_stops_both_tools_witness :
  let env : ProcessEnv := {[ "PAPERLESS_TOKEN" := ""; "PAPERLESS_URL" := Fixture.base ]} in
  @Index.program Fixture.paperless env 5 Fixture.start
  = (Return tt, Fixture.start, [EvError (Uncaught (newError ERR_MISSING_ENV_VARIABLES))])
  /\ @Cleanup.program Fixture.paperless ["0"] env 5 Fixture.start
     = (Return tt, Fixture.start, [EvError (Uncaught (newError ERR_MISSING_ENV_VARIABLES))]).
Proof.
  intros env.
  destruct (@missing_environment_stops_both_tools Fixture.paperless env 5 Fixture.start)
    as [Hi Hc]; [left; reflexivity|].
  split; [exact Hi | exact (Hc "0")].
Defined.

(** X7. When [OUTPUT_TXT] is unset, is no number or is 0, the summarizer
    creates no directory and writes no file, whatever else happens. *)
Theorem no_file_output_unless_requested `{Runtime} (env : ProcessEnv) (fuel : nat)
    (s : Store) :
  outputTxtFlag env = 0 ->
  Forall noFileOutput (events (Index.program env fuel s)).
Proof.
  intros Hflag. unfold Index.program, Index.run.
  assert (He : emits_only noFileOutput
                 (try_catch (Index.main (CONFIG env) env fuel)
                    (fun error => console_error (Uncaught error)))); [|apply He].
  prog; simpl; auto. intros s'.
  destruct (index_main_started (CONFIG env) env fuel s') as [(_ & _ & ->) | [_ ->]];
    [|constructor].
  match goal with
  | |- Forall _ (events (?m ?s0)) => generalize s0; change (emits_only noFileOutput m)
  end.
  unfold Index.processDocumentPages. prog.
  - apply emits_scanPages; simpl; auto.
  - apply emits_summarizeAll; simpl; auto.
    intros i. apply noFileOutput_document. simpl. now rewrite truthy_Some, Hflag.
Qed.

Lemma no_file_output_unless_requested_witness :
  Forall noFileOutput
    (events (@Index.program Fixture.paperless Fixture.processEnv 5 Fixture.start)).
Proof.
  apply (@no_file_output_unless_requested Fixture.paperless Fixture.processEnv 5 Fixture.start).
  reflexivity.
Defined.

(** ** What the cleanup deletes *)

Section Deletions.
Context `{Runtime}.
Variable cfg : SummarizerConfiguration.

Lemma events_try_catch {A} (m : M A) (h : Error -> M A) s :
  events (try_catch m h s)
  = events (m s)
    ++ match outcome (m s) with
       | Throw e => events (h e (final (m s)))
       | _ => []
       end.
Proof.
  unfold try_catch, events, outcome, final.
  destruct (m s) as [[[a| e |] s1] t1]; simpl; try now rewrite app_nil_r.
  now destruct (h e s1) as [[? ?] ?].
Qed.

Lemma outcome_try_catch {A} (m : M A) (h : Error -> M A) s :
  outcome (try_catch m h s)
  = match outcome (m s) with
    | Throw e => outcome (h e (final (m s)))
    | other => other
    end.
Proof.
  unfold try_catch, outcome, final.
  destruct (m s) as [[[a| e |] s1] t1]; simpl; try reflexivity.
  now destruct (h e s1) as [[? ?] ?].
Qed.

Lemma fetches_bind {A B} (m : M A) (f : A -> M B) s :
  fetches (events (bind m f s))
  = fetches (events (m s))
    ++ match outcome (m s) with
       | Return a => fetches (events (f a (final (m s))))
       | _ => []
       end.
Proof. rewrite events_bind, fetches_app. now destruct (outcome (m s)). Qed.

(** One deletion is one request, or none when the URL is refused. *)
Lemma deleteComment_events baseUrl documentId noteId headers s :
  events (deleteComment baseUrl documentId noteId headers s)
  = match deletionRequest baseUrl headers documentId noteId with
    | Some q => [EvFetch q]
    | None => []
    end.
Proof.
  unfold deleteComment, deletionRequest, notesEndpoint, newURL.
  destruct (URL_new _) as [u|]; [|reflexivity].
  rewrite bind_ret, events_bind, http_events.
  destruct (outcome (http _ _)) as [resp| |]; try reflexivity.
  now destruct (negb (ok resp)).
Qed.

Lemma option_list_fetch (o : option Request) :
  fetches match o with Some q => [EvFetch q] | None => [] end = option_list o.
Proof. now destruct o. Qed.

Lemma deletion_fetches baseUrl documentId noteId headers s :
  fetches (events ((deleteComment baseUrl documentId noteId headers ;; ret tt) s))
  = option_list (deletionRequest baseUrl headers documentId noteId).
Proof.
  rewrite fetches_bind, deleteComment_events, option_list_fetch.
  destruct (outcome _); apply app_nil_r.
Qed.

(** The deletions of one document of a page: one request for each marked
    note the URL can be built for. *)
Lemma deleteSummaryNotes_fetches baseUrl headers documentId marked s :
  fetches (events (Cleanup.deleteSummaryNotes baseUrl headers documentId marked s))
  = omap (fun n => deletionRequest baseUrl headers documentId (note_id n)) marked.
Proof.
  revert s; induction marked as [|n marked IH]; intros s; [reflexivity|].
  simpl Cleanup.deleteSummaryNotes. rewrite fetches_bind.
  assert (Hr : returns
            (try_catch
               (console_log (DeletingNote (note_id n) documentId) ;;
                deleteComment baseUrl documentId (note_id n) headers ;; ret tt)
               (fun error => console_error (ErrorDeletingNote (note_id n) error))))
    by (prog; apply halts_deleteComment).
  destruct (Hr s) as [[] ->]. rewrite IH.
  rewrite events_try_catch, fetches_app.
  rewrite (bind_after _ _ s tt s [EvLog (DeletingNote (note_id n) documentId)])
    by reflexivity.
  unfold after at 1. change (events (?o, ?f, ?t)) with t.
  change (fetches ([EvLog ?m] ++ ?t)) with (fetches t).
  rewrite deletion_fetches.
  replace (fetches match outcome _ with
                   | Throw e => events (console_error (ErrorDeletingNote (note_id n) e) _)
                   | _ => []
                   end) with (@nil Request) by now destruct (outcome _).
  rewrite app_nil_r. simpl omap.
  now destruct (deletionRequest baseUrl headers documentId (note_id n)).
Qed.

Lemma cleanDocuments_fetches baseUrl headers docs s :
  fetches (events (Cleanup.cleanDocuments cfg baseUrl headers docs s))
  = pageDeletions cfg baseUrl headers docs.
Proof.
  revert s; induction docs as [|d docs IH]; intros s; [reflexivity|].
  simpl Cleanup.cleanDocuments. rewrite fetches_bind.
  unfold pageDeletions at 1. simpl flat_map. fold (pageDeletions cfg baseUrl headers docs).
  unfold summaryNotesOf.
  destruct (truthy (id d)).
  2: { cbn [negb orb andb]. simpl. apply IH. }
  rewrite !truthy_array_eq.
  destruct (notes d) as [ns|] eqn:Hn; cbn [negb orb andb isArray nullish].
  - rewrite deleteSummaryNotes_fetches.
    destruct (returns_deleteSummaryNotes baseUrl headers (id d)
                (List.filter (Cleanup.isSummaryNote cfg) ns) s) as [[] ->].
    now rewrite IH.
  - simpl. apply IH.
Qed.


End Deletions.

(** X8. The cleanup of the documents of one page asks for the deletion of
    each note that carries the marker, of each document that has an id and
    notes, once, in the order of the page and of the notes, and returns:
    whatever the service answers to a deletion, the others are issued all
    the same. *)
Theorem page_cleanup_deletes_each_summary_note `{Runtime} (cfg : SummarizerConfiguration)
    (baseUrl : string) (headers : Headers) (docs : list PaperlessDocument) (s : Store) :
  let r := Cleanup.cleanDocuments cfg baseUrl headers docs s in
  outcome r = Return tt
  /\ fetches (events r) = pageDeletions cfg baseUrl headers docs.
Proof.
  intros r. subst r. split; [|apply cleanDocuments_fetches].
  now rewrite cleanDocuments_run.
Qed.

Section SingleDocument.
Context `{Runtime}.
Variable cfg : SummarizerConfiguration.

(** The single-document cleanup up to the answer to its request. *)
Lemma single_started paperlessUrl documentId headers s u :
  URL_new (notesEndpoint paperlessUrl documentId) = Some u ->
  let d := fetchDocument (URL_href u) headers s in
  Cleanup.deleteAiNotesAtDocument cfg paperlessUrl documentId headers s
  = match outcome d with
    | Return parsed =>
        match as_notes parsed with
        | Some notes =>
            after ([EvLog (CheckingForAiNotes documentId)] ++ events d
                   ++ [EvLog (FoundNotes (length notes) documentId)])
              (Cleanup.deleteAiNotes paperlessUrl headers documentId
                 (List.filter (Cleanup.noteHasMarker cfg) notes) (final d))
        | None =>
            (Throw (newError ("Unexpected data format for notes at document ID "
                              +:+ numberText documentId)),
             final d, [EvLog (CheckingForAiNotes documentId)] ++ events d)
        end
    | Throw e =>
        (Return tt, final d,
         [EvLog (CheckingForAiNotes documentId)] ++ events d
         ++ [EvError (FailedToFetchNotes documentId e)])
    | OutOfFuel => (OutOfFuel, final d, [EvLog (CheckingForAiNotes documentId)] ++ events d)
    end.
Proof.
  intros Hu d. unfold Cleanup.deleteAiNotesAtDocument, newURL.
  unfold notesEndpoint in Hu. rewrite Hu, bind_ret.
  rewrite (bind_after _ _ s tt s [EvLog (CheckingForAiNotes documentId)]) by reflexivity.
  subst d. destruct (fetchDocument (URL_href u) headers s) as [[[parsed| e |] s1] t1] eqn:Rd.
  - assert (Ht : try_catch (let* b := fetchDocument (URL_href u) headers in ret (Some b))
                   (fun error => console_error (FailedToFetchNotes documentId error) ;;
                                 ret None) s
                 = (Return (Some parsed), s1, t1)).
    { unfold try_catch. rewrite (bind_after _ _ _ _ _ _ Rd). unfold after, ret. simpl.
      now rewrite app_nil_r. }
    rewrite (bind_after _ _ _ _ _ _ Ht).
    change (outcome (Return parsed, s1, t1)) with (Return parsed). cbv iota.
    change (final (Return parsed, s1, t1)) with s1.
    change (events (Return parsed, s1, t1)) with t1.
    destruct (as_notes parsed) as [notes|].
    + rewrite (bind_after _ _ s1 tt s1 [EvLog (FoundNotes (length notes) documentId)])
        by reflexivity.
      unfold after. simpl. now rewrite <- !app_assoc.
    + unfold after, throw. simpl. now rewrite app_nil_r.
  - assert (Ht : try_catch (let* b := fetchDocument (URL_href u) headers in ret (Some b))
                   (fun error => console_error (FailedToFetchNotes documentId error) ;;
                                 ret None) s
                 = (Return None, s1, t1 ++ [EvError (FailedToFetchNotes documentId e)])).
    { unfold try_catch. rewrite (bind_throw _ _ _ _ _ _ Rd). reflexivity. }
    rewrite (bind_after _ _ _ _ _ _ Ht). unfold after, ret. simpl.
    now rewrite app_nil_r.
  - assert (Ht : try_catch (let* b := fetchDocument (URL_href u) headers in ret (Some b))
                   (fun error => console_error (FailedToFetchNotes documentId error) ;;
                                 ret None) s
                 = (OutOfFuel, s1, t1)).
    { unfold try_catch. now rewrite (bind_out_of_fuel _ _ _ _ _ Rd). }
    rewrite (bind_out_of_fuel _ _ _ _ _ Ht). reflexivity.
Qed.

End SingleDocument.



(** X10. When the request for the notes of the single document fails, by a
    status that is not OK, the tool logs that and returns without deleting
    anything: the failure does not reach the caller. *)
Theorem single_cleanup_swallows_fetch_failure `{Runtime} (cfg : SummarizerConfiguration)
    (paperlessUrl : string) (documentId : option Z) (headers : Headers) (s : Store)
    (u : URL) (resp : Response) (w1 : World) :
  URL_new (notesEndpoint paperlessUrl documentId) = Some u ->
  fetch (pageRequest headers false (URL_href u)) (world s) = (Responded resp, w1) ->
  ok resp = false ->
  Cleanup.deleteAiNotesAtDocument cfg paperlessUrl documentId headers s
  = (Return tt, {| world := w1; headersObj := headersObj s |},
     [ EvLog (CheckingForAiNotes documentId);
       EvFetch (pageRequest headers false (URL_href u));
       EvError (FailedToFetchNotes documentId
                  (newError ("Failed to fetch document: " +:+ statusText resp))) ]).
Proof.
  intros Hu Hf Hok. rewrite (single_started cfg _ _ _ _ _ Hu). cbv zeta.
  unfold fetchDocument.
  rewrite (bind_after _ _ _ _ _ _ (http_responded _ _ _ _ Hf)), Hok.
  reflexivity.
Qed.

Lemma single_cleanup_swallows_fetch_failure_witness :
  @Cleanup.deleteAiNotesAtDocument Bench.desk Fixture.defaults Fixture.base
    (Some 9) (initHeaders "secret") Bench.start
  = (Return tt, Bench.start,
     [ EvLog (CheckingForAiNotes (Some 9));
       EvFetch (pageRequest (initHeaders "secret") false (Fixture.notesUrl 9));
       EvError (FailedToFetchNotes (Some 9)
                  (newError "Failed to fetch document: Not Found")) ]).
Proof.
  apply (@single_cleanup_swallows_fetch_failure Bench.desk Fixture.defaults Fixture.base
           (Some 9) (initHeaders "secret") Bench.start (Fixture.notesUrl 9)
           {| status := 404; statusText := "Not Found"; json := inr JOther |} tt);
    reflexivity.
Defined.

(** X11. When the service answers the request for the notes of the single
    document with something that is no array, the tool throws, with the
    document id in the message, and deletes nothing. *)
Theorem single_cleanup_rejects_non_array `{Runtime} (cfg : SummarizerConfiguration)
    (paperlessUrl : string) (documentId : option Z) (headers : Headers) (s : Store)
    (u : URL) (resp : Response) (parsed : JsonBody) (w1 : World) :
  URL_new (notesEndpoint paperlessUrl documentId) = Some u ->
  fetch (pageRequest headers false (URL_href u)) (world s) = (Responded resp, w1) ->
  ok resp = true ->
  json resp = inr parsed ->
  as_notes parsed = None ->
  Cleanup.deleteAiNotesAtDocument cfg paperlessUrl documentId headers s
  = (Throw (newError ("Unexpected data format for notes at document ID "
                      +:+ numberText documentId)),
     {| world := w1; headersObj := headersObj s |},
     [ EvLog (CheckingForAiNotes documentId);
       EvFetch (pageRequest headers false (URL_href u)) ]).
Proof.
  intros Hu Hf Hok Hj Hn. rewrite (single_started cfg _ _ _ _ _ Hu). cbv zeta.
  rewrite (fetchDocument_answered _ _ _ _ _ _ Hf Hok Hj).
  rewrite outcome_run, final_run, events_run, Hn.
  reflexivity.
Qed.

Lemma single_cleanup_rejects_non_array_witness :
  @Cleanup.deleteAiNotesAtDocument Bench.desk Fixture.defaults Fixture.base
    (Some 5) (initHeaders "secret") Bench.start
  = (Throw (newError "Unexpected data format for notes at document ID 5"), Bench.start,
     [ EvLog (CheckingForAiNotes (Some 5));
       EvFetch (pageRequest (initHeaders "secret") false (Fixture.notesUrl 5)) ]).
Proof.
  apply (@single_cleanup_rejects_non_array Bench.desk Fixture.defaults Fixture.base
           (Some 5) (initHeaders "secret") Bench.start (Fixture.notesUrl 5)
           {| status := 200; statusText := "OK"; json := inr JOther |} JOther tt);
    reflexivity.
Defined.

(** ** The all-mode crawl *)

Section Crawl.
Context `{Runtime}.
Variable cfg : SummarizerConfiguration.

Lemma followUp_nonempty (p : PaperlessSearchResult) u : followUp p = Some u -> u <> "".
Proof.
  unfold followUp. destruct (next p) as [v|]; [|discriminate].
  destruct v; simpl; [discriminate|]. now intros [= <-].
Qed.

Lemma cleanLoop_done fuel baseUrl headers s :
  Cleanup.cleanLoop cfg fuel baseUrl headers None s = (Return tt, s, []).
Proof. now destruct fuel. Qed.

Lemma cleanPage_rejected baseUrl headers pageUrl s e w1 :
  fetch (pageRequest headers true pageUrl) (world s) = (Rejected e, w1) ->
  Cleanup.cleanPage cfg baseUrl headers pageUrl s
  = (Throw e, {| world := w1; headersObj := headersObj s |},
     [EvFetch (pageRequest headers true pageUrl)]).
Proof.
  intros Hf. unfold Cleanup.cleanPage.
  now rewrite (bind_throw _ _ _ _ _ _ (http_rejected _ _ _ _ Hf)).
Qed.

(** The loop on a page whose [try] block throws. *)
Lemma cleanLoop_thrown fuel baseUrl headers pageUrl s e s1 t1 :
  pageUrl <> "" ->
  Cleanup.cleanPage cfg baseUrl headers pageUrl s = (Throw e, s1, t1) ->
  Cleanup.cleanLoop cfg (S fuel) baseUrl headers (Some pageUrl) s
  = if String.eqb (name e) "AbortError"
    then after (t1 ++ [EvError RequestTimeout])
           (Cleanup.cleanLoop cfg fuel baseUrl headers (Some pageUrl) s1)
    else (Throw e, s1, t1).
Proof.
  intros Hu Hp. simpl. rewrite truthy_Some, (truthy_nonempty _ Hu).
  change (negb true) with false. cbv iota. simpl nullish.
  destruct (String.eqb (name e) "AbortError") eqn:Hn.
  - rewrite (bind_after _ _ s (Cleanup.Continue (Some pageUrl)) s1
               (t1 ++ [EvError RequestTimeout])); [reflexivity|].
    unfold try_catch. rewrite Hp, Hn. reflexivity.
  - apply bind_throw. unfold try_catch. rewrite Hp, Hn. unfold throw.
    now rewrite app_nil_r.
Qed.

(** The loop over a listing that is served in full. *)
Lemma crawl_run baseUrl headers pages :
  forall fuel url s s',
    cleans cfg baseUrl headers s url pages s' ->
    url <> "" ->
    (length pages <= fuel)%nat ->
    let r := Cleanup.cleanLoop cfg fuel baseUrl headers (Some url) s in
    outcome r = Return tt /\ final r = s'
    /\ fetches (events r)
       = flat_map
           (fun p => pageRequest headers true p.1
                     :: pageDeletions cfg baseUrl headers (nullish (results p.2) []))
           pages.
Proof.
    induction pages as [|[u0 p0] pages IH]; intros fuel url s s' Hc Hu Hfuel;
    [inversion Hc|].
  destruct fuel as [|fuel]; [simpl in Hfuel; lia|]. simpl in Hfuel.
  inversion Hc as [s0 url0 resp parsed w1 docs Hf Hok Hj Hres Hfollow
                  |s0 url0 resp parsed w1 docs u rest s0' Hf Hok Hj Hres Hfollow Hstart Hrest];
    subst.
  - pose proof (cleanPage_results cfg baseUrl headers u0 s resp parsed w1 docs
                  Hf Hok Hj Hres) as Hpage.
    cbv zeta in Hpage. rewrite Hfollow in Hpage.
    rewrite (@truthy_None string _) in Hpage. simpl andb in Hpage. cbv iota in Hpage.
    cbv zeta. rewrite (cleanLoop_step cfg fuel baseUrl headers u0 s _ _ _ Hu Hpage).
    rewrite cleanLoop_done. unfold after.
    rewrite outcome_run, final_run, events_run, app_nil_r.
    split; [reflexivity|]. split; [reflexivity|].
    simpl flat_map. rewrite Hres. simpl nullish.
    rewrite app_nil_r, !fetches_app, cleanDocuments_fetches.
    change (fetches [EvLog ?m]) with (@nil Request). now rewrite app_nil_r.
  - pose proof (cleanPage_results cfg baseUrl headers u0 s resp parsed w1 docs
                  Hf Hok Hj Hres) as Hpage.
    cbv zeta in Hpage. rewrite Hfollow in Hpage. simpl nullish in Hpage.
    rewrite Hstart in Hpage. rewrite andb_false_r in Hpage.
    cbv zeta. rewrite (cleanLoop_step cfg fuel baseUrl headers u0 s _ _ _ Hu Hpage).
    destruct (IH fuel u _ s' Hrest (followUp_nonempty _ _ Hfollow)) as (Ho & Hs & Hq);
      [lia|].
    unfold after. rewrite outcome_run, final_run, events_run.
    split; [exact Ho|]. split; [exact Hs|].
    rewrite !fetches_app, Hq, cleanDocuments_fetches.
    simpl flat_map. rewrite Hres. simpl nullish.
      change (fetches [EvLog ?m]) with (@nil Request). rewrite app_nil_r.
    simpl. reflexivity.
Qed.

Lemma omap_all {A B} (f : A -> option B) (g : A -> B) l :
  (forall a, f a = Some (g a)) -> omap f l = map g l.
Proof.
  intros Hf. induction l as [|a l IH]; [reflexivity|].
  simpl. rewrite Hf. simpl. f_equal. exact IH.
Qed.

(** Where the URL of the notes can be built, every summary note gets its
    request. *)
Lemma pageDeletions_all baseUrl headers notesUrl docs :
  (forall documentId,
      URL_new (notesEndpoint baseUrl documentId) = Some (notesUrl documentId)) ->
  pageDeletions cfg baseUrl headers docs = crawlDeletions cfg notesUrl headers docs.
Proof.
  intros Hurl. unfold pageDeletions, crawlDeletions.
  induction docs as [|d docs IH]; [reflexivity|]. simpl. rewrite IH. f_equal.
  apply omap_all. intros n. unfold deletionRequest. now rewrite Hurl.
Qed.

Lemma seed_nonempty (baseUrl : string) : baseUrl +:+ "/documents/?ordering=-id" <> "".
Proof. destruct baseUrl; discriminate. Qed.

End Crawl.

(** X12. A page request of the all-mode crawl that is aborted by the
    timeout is logged, and the loop asks for the same page again: no page
    is skipped, and nothing bounds the number of attempts. *)
Theorem cleanup_retries_after_timeout `{Runtime} (cfg : SummarizerConfiguration)
    (fuel : nat) (baseUrl : string) (headers : Headers) (pageUrl : string) (s : Store)
    (e : Error) (w1 : World) :
  pageUrl <> "" ->
  fetch (pageRequest headers true pageUrl) (world s) = (Rejected e, w1) ->
  name e = "AbortError" ->
  Cleanup.cleanLoop cfg (S fuel) baseUrl headers (Some pageUrl) s
  = after [EvFetch (pageRequest headers true pageUrl); EvError RequestTimeout]
      (Cleanup.cleanLoop cfg fuel baseUrl headers (Some pageUrl)
         {| world := w1; headersObj := headersObj s |}).
Proof.
  intros Hu Hf Hn.
  rewrite (cleanLoop_thrown cfg fuel baseUrl headers pageUrl s _ _ _ Hu
             (cleanPage_rejected cfg baseUrl headers pageUrl s e w1 Hf)).
  now rewrite Hn.
Qed.

Lemma cleanup_retries_after_timeout_witness :
  let h := initHeaders "secret" in
  let s := @Fixture.store0 Bench.slow tt in
  @Cleanup.cleanLoop Bench.slow Fixture.defaults 2 Fixture.base h (Some Fixture.seed) s
  = (OutOfFuel, s,
     [ EvFetch (pageRequest h true Fixture.seed); EvError RequestTimeout;
       EvFetch (pageRequest h true Fixture.seed); EvError RequestTimeout ]).
Proof.
  intros h s.
  rewrite (@cleanup_retries_after_timeout Bench.slow Fixture.defaults 1 Fixture.base h
             Fixture.seed s Bench.abortError tt); [|discriminate|reflexivity|reflexivity].
  rewrite (@cleanup_retries_after_timeout Bench.slow Fixture.defaults 0 Fixture.base h
             Fixture.seed _ Bench.abortError tt); [|discriminate|reflexivity|reflexivity].
  reflexivity.
Defined.

(** X13. A page of the all-mode crawl that is answered with a status that
    is not OK ends the tool with an error that carries the status text; the
    crawl does not go on, and nothing of that page is deleted. *)
Theorem cleanup_fails_on_error_status `{Runtime} (cfg : SummarizerConfiguration)
    (fuel : nat) (baseUrl : string) (headers : Headers) (pageUrl : string) (s : Store)
    (resp : Response) (w1 : World) :
  pageUrl <> "" ->
  fetch (pageRequest headers true pageUrl) (world s) = (Responded resp, w1) ->
  ok resp = false ->
  Cleanup.cleanLoop cfg (S fuel) baseUrl headers (Some pageUrl) s
  = (Throw (newError ("Fehler bei der Suchanfrage: " +:+ statusText resp)),
     {| world := w1; headersObj := headersObj s |},
     [EvFetch (pageRequest headers true pageUrl)]).
Proof.
  intros Hu Hf Hok.
  assert (Hp : Cleanup.cleanPage cfg baseUrl headers pageUrl s
               = (Throw (newError ("Fehler bei der Suchanfrage: " +:+ statusText resp)),
                  {| world := w1; headersObj := headersObj s |},
                  [EvFetch (pageRequest headers true pageUrl)])).
  { unfold Cleanup.cleanPage.
    rewrite (bind_after _ _ _ _ _ _ (http_responded _ _ _ _ Hf)), Hok. reflexivity. }
  rewrite (cleanLoop_thrown cfg fuel baseUrl headers pageUrl s _ _ _ Hu Hp).
  reflexivity.
Qed.

Lemma cleanup_fails_on_error_status_witness :
  let h := initHeaders "secret" in
  @Cleanup.cleanLoop Bench.desk Fixture.defaults 3 Fixture.base h (Some Fixture.page2)
    Bench.start
  = (Throw (newError "Fehler bei der Suchanfrage: Bad Gateway"), Bench.start,
     [EvFetch (pageRequest h true Fixture.page2)]).
Proof.
  intros h.
  apply (@cleanup_fails_on_error_status Bench.desk Fixture.defaults 2 Fixture.base h
           Fixture.page2 Bench.start
           {| status := 502; statusText := "Bad Gateway"; json := inr JOther |} tt);
    [discriminate | reflexivity | reflexivity].
Defined.

(** X14. A page of the all-mode crawl whose body cannot be parsed ends the
    crawl without an error: the failure is logged and the function returns,
    with no deletion on that page and no further request. *)
Theorem cleanup_stops_on_unparsable_page `{Runtime} (cfg : SummarizerConfiguration)
    (fuel : nat) (baseUrl : string) (headers : Headers) (pageUrl : string) (s : Store)
    (resp : Response) (e : Error) (w1 : World) :
  pageUrl <> "" ->
  fetch (pageRequest headers true pageUrl) (world s) = (Responded resp, w1) ->
  ok resp = true ->
  json resp = inl e ->
  Cleanup.cleanLoop cfg (S fuel) baseUrl headers (Some pageUrl) s
  = (Return tt, {| world := w1; headersObj := headersObj s |},
     [EvFetch (pageRequest headers true pageUrl); EvError (FailedToParseJson e)]).
Proof.
  intros Hu Hf Hok Hj.
  assert (Hp : Cleanup.cleanPage cfg baseUrl headers pageUrl s
               = (Return Cleanup.FunctionReturn,
                  {| world := w1; headersObj := headersObj s |},
                  [EvFetch (pageRequest headers true pageUrl);
                   EvError (FailedToParseJson e)])).
  { unfold Cleanup.cleanPage.
    rewrite (bind_after _ _ _ _ _ _ (http_responded _ _ _ _ Hf)), Hok, Hj. reflexivity. }
  now rewrite (cleanLoop_step cfg fuel baseUrl headers pageUrl s _ _ _ Hu Hp).
Qed.

Lemma cleanup_stops_on_unparsable_page_witness :
  let h := initHeaders "secret" in
  let s := @Fixture.store0 Bench.garbled tt in
  @Cleanup.cleanLoop Bench.garbled Fixture.defaults 3 Fixture.base h (Some Fixture.seed) s
  = (Return tt, s,
     [EvFetch (pageRequest h true Fixture.seed); EvError (FailedToParseJson Bench.syntaxError)]).
Proof.
  intros h s.
  apply (@cleanup_stops_on_unparsable_page Bench.garbled Fixture.defaults 2 Fixture.base h
           Fixture.seed s
           {| status := 200; statusText := "OK"; json := inl Bench.syntaxError |}
           Bench.syntaxError tt);
    [discriminate | reflexivity | reflexivity | reflexivity].
Defined.

(** X15. The all-mode cleanup [findAndDeleteSummaries], with a marker that
    is not empty, over a listing that is served in full (each page with its
    [results], each [next] under the base URL and the last page without
    one), where the URL of the notes of every document can be built: it
    returns, and its requests are, page after page, the request for the
    page followed by one deletion for each summary note of the page's
    documents; the documents of a page are cleaned before the next page is
    asked for. *)
Theorem cleanup_crawls_the_listing `{Runtime} (cfg : SummarizerConfiguration)
    (fuel : nat) (baseUrl : string) (headers : Headers) (notesUrl : option Z -> URL)
    (pages : list (string * PaperlessSearchResult)) (s s' : Store) :
  SUMMARY_MARKER cfg <> "" ->
  (forall documentId,
      URL_new (notesEndpoint baseUrl documentId) = Some (notesUrl documentId)) ->
  cleans cfg baseUrl headers s (baseUrl +:+ "/documents/?ordering=-id") pages s' ->
  (length pages <= fuel)%nat ->
  let r := Cleanup.findAndDeleteSummaries cfg fuel baseUrl headers s in
  outcome r = Return tt
  /\ final r = s'
  /\ fetches (events r) = crawlRequests cfg notesUrl headers pages.
Proof.
  intros Hm Hurl Hc Hfuel r. subst r. unfold Cleanup.findAndDeleteSummaries.
  rewrite (truthy_nonempty _ Hm). change (negb true) with false. cbv iota.
  destruct (crawl_run cfg baseUrl headers pages fuel _ s s' Hc (seed_nonempty baseUrl)
              Hfuel) as (Ho & Hs & Hq).
  split; [exact Ho|]. split; [exact Hs|]. rewrite Hq. unfold crawlRequests.
  clear -Hurl. induction pages as [|p pages IH]; [reflexivity|].
  simpl. now rewrite IH, (pageDeletions_all cfg baseUrl headers notesUrl _ Hurl).
Qed.

Lemma cleanup_crawls_the_listing_witness :
  let h := initHeaders "secret" in
  let r := @Cleanup.findAndDeleteSummaries Fixture.paperless Fixture.defaults 3 Fixture.base
             h Fixture.start in
  outcome r = Return tt
  /\ map (fun q => (method q, url q)) (fetches (events r))
     = [ (GET, Fixture.seed); (DELETE, Fixture.notesUrl 8 +:+ "?id=2");
         (GET, Fixture.page2);
         (GET, Fixture.page3); (DELETE, Fixture.notesUrl 5 +:+ "?id=5") ].
Proof.
  intros h r.
  destruct (@cleanup_crawls_the_listing Fixture.paperless Fixture.defaults 3 Fixture.base h
              (fun documentId => notesEndpoint Fixture.base documentId)
              [ (Fixture.seed, Fixture.mkPage (Some Fixture.docs1) (Some Fixture.page2));
                (Fixture.page2, Fixture.mkPage (Some Fixture.docs2) (Some Fixture.page3));
                (Fixture.page3, Fixture.mkPage (Some Fixture.docs3) None) ]
              Fixture.start Fixture.start)
    as (Ho & _ & Hq).
  - discriminate.
  - intros documentId. reflexivity.
  - eapply (@cleans_next Fixture.paperless Fixture.defaults Fixture.base h Fixture.start
              Fixture.seed _
              (JPage (Fixture.mkPage (Some Fixture.docs1) (Some Fixture.page2))));
      try reflexivity.
    eapply (@cleans_next Fixture.paperless Fixture.defaults Fixture.base h _
              Fixture.page2 _
              (JPage (Fixture.mkPage (Some Fixture.docs2) (Some Fixture.page3))));
      try reflexivity.
    exact (@cleans_last Fixture.paperless Fixture.defaults Fixture.base h Fixture.start
             Fixture.page3 _
             (JPage (Fixture.mkPage (Some Fixture.docs3) None)) tt Fixture.docs3
             eq_refl eq_refl eq_refl eq_refl eq_refl).
  - simpl. lia.
  - split; [exact Ho|]. subst r. rewrite Hq. vm_compute. reflexivity.
Defined.

(** ** The summarizer as a whole *)

Section Program.
Context `{Runtime}.
Variable cfg : SummarizerConfiguration.

(** The scan over pages that lead to a page the service refuses. *)
Lemma scanPages_leads headers pages :
  forall url fuel acc s url' w' resp w'',
    leads headers (world s) url pages url' w' ->
    fetch (pageRequest headers false url') w' = (Responded resp, w'') ->
    ok resp = false ->
    (length pages < fuel)%nat ->
    let r := Index.scanPages cfg fuel headers url acc s in
    outcome r = Throw (newError ("Error on search request: " +:+ statusText resp))
    /\ fetches (events r) = map (pageRequest headers false) (pages.*1 ++ [url'])
    /\ attempts (events r) = [].
Proof.
  induction pages as [|[u0 p0] pages IH];
    intros url fuel acc s url' w' resp w'' Hl Hf Hok Hfuel;
    (destruct fuel as [|fuel]; [simpl in Hfuel; lia|]).
  - inversion Hl; subst. cbv zeta. simpl Index.scanPages.
    rewrite (bind_after _ _ _ _ _ _ (http_responded _ _ _ _ Hf)), Hok.
    repeat split; reflexivity.
  - inversion Hl as [|w0 url0 resp1 parsed w1 docs u rest url0' w0'
                       Hf1 Hok1 Hj1 Hres Hnext Hu Hrest]; subst.
    cbv zeta.
    rewrite (scanPages_step cfg fuel headers u0 acc s resp1 parsed w1 Hf1 Hok1 Hj1).
    cbv zeta. rewrite Hres, Hnext, !truthy_Some, (truthy_nonempty _ Hu).
    change (@truthy (list PaperlessDocument) _ docs) with true.
    change (negb true) with false. cbv iota. simpl nullish.
    simpl in Hfuel.
    destruct (IH u fuel (Index.collectUnsummarized cfg docs acc)
                {| world := w1; headersObj := headersObj s |} url' w' resp w''
                Hrest Hf Hok) as (Ho & Hq & Ha); [lia|].
    unfold after. rewrite outcome_run, events_run.
    split; [exact Ho|]. rewrite fetches_app, attempts_app, Hq, Ha.
    split; reflexivity.
Qed.

Lemma scanPages_attempts fuel headers url acc s :
  attempts (events (Index.scanPages cfg fuel headers url acc s)) = [].
Proof.
  apply attempts_body. revert s.
  change (emits_only bodyEvent (Index.scanPages cfg fuel headers url acc)).
  apply emits_scanPages; simpl; auto.
Qed.

End Program.

(** X16. When a page of the listing is answered with a status that is not
    OK, after any number of pages that were served, the summarizer gives up
    the whole scan: it reports the error with the status text and ends
    without having looked at a single document, those of the pages already
    read included. *)
Theorem failed_page_discards_the_scan `{Runtime} (env : ProcessEnv) (fuel : nat)
    (s : Store) (pages : list (string * PaperlessSearchResult)) (url' : string)
    (w' w'' : World) (resp : Response) :
  let token := nullish (env !! "PAPERLESS_TOKEN") "" in
  let url := nullish (env !! "PAPERLESS_URL") "" in
  token <> "" -> url <> "" ->
  leads (initHeaders token) (world s) (url +:+ "/documents/?ordering=-id") pages url' w' ->
  fetch (pageRequest (initHeaders token) false url') w' = (Responded resp, w'') ->
  ok resp = false ->
  (length pages < fuel)%nat ->
  let r := Index.program env fuel s in
  outcome r = Return tt
  /\ fetches (events r) = map (pageRequest (initHeaders token) false) (pages.*1 ++ [url'])
  /\ attempts (events r) = []
  /\ last (events r)
     = Some (EvError (Uncaught (newError ("Error on search request: "
                                          +:+ statusText resp)))).
Proof.
  intros token url Ht Hu Hl Hf Hok Hfuel r. subst r.
  unfold Index.program, Index.run.
  destruct (index_main_started (CONFIG env) env fuel s) as [(_ & _ & Hm) | [[Hm|Hm] _]];
    [|contradiction..].
  fold token url in Hm.
  destruct (scanPages_leads (CONFIG env) (initHeaders token) pages
              (url +:+ "/documents/?ordering=-id") fuel []
              {| world := world s; headersObj := initHeaders token |}
              url' w' resp w'' Hl Hf Hok Hfuel) as (Ho & Hq & Ha).
  fold (Index.processDocumentPages (CONFIG env) fuel url (initHeaders token)) in Ho, Hq, Ha.
  rewrite outcome_try_catch, events_try_catch, Hm, outcome_bind, events_bind, Ho.
  match goal with
  | |- context [events (console_error ?m ?x)] =>
      change (events (console_error m x)) with [EvError m];
      change (outcome (console_error m x)) with (Return tt)
  end.
  rewrite app_nil_r, fetches_app, attempts_app, Hq, Ha, last_snoc.
  repeat split; try reflexivity. simpl. apply app_nil_r.
Qed.

Lemma failed_page_discards_the_scan_witness :
  let r := @Index.program Bench.desk Fixture.processEnv 5 Bench.start in
  outcome r = Return tt
  /\ map url (fetches (events r)) = [Fixture.seed; Fixture.page2]
  /\ attempts (events r) = []
  /\ last (events r)
     = Some (EvError (Uncaught (newError "Error on search request: Bad Gateway"))).
Proof.
  intros r.
  destruct (@failed_page_discards_the_scan Bench.desk Fixture.processEnv 5 Bench.start
              [(Fixture.seed, Fixture.mkPage (Some Fixture.docs1) (Some Fixture.page2))]
              Fixture.page2 tt tt
              {| status := 502; statusText := "Bad Gateway"; json := inr JOther |})
    as (Ho & Hq & Ha & Hl); try discriminate; try reflexivity.
  - eapply (@leads_cons Bench.desk (initHeaders "secret") tt Fixture.seed _
              (JPage (Fixture.mkPage (Some Fixture.docs1) (Some Fixture.page2))));
      try reflexivity; [discriminate | constructor].
  - simpl. lia.
  - split; [exact Ho|]. split; [subst r; rewrite Hq; reflexivity|].
    split; [exact Ha | exact Hl].
Defined.

(** X17. When the listing is served in full, each page with its [results]
    and with document ids that are not 0, [main] takes up, one after the
    other and in the order of the listing, exactly the documents that have
    an id and no note whose text contains the marker; and [main] itself
    returns, whatever happens to the single documents: nothing reaches
    [main().catch], so the run of the program is the run of [main]. *)
Theorem summarizer_attempts_the_kept_documents `{Runtime} (env : ProcessEnv) (fuel : nat)
    (s : Store) (pages : list (string * PaperlessSearchResult)) (w' : World) :
  let token := nullish (env !! "PAPERLESS_TOKEN") "" in
  let url := nullish (env !! "PAPERLESS_URL") "" in
  token <> "" -> url <> "" ->
  serves (initHeaders token) (world s) (url +:+ "/documents/?ordering=-id") pages w' ->
  Forall (fun p => is_Some (results p)) pages.*2 ->
  Forall (fun d => id d <> Some 0) (documentsOf pages.*2) ->
  (length pages <= fuel)%nat ->
  let m := Index.main (CONFIG env) env fuel s in
  outcome m = Return tt
  /\ attempts (events m)
     = omap id (filter (unsummarized (SUMMARY_MARKER (CONFIG env))) (documentsOf pages.*2))
  /\ Index.program env fuel s = m.
Proof.
  intros token url Ht Hu Hs Hres Hids Hfuel m.
  assert (Hres' : Forall (fun up : string * PaperlessSearchResult =>
                            isArray (results up.2) = true) pages).
  { apply Forall_forall. intros [u p] Hin. simpl.
    rewrite Forall_forall in Hres. destruct (Hres p) as [l Hl].
    - apply list_elem_of_fmap. now exists (u, p).
    - now rewrite Hl. }
  destruct (index_main_started (CONFIG env) env fuel s) as [(_ & _ & Hm) | [[Hm|Hm] _]];
    [|contradiction..].
  fold token url in Hm.
  destruct (scanPages_serves (CONFIG env) (initHeaders token) pages
              (url +:+ "/documents/?ordering=-id") fuel []
              {| world := world s; headersObj := initHeaders token |} w'
              Hs Hres' Hfuel) as (Ho & _ & _).
  pose proof (scanPages_attempts (CONFIG env) fuel (initHeaders token)
                (url +:+ "/documents/?ordering=-id") []
                {| world := world s; headersObj := initHeaders token |}) as Ha.
  fold (Index.processDocumentPages (CONFIG env) fuel url (initHeaders token)) in Ho, Ha.
  assert (Hout : outcome m = Return tt).
  { subst m. rewrite Hm, outcome_bind, Ho. apply summarizeAll_returns. }
  split; [exact Hout|]. split.
  - subst m. rewrite Hm, events_bind, Ho, attempts_app, Ha, summarizeAll_attempts.
    simpl. now apply keptIds_spec.
  - unfold Index.program, Index.run, try_catch. fold m.
    unfold outcome in Hout. destruct m as [[o s1] t1]. simpl in Hout. now subst o.
Qed.

Lemma summarizer_attempts_the_kept_documents_witness :
  let m := @Index.main Fixture.paperless (CONFIG Fixture.processEnv) Fixture.processEnv 3
             Fixture.start in
  outcome m = Return tt
  /\ attempts (events m) = [9; 7; 6; 4]
  /\ @Index.program Fixture.paperless Fixture.processEnv 3 Fixture.start = m.
Proof.
  intros m.
  destruct (@summarizer_attempts_the_kept_documents Fixture.paperless Fixture.processEnv 3
              Fixture.start
              [ (Fixture.seed, Fixture.mkPage (Some Fixture.docs1) (Some Fixture.page2));
                (Fixture.page2, Fixture.mkPage (Some Fixture.docs2) (Some Fixture.page3));
                (Fixture.page3, Fixture.mkPage (Some Fixture.docs3) None) ] tt)
    as (Ho & Ha & Hp); try discriminate.
  - eapply (@serves_next Fixture.paperless (initHeaders "secret") tt Fixture.seed _
              (JPage (Fixture.mkPage (Some Fixture.docs1) (Some Fixture.page2))));
      try reflexivity.
    eapply (@serves_next Fixture.paperless (initHeaders "secret") tt Fixture.page2 _
              (JPage (Fixture.mkPage (Some Fixture.docs2) (Some Fixture.page3))));
      try reflexivity.
    eapply (@serves_last Fixture.paperless (initHeaders "secret") tt Fixture.page3 _
              (JPage (Fixture.mkPage (Some Fixture.docs3) None))); reflexivity.
  - repeat constructor; eexists; reflexivity.
  - repeat constructor; discriminate.
  - simpl. lia.
  - split; [exact Ho|]. split; [|exact Hp]. subst m. rewrite Ha. vm_compute. reflexivity.
Defined.

(** ** Failed generations, and the marker *)

Section Generation.
Context `{Runtime}.
Variable cfg : SummarizerConfiguration.

(** The loop over a stream that breaks off. *)
Lemma consume_failure display ps e acc s :
  Index.consume display ps (Some e) acc s
  = (Throw e, s, if display then map EvStdout ps else []).
Proof.
  revert acc; induction ps as [|p ps IH]; intros acc; simpl.
  - now destruct display.
  - unfold bind at 1. destruct display; simpl; rewrite IH; reflexivity.
Qed.

Lemma summarizeText_refused text display s e w' :
  ollama_generate (generateRequest cfg text) (world s) = (inl e, w') ->
  Index.summarizeText cfg text display s
  = (Throw e, {| world := w'; headersObj := headersObj s |},
     [EvGenerate (generateRequest cfg text)]).
Proof.
  intros Hg. unfold Index.summarizeText. fold (generateRequest cfg text).
  unfold bind at 1, emit. unfold bind at 1, world_op. simpl.
  rewrite Hg. reflexivity.
Qed.

Lemma summarizeText_broken text display s chunks e w' :
  ollama_generate (generateRequest cfg text) (world s)
    = (inr {| parts := chunks; failure := Some e |}, w') ->
  Index.summarizeText cfg text display s
  = (Throw e, {| world := w'; headersObj := headersObj s |},
     EvGenerate (generateRequest cfg text) :: (if display then map EvStdout chunks else [])).
Proof.
  intros Hg. unfold Index.summarizeText. fold (generateRequest cfg text).
  unfold bind at 1, emit. unfold bind at 1, world_op. simpl.
  rewrite Hg. simpl. rewrite consume_failure. reflexivity.
Qed.

(** A note of the posted form contains the marker. *)
Lemma expectedNote_marked summary config :
  includes (expectedNote summary config (SUMMARY_MARKER cfg)) (SUMMARY_MARKER cfg) = true.
Proof.
  apply includes_spec. unfold expectedNote.
  exists (summary +:+ LF +:+ LF +:+ "Model-Configuration:" +:+ config +:+ LF), "".
  now rewrite append_nil_r, !append_assoc.
Qed.

Lemma filter_nil_existsb {A} (f : A -> bool) l :
  List.filter f l = [] <-> existsb f l = false.
Proof.
  induction l as [|a l IH]; simpl; [tauto|].
  destruct (f a); simpl; [split; discriminate | exact IH].
Qed.

(** What the two loops do with one document. *)
Lemma kept_nothing_to_delete d :
  truthy (id d) = true -> kept cfg d = true <-> summaryNotesOf cfg d = [].
Proof.
  intros Hid. unfold kept, summaryNotesOf. rewrite Hid, !truthy_array_eq.
  destruct (notes d) as [ns|]; simpl; [|tauto].
  rewrite negb_true_iff. symmetry. apply filter_nil_existsb.
Qed.

Lemma fetches_In q t : In q (fetches t) -> In (EvFetch q) t.
Proof.
  induction t as [|e t IH]; [contradiction|].
  destruct e as [q'| | | | | |]; simpl; try (intros Hin; right; now apply IH).
  intros [-> | Hin]; [now left | right; now apply IH].
Qed.

(** The first page of the all-mode cleanup: the requests of the run start
    with the page and the deletions on it. *)
Lemma cleanup_first_page fuel baseUrl headers s resp parsed w1 docs :
  SUMMARY_MARKER cfg <> "" ->
  fetch (pageRequest headers true (baseUrl +:+ "/documents/?ordering=-id")) (world s)
    = (Responded resp, w1) ->
  ok resp = true ->
  json resp = inr parsed ->
  results (as_page parsed) = Some docs ->
  exists rest,
    fetches (events (Cleanup.findAndDeleteSummaries cfg (S fuel) baseUrl headers s))
    = pageRequest headers true (baseUrl +:+ "/documents/?ordering=-id")
      :: pageDeletions cfg baseUrl headers docs ++ rest.
Proof.
  intros Hm Hf Hok Hj Hres. unfold Cleanup.findAndDeleteSummaries.
  rewrite (truthy_nonempty _ Hm). change (negb true) with false. cbv iota.
  pose proof (cleanPage_results cfg baseUrl headers _ s resp parsed w1 docs
                Hf Hok Hj Hres) as Hpage.
  cbv zeta in Hpage.
  destruct (truthy (followUp (as_page parsed)) && _).
  - rewrite (cleanLoop_step cfg fuel baseUrl headers _ s _ _ _
               (seed_nonempty baseUrl) Hpage).
    exists []. rewrite events_run, !fetches_app, cleanDocuments_fetches. reflexivity.
  - rewrite (cleanLoop_step cfg fuel baseUrl headers _ s _ _ _
               (seed_nonempty baseUrl) Hpage).
    eexists. unfold after. rewrite events_run, !fetches_app, cleanDocuments_fetches.
    simpl. rewrite <- app_assoc. reflexivity.
Qed.

End Generation.

(** X18. When the stream of the generation service breaks off, the error
    reaches the caller of [summarizeText] and the parts received so far
    are not returned; with [display] they have been written to standard
    output by then, each once and in order. *)
Theorem summarizeText_fails_with_the_stream `{Runtime} (cfg : SummarizerConfiguration)
    (text : string) (display : bool) (s : Store) (chunks : list string) (e : Error)
    (w' : World) :
  ollama_generate (generateRequest cfg text) (world s)
    = (inr {| parts := chunks; failure := Some e |}, w') ->
  let r := Index.summarizeText cfg text display s in
  outcome r = Throw e
  /\ stdoutWrites (events r) = (if display then chunks else [])
  /\ events r
     = EvGenerate (generateRequest cfg text) :: (if display then map EvStdout chunks else []).
Proof.
  intros Hg r. subst r. rewrite (summarizeText_broken cfg _ _ _ _ _ _ Hg).
  split; [reflexivity|]. split; [|reflexivity].
  rewrite events_run. change (stdoutWrites (EvGenerate ?q :: ?t)) with (stdoutWrites t).
  destruct display; [apply stdoutWrites_map | reflexivity].
Qed.

Lemma summarizeText_fails_with_the_stream_witness :
  let r := @Index.summarizeText Bench.flaky Fixture.defaults "hello" true
             (@Fixture.store0 Bench.flaky tt) in
  outcome r = Throw {| name := "Error"; message := "socket hang up" |}
  /\ stdoutWrites (events r) = ["Sum"; "ma"].
Proof.
  intros r.
  destruct (@summarizeText_fails_with_the_stream Bench.flaky Fixture.defaults "hello" true
              (@Fixture.store0 Bench.flaky tt) ["Sum"; "ma"]
              {| name := "Error"; message := "socket hang up" |} tt eq_refl)
    as (Ho & Hw & _).
  split; [exact Ho | exact Hw].
Defined.

(** X19. When the generation for a document fails, at once or in the
    middle of the stream, nothing is posted for the document and no file
    is written: the [try] block ends with that error after the request for
    the document and the generation request, and the [Headers] object is
    as it was. *)
Theorem failed_generation_posts_nothing `{Runtime} (cfg : SummarizerConfiguration)
    (envConfig : EnvConfig) (i : Z) (s : Store) (resp : Response) (parsed : JsonBody)
    (w1 : World) (text : string) (answer : Error + Stream) (e : Error) (w2 : World) :
  fetch (documentRequest envConfig i (headersObj s)) (world s) = (Responded resp, w1) ->
  ok resp = true ->
  json resp = inr parsed ->
  content (as_document parsed) = Some text ->
  text <> "" ->
  ollama_generate (generateRequest cfg text) w1 = (answer, w2) ->
  answer = inl e \/ (exists chunks, answer = inr {| parts := chunks; failure := Some e |}) ->
  Index.summarizeDocument cfg envConfig i s
  = (Throw e, {| world := w2; headersObj := headersObj s |},
     [ EvFetch (documentRequest envConfig i (headersObj s));
       EvGenerate (generateRequest cfg text) ]).
Proof.
  intros Hf Hok Hj Hc Ht Hg Ha. unfold Index.summarizeDocument.
  rewrite (bind_quiet _ _ s (headersObj s)) by reflexivity.
  rewrite (bind_after _ _ _ _ _ _ (fetchDocument_answered _ _ _ _ _ _ Hf Hok Hj)).
  rewrite Hc, truthy_Some, (truthy_nonempty _ Ht). change (negb true) with false.
  cbv iota. simpl nullish.
  destruct Ha as [-> | [chunks ->]].
  - rewrite (bind_throw _ _ _ _ _ _
               (summarizeText_refused cfg text false
                  {| world := w1; headersObj := headersObj s |} e w2 Hg)).
    reflexivity.
  - rewrite (bind_throw _ _ _ _ _ _
               (summarizeText_broken cfg text false
                  {| world := w1; headersObj := headersObj s |} chunks e w2 Hg)).
    reflexivity.
Qed.

Lemma failed_generation_posts_nothing_witness :
  let s := @Fixture.store0 Bench.flaky tt in
  @Index.summarizeDocument Bench.flaky Fixture.defaults Fixture.environment 42 s
  = (Throw {| name := "Error"; message := "socket hang up" |}, s,
     [ EvFetch (@documentRequest Fixture.environment 42 []);
       EvGenerate (generateRequest Fixture.defaults "hello world") ]).
Proof.
  intros s.
  apply (@failed_generation_posts_nothing Bench.flaky Fixture.defaults Fixture.environment
           42 s (Fixture.mkContent 42 (Some "hello world"))
           (JDocument {| content := Some "hello world"; created := None; id := Some 42;
                         title := None; notes := None |})
           tt "hello world"
           (inr {| parts := ["Sum"; "ma"];
                   failure := Some {| name := "Error"; message := "socket hang up" |} |})
           {| name := "Error"; message := "socket hang up" |} tt);
    try reflexivity; [discriminate | right; eexists; reflexivity].
Defined.

(** X20. A note of the form the summarizer posts (the summary, two
    newlines, the label with a configuration, a newline and the marker) is
    recognised afterwards by both tools. The loop of the scan over the
    documents of a page collects nothing for a document that carries such a
    note: the page without the document gives the same ids. And the
    all-mode cleanup [findAndDeleteSummaries], run with a marker that is not
    empty and served a first page with the document on it, asks for the
    deletion of that note, when the document has an id and the URL of its
    notes can be built. *)
Theorem posted_note_marks_the_document `{Runtime} (cfg : SummarizerConfiguration)
    (summary config : string) (n : PaperlessNote) (d : PaperlessDocument)
    (ns : list PaperlessNote) :
  note n = Some (expectedNote summary config (SUMMARY_MARKER cfg)) ->
  notes d = Some ns ->
  In n ns ->
  (forall before rest acc,
      Index.collectUnsummarized cfg (before ++ d :: rest) acc
      = Index.collectUnsummarized cfg (before ++ rest) acc)
  /\ (forall fuel baseUrl headers s resp parsed w1 docs u,
        SUMMARY_MARKER cfg <> "" ->
        truthy (id d) = true ->
        URL_new (notesEndpoint baseUrl (id d)) = Some u ->
        fetch (pageRequest headers true (baseUrl +:+ "/documents/?ordering=-id")) (world s)
          = (Responded resp, w1) ->
        ok resp = true ->
        json resp = inr parsed ->
        results (as_page parsed) = Some docs ->
        In d docs ->
        In (EvFetch (deletionAt headers u (note_id n)))
          (events (Cleanup.findAndDeleteSummaries cfg (S fuel) baseUrl headers s))).
Proof.
  intros Hn Hd Hin.
  assert (Hm : Index.noteHasMarker cfg n = true).
  { unfold Index.noteHasMarker. rewrite Hn. apply expectedNote_marked. }
  split.
  - intros before rest acc. rewrite !collectUnsummarized_spec, !omap_app. simpl.
    replace (kept cfg d) with false; [reflexivity|]. symmetry.
    unfold kept. rewrite Hd, truthy_array_eq. simpl isArray. simpl nullish.
    assert (Hs : some (Index.noteHasMarker cfg) ns = true).
    { unfold some. apply existsb_exists. now exists n. }
    rewrite Hs. apply andb_false_r.
  - intros fuel baseUrl headers s resp parsed w1 docs u Hmarker Hid Hu Hf Hok Hj Hres Hdoc.
    destruct (cleanup_first_page cfg fuel baseUrl headers s resp parsed w1 docs
                Hmarker Hf Hok Hj Hres) as [rest Hq].
    apply fetches_In. rewrite Hq. right. apply in_or_app. left.
    unfold pageDeletions. apply in_flat_map. exists d. split; [exact Hdoc|].
    apply list_elem_of_In, list_elem_of_omap. exists n. split.
    + apply list_elem_of_In. unfold summaryNotesOf.
      rewrite Hid, Hd, truthy_array_eq. simpl. apply filter_In. split; [exact Hin | exact Hm].
    + unfold deletionRequest. now rewrite Hu.
Qed.

Lemma posted_note_marks_the_document_witness :
  let h := initHeaders "secret" in
  Index.collectUnsummarized Fixture.defaults
    [Fixture.mkDoc (Some 9) None; Bench.summarized] [] = [9]
  /\ In (EvFetch (@deletionAt Bench.lonely h (Fixture.notesUrl 8) 2))
       (events (@Cleanup.findAndDeleteSummaries Bench.lonely Fixture.defaults 1
                  Fixture.base h (@Fixture.store0 Bench.lonely tt))).
Proof.
  intros h.
  destruct (@posted_note_marks_the_document Bench.lonely Fixture.defaults "Summary" "{}"
              Bench.postedNote Bench.summarized
              [Fixture.mkNote 1 (Some "scanned"); Bench.postedNote] eq_refl eq_refl)
    as [Hscan Hclean]; [right; left; reflexivity|].
  split.
  - exact (eq_trans (Hscan [Fixture.mkDoc (Some 9) None] [] []) eq_refl).
  - apply (Hclean 0%nat Fixture.base h (@Fixture.store0 Bench.lonely tt)
             {| status := 200; statusText := "OK";
                json := inr (JPage (Fixture.mkPage (Some [Bench.summarized]) None)) |}
             (JPage (Fixture.mkPage (Some [Bench.summarized]) None))
             tt [Bench.summarized] (Fixture.notesUrl 8));
      try reflexivity; [discriminate | left; reflexivity].
Defined.

(** X21. The scan of the summarizer and the all-mode cleanup read the
    marker the same way. Served the same page with one document on it, a
    document with an id that is not 0, and run with a marker that is not
    empty, [processDocumentPages] returns the id of the document exactly
    when [findAndDeleteSummaries] finds nothing to delete: either the scan
    returns the id and the cleanup only asks for the page, or the scan
    returns nothing and the cleanup asks for the page and then for the
    deletion of each note of the document that carries the marker, of which
    there is one at least. *)
Theorem scan_and_cleanup_agree `{Runtime} (cfg : SummarizerConfiguration)
    (fuel fuel' : nat) (baseUrl : string) (headers : Headers) (s s' : Store)
    (resp resp' : Response) (p : PaperlessSearchResult) (w1 w1' : World)
    (d : PaperlessDocument) (i : Z) (u : URL) :
  SUMMARY_MARKER cfg <> "" ->
  results p = Some [d] ->
  next p = None ->
  id d = Some i ->
  i <> 0 ->
  URL_new (notesEndpoint baseUrl (Some i)) = Some u ->
  fetch (pageRequest headers false (baseUrl +:+ "/documents/?ordering=-id")) (world s)
    = (Responded resp, w1) ->
  ok resp = true ->
  json resp = inr (JPage p) ->
  fetch (pageRequest headers true (baseUrl +:+ "/documents/?ordering=-id")) (world s')
    = (Responded resp', w1') ->
  ok resp' = true ->
  json resp' = inr (JPage p) ->
  let scan := Index.processDocumentPages cfg (S fuel) baseUrl headers s in
  let clean := Cleanup.findAndDeleteSummaries cfg (S fuel') baseUrl headers s' in
  let page := pageRequest headers true (baseUrl +:+ "/documents/?ordering=-id") in
  let marked :=
    List.filter (fun n => match note n with
                          | Some text => includes text (SUMMARY_MARKER cfg)
                          | None => false
                          end) (nullish (notes d) []) in
  outcome clean = Return tt
  /\ fetches (events clean)
     = page :: map (fun n => deletionAt headers u (note_id n)) marked
  /\ outcome scan = Return (if decide (marked = []) then [i] else []).
Proof.
  intros Hm Hres Hnext Hid Hi Hu Hf Hok Hj Hf' Hok' Hj' scan clean page marked.
  assert (Htruthy : truthy (id d) = true).
  { rewrite Hid, truthy_Some. unfold truthy, truthy_number.
    apply negb_true_iff, Z.eqb_neq. exact Hi. }
  assert (Hmarked : summaryNotesOf cfg d = marked).
  { unfold summaryNotesOf. rewrite Htruthy, truthy_array_eq.
    subst marked. destruct (notes d); reflexivity. }
  (* the cleanup *)
  assert (Hc : cleans cfg baseUrl headers s' (baseUrl +:+ "/documents/?ordering=-id")
                 [(baseUrl +:+ "/documents/?ordering=-id", as_page (JPage p))]
                 (final (Cleanup.cleanDocuments cfg baseUrl headers [d]
                           {| world := w1'; headersObj := headersObj s' |}))).
  { apply (cleans_last cfg baseUrl headers s' _ resp' (JPage p) w1' [d] Hf' Hok' Hj' Hres).
    unfold followUp. simpl. now rewrite Hnext. }
  destruct (crawl_run cfg baseUrl headers _ (S fuel') _ s' _ Hc (seed_nonempty baseUrl))
    as (Ho & _ & Hq); [simpl; lia|].
  assert (Hclean : clean = Cleanup.cleanLoop cfg (S fuel') baseUrl headers
                             (Some (baseUrl +:+ "/documents/?ordering=-id")) s').
  { subst clean. unfold Cleanup.findAndDeleteSummaries.
    now rewrite (truthy_nonempty _ Hm). }
  rewrite Hclean. split; [exact Ho|]. split.
  - rewrite Hq. simpl. rewrite Hres. simpl. rewrite !app_nil_r. fold page. f_equal.
    rewrite Hmarked, Hid. apply omap_all. intros n. unfold deletionRequest. now rewrite Hu.
  - subst scan. unfold Index.processDocumentPages.
    rewrite (scanPages_step cfg fuel headers _ [] s resp (JPage p) w1 Hf Hok Hj).
    cbv zeta. simpl as_page. rewrite Hres, Hnext, truthy_array_eq.
    change (negb (isArray (Some [d]))) with false.
    change (negb (truthy (@None string))) with true. cbv iota.
    rewrite outcome_run. simpl nullish.
    rewrite collectUnsummarized_spec. simpl.
    pose proof (kept_nothing_to_delete cfg d Htruthy) as Hk. rewrite Hmarked in Hk.
    destruct (decide (marked = [])) as [He | Hne].
    + rewrite (proj2 Hk He), Hid. reflexivity.
    + destruct (kept cfg d); [|reflexivity]. destruct Hne. now apply Hk.
Qed.

Lemma scan_and_cleanup_agree_witness :
  let h := initHeaders "secret" in
  let scan := @Index.processDocumentPages Bench.lonely Fixture.defaults 1 Fixture.base
                h (@Fixture.store0 Bench.lonely tt) in
  let clean := @Cleanup.findAndDeleteSummaries Bench.lonely Fixture.defaults 1
                 Fixture.base h (@Fixture.store0 Bench.lonely tt) in
  outcome clean = Return tt
  /\ map (fun q => (method q, url q)) (fetches (events clean))
     = [(GET, Fixture.seed); (DELETE, Fixture.notesUrl 8 +:+ "?id=2")]
  /\ outcome scan = Return [].
Proof.
  intros h scan clean.
  destruct (@scan_and_cleanup_agree Bench.lonely Fixture.defaults 0 0 Fixture.base h
              (@Fixture.store0 Bench.lonely tt) (@Fixture.store0 Bench.lonely tt)
              {| status := 200; statusText := "OK";
                 json := inr (JPage (Fixture.mkPage (Some [Bench.summarized]) None)) |}
              {| status := 200; statusText := "OK";
                 json := inr (JPage (Fixture.mkPage (Some [Bench.summarized]) None)) |}
              (Fixture.mkPage (Some [Bench.summarized]) None) tt tt
              Bench.summarized 8 (Fixture.notesUrl 8))
    as (Ho & Hq & Hs); try reflexivity; try discriminate.
  split; [exact Ho|]. split.
  - subst clean. rewrite Hq. reflexivity.
  - exact Hs.
Defined.

(** ** The shared [Headers] object *)

Section ContentType.
Context `{Runtime}.
Variable cfg : SummarizerConfiguration.
Variable envConfig : EnvConfig.

(** A [try] block that returns has set the header. *)
Lemma summarizeDocument_sets i :
  ensures (In ("Content-Type", "application/json"))
    (Index.summarizeDocument cfg envConfig i).
Proof.
  unfold Index.summarizeDocument.
  apply ensures_bind_inner; intros h.
  apply ensures_bind_inner; intros document.
  destruct (negb _); [apply ensures_throw|].
  apply ensures_bind_inner; intros summary.
  apply ensures_bind_inner; intros h'.
  apply ensures_bind_outer; [apply ensures_writeHeaders, Headers_set_in|].
  intros _. unfold postComment, saveSummaryToFile.
  repeat keeps_step; simpl; auto.
Qed.

End ContentType.

(** X22. The [Content-Type] header set for the post of a summary stays on
    the [Headers] object the whole run shares: once the [try] block has
    returned for one document, every later request of the loop carries
    [Content-Type: application/json], the requests that read the next
    documents included. *)
Theorem content_type_stays_set `{Runtime} (cfg : SummarizerConfiguration)
    (envConfig : EnvConfig) (i : Z) (ids : list Z) (s : Store) :
  let d := Index.summarizeDocument cfg envConfig i s in
  outcome d = Return tt ->
  Forall (carries ("Content-Type", "application/json"))
    (events (Index.summarizeAll cfg envConfig ids (final d))).
Proof.
  intros d Ho.
  apply (keeps_summarizeAll cfg ("Content-Type", "application/json")).
  - intros h _. apply Headers_set_in.
  - exact (summarizeDocument_sets cfg envConfig i s tt Ho).
Qed.

Lemma content_type_stays_set_witness :
  let d := @Index.summarizeDocument Fixture.paperless Fixture.defaults Fixture.environment
             42 Fixture.start in
  let t := events (@Index.summarizeAll Fixture.paperless Fixture.defaults
                     Fixture.environment [7; 1] (final d)) in
  Forall (carries ("Content-Type", "application/json")) t
  /\ map (fun q => (method q, url q)) (fetches t)
     = [ (GET, Fixture.documentUrl 7); (GET, Fixture.documentUrl 1);
         (POST, Fixture.notesUrl 1) ].
Proof.
  intros d t. split.
  - apply (@content_type_stays_set Fixture.paperless Fixture.defaults Fixture.environment
             42 [7; 1] Fixture.start).
    vm_compute. reflexivity.
  - vm_compute. reflexivity.
Defined.

(** ** The argument of the cleanup tool *)

Section Numerals.

Lemma digitValue_numeral (d : N) :
  (d < 10)%N -> digitValue (pretty_N_char d) = Some (Z.of_N d).
Proof.
  intros Hd.
  assert (d = 0 \/ d = 1 \/ d = 2 \/ d = 3 \/ d = 4 \/ d = 5 \/ d = 6 \/ d = 7
          \/ d = 8 \/ d = 9)%N as Hc by lia.
  repeat (destruct Hc as [-> | Hc]; [reflexivity|]). now subst d.
Qed.

(** A numeral starts with a digit: no white space, no sign, no letter. *)
Lemma numeral_head (d : N) :
  (d < 10)%N ->
  isWhiteSpace (pretty_N_char d) = false
  /\ Ascii.eqb (pretty_N_char d) "-" = false
  /\ Ascii.eqb (pretty_N_char d) "+" = false
  /\ Ascii.eqb (pretty_N_char d) "a" = false.
Proof.
  intros Hd.
  assert (d = 0 \/ d = 1 \/ d = 2 \/ d = 3 \/ d = 4 \/ d = 5 \/ d = 6 \/ d = 7
          \/ d = 8 \/ d = 9)%N as Hc by lia.
  repeat (destruct Hc as [-> | Hc]; [repeat split; reflexivity|]).
  subst d. repeat split; reflexivity.
Qed.

Lemma pretty_N_go_head (x : N) :
  forall s, (0 < x)%N ->
    exists d rest, (d < 10)%N /\ pretty_N_go x s = String (pretty_N_char d) rest.
Proof.
  induction (N.lt_wf_0 x) as [x _ IH]; intros s Hx.
  rewrite pretty_N_go_step by exact Hx.
  destruct (decide (x `div` 10 = 0)%N) as [Hz | Hnz].
  - rewrite Hz, pretty_N_go_0. exists (x `mod` 10)%N, s.
    split; [apply N.mod_lt; lia | reflexivity].
  - apply IH; [apply N.div_lt; lia | now apply N.neq_0_lt_0].
Qed.

(** Reading a numeral back gives the number. *)
Lemma parseDigits_numeral (x : N) :
  forall s, (0 < x)%N ->
    parseDigits 10 None (pretty_N_go x s) = parseDigits 10 (Some (Z.of_N x)) s.
Proof.
  induction (N.lt_wf_0 x) as [x _ IH]; intros s Hx.
  rewrite pretty_N_go_step by exact Hx.
  assert (Hd : (x `mod` 10 < 10)%N) by (apply N.mod_lt; lia).
  destruct (decide (x `div` 10 = 0)%N) as [Hz | Hnz].
  - rewrite Hz, pretty_N_go_0. simpl parseDigits.
    rewrite (digitValue_numeral _ Hd).
    replace (Z.of_N (x `mod` 10) <? 10) with true by (symmetry; apply Z.ltb_lt; lia).
    simpl nullish. f_equal. f_equal.
    pose proof (N.div_mod x 10 ltac:(lia)). lia.
  - rewrite IH; [|apply N.div_lt; lia | now apply N.neq_0_lt_0]. simpl parseDigits.
    rewrite (digitValue_numeral _ Hd).
    replace (Z.of_N (x `mod` 10) <? 10) with true by (symmetry; apply Z.ltb_lt; lia).
    simpl nullish. f_equal. f_equal.
    pose proof (N.div_mod x 10 ltac:(lia)). lia.
Qed.

Lemma Number_toString_positive (n : Z) :
  0 < n ->
  exists d rest,
    (d < 10)%N /\ Number_toString n = String (pretty_N_char d) rest
    /\ parseDigits 10 None (Number_toString n) = Some n.
Proof.
  intros Hn. destruct n as [|p|p]; try lia.
  unfold Number_toString, pretty, pretty_Z, pretty, pretty_positive, pretty, pretty_N.
  destruct (decide (N.pos p = 0%N)) as [Hp|_]; [discriminate|].
  destruct (pretty_N_go_head (N.pos p) "" ltac:(lia)) as (d & rest & Hd & Hs).
  exists d, rest. split; [exact Hd|]. split; [exact Hs|].
  rewrite parseDigits_numeral by lia. reflexivity.
Qed.

Lemma parseInt_numeral (n : Z) :
  0 < n -> parseInt (Number_toString n) (Some 10) = Some n.
Proof.
  intros Hn. destruct (Number_toString_positive n Hn) as (d & rest & Hd & Hs & Hp).
  destruct (numeral_head d Hd) as (Hw & Hm & Hpl & _).
  unfold parseInt. rewrite Hs. simpl trimStart. rewrite Hw.
  unfold splitSign. rewrite Hm, Hpl. simpl.
  change (match digitValue (pretty_N_char d) with
          | Some d0 =>
              if d0 <? 10 then parseDigits 10 (Some (0 * 10 + d0)) rest else None
          | None => None
          end) with (parseDigits 10 None (String (pretty_N_char d) rest)).
  rewrite <- Hs, Hp. f_equal. destruct n; reflexivity.
Qed.

End Numerals.

(** X23. Called with the decimal numeral of a positive number that a double
    holds exactly (below 2^53) and a valid environment, the cleanup tool
    works on the document with that id: the
    two readings of the argument, [parseInt(command, 10)] for the check and
    [parseInt(command)] for the id, agree on it, and the tool does what
    [deleteAiNotesAtDocument] does for that id, reporting what it throws. *)
Theorem cleanup_addresses_the_given_document `{Runtime} (env : ProcessEnv) (fuel : nat)
    (s : Store) (token url : string) (n : Z) :
  validEnvironment env token url ->
  0 < n < 9007199254740992 ->
  parseInt (Number_toString n) (Some 10) = Some n
  /\ parseInt (Number_toString n) None = Some n
  /\ Cleanup.program [Number_toString n] env fuel s
     = try_catch
         (Cleanup.deleteAiNotesAtDocument (CONFIG env) url (Some n) (initHeaders token))
         (fun error => console_error (Uncaught error)) s.
Proof.
  intros Hv [Hn _].
  pose proof (parseInt_numeral n Hn) as H10.
  assert (Hnone : parseInt (Number_toString n) None = Some n)
    by (apply parseInt_radix; [exact H10 | lia]).
  split; [exact H10|]. split; [exact Hnone|].
  destruct (Number_toString_positive n Hn) as (d & rest & Hd & Hs & _).
  destruct (numeral_head d Hd) as (_ & _ & _ & Ha).
  assert (Hall : String.eqb (Number_toString n) "all" = false).
  { rewrite Hs. simpl. now rewrite Ha. }
  unfold Cleanup.program, Cleanup.run. rewrite H10, Hall.
  change (negb false && isNaN (Some n)) with false. cbv iota.
  unfold try_catch. rewrite (main_valid _ _ _ _ _ _ _ Hv). cbv zeta.
  rewrite H10, Hall. simpl isNaN. simpl nullish.
  replace (n <=? 0) with false by (symmetry; apply Z.leb_gt; exact Hn).
  change (negb false && (false || false)) with false. cbv iota.
  replace (or_else (Some (Number_toString n)) "-999") with (Number_toString n)
    by (rewrite Hs; reflexivity).
  now rewrite Hnone.
Qed.

Lemma cleanup_addresses_the_given_document_witness :
  parseInt "7" (Some 10) = Some 7
  /\ parseInt "7" None = Some 7
  /\ @Cleanup.program Bench.desk ["7"] Fixture.processEnv 3 Bench.start
     = try_catch
         (@Cleanup.deleteAiNotesAtDocument Bench.desk (CONFIG Fixture.processEnv)
            Fixture.base (Some 7) (initHeaders "secret"))
         (fun error => console_error (Uncaught error)) Bench.start.
Proof.
  apply (@cleanup_addresses_the_given_document Bench.desk Fixture.processEnv 3 Bench.start
           "secret" Fixture.base 7).
  - repeat split; try reflexivity; try discriminate. now exists Fixture.base.
  - lia.
Defined.

(** X24. The cleanup tool checks the service URL before it does anything
    with its argument beyond the check the module makes on loading: when
    [PAPERLESS_URL] is no URL, the tool reports that and ends without a
    request, whether the argument is [all], a document id or a number that
    is no id. *)
Theorem cleanup_rejects_invalid_service_url `{Runtime} (env : ProcessEnv) (fuel : nat)
    (s : Store) (arg : string) :
  let token := nullish (env !! "PAPERLESS_TOKEN") "" in
  let url := nullish (env !! "PAPERLESS_URL") "" in
  token <> "" -> url <> "" ->
  URL_new url = None ->
  negb (String.eqb arg "all") && isNaN (parseInt arg (Some 10)) = false ->
  Cleanup.program [arg] env fuel s
  = (Return tt, s,
     [EvError (Uncaught (newError ("Invalid Paperless API URL: " +:+ url)))]).
Proof.
  intros token url Ht Hu Hx Harg. unfold Cleanup.program, Cleanup.run.
  rewrite Harg. unfold try_catch, Cleanup.main.
  rewrite (bind_quiet _ _ _ _ (getEnvironmentVariables_present env s Ht Hu)).
  simpl paperlessUrl. fold url. rewrite Hx. reflexivity.
Qed.

Lemma cleanup_rejects_invalid_service_url_witness :
  let env : ProcessEnv :=
    {[ "PAPERLESS_TOKEN" := "secret"; "PAPERLESS_URL" := "paperless.local/api" ]} in
  @Cleanup.program Bench.strict ["0"] env 3 (@Fixture.store0 Bench.strict tt)
  = (Return tt, @Fixture.store0 Bench.strict tt,
     [EvError (Uncaught (newError "Invalid Paperless API URL: paperless.local/api"))]).
Proof.
  intros env.
  apply (@cleanup_rejects_invalid_service_url Bench.strict env 3
           (@Fixture.store0 Bench.strict tt) "0");
    try discriminate; reflexivity.
Defined.
